(** * The action-invocation engine of the SDK ([packages/sdk/src/engine.ts])

    A shallow embedding of [handleAction] and of the closures it builds,
    together with the properties of the dispatcher pipeline.

    The dispatcher is effectful JavaScript: it calls collaborators in a fixed
    order, mutates closure variables ([inlineCache]), talks to a cache backend
    and uses exceptions for control flow.  It is modelled in a state monad
    whose state survives an exception, instrumented with the trace of the
    calls the dispatcher makes to its collaborators. *)

From Stdlib Require Import String ZArith List Bool Lia.
From stdpp Require Import base option list gmap strings.
From Stdlib Require Import Sorted.
Import ListNotations.

Local Open Scope string_scope.
Local Open Scope Z_scope.
Local Open Scope list_scope.

(** ** JavaScript values *)

(** The dispatcher handles [any]-typed data.  Objects carry the name of the
    class they were built from (what [instanceof] inspects) and their own
    properties; a property list is read front to back, so the first binding
    of a name is the one in force. *)
#[warnings="-register-all"]
Inductive value : Type :=
| VUndefined
| VNull
| VBool (b : bool)
| VNum (n : Z)
| VStr (s : string)
| VObj (cls : string) (props : list (string * value)).

Fixpoint lookupProp (name : string) (props : list (string * value)) : value :=
  match props with
  | [] => VUndefined
  | (k, v) :: rest => if String.eqb k name then v else lookupProp name rest
  end.

(** Completion of a JavaScript computation: a result, or a thrown value. *)
Inductive outcome (A : Type) : Type :=
| Ok (a : A)
| Throw (e : value).
Arguments Ok {A} a.
Arguments Throw {A} e.

(** [new Error(message)] *)
Definition newError (message : string) : value :=
  VObj "Error" [("message", VStr message)].

(** [new SilentError(message)], lines 22-29: the constructor sets
    [noBacktraceLog] to [true]. *)
Definition SilentError (message : string) : value :=
  VObj "SilentError" [("message", VStr message); ("noBacktraceLog", VBool true)].

(** [new CacheFoundError(result, error)]: the class is imported from
    [./cache]; the dispatcher reads its [result] and [error] fields. *)
Definition CacheFoundError (result error : value) : value :=
  VObj "CacheFoundError" [("result", result); ("error", error)].

Definition TypeError (message : string) : value :=
  VObj "TypeError" [("message", VStr message)].

(** [v === null || v === undefined] *)
Definition nullish (v : value) : bool :=
  match v with
  | VUndefined | VNull => true
  | _ => false
  end.

(** [v.name]: reading a property of [null] or [undefined] throws a
    [TypeError]; primitives have none of the properties read here. *)
Definition getProp (v : value) (name : string) : outcome value :=
  match v with
  | VUndefined | VNull => Throw (TypeError "Cannot read properties of null or undefined")
  | VObj _ props => Ok (lookupProp name props)
  | _ => Ok VUndefined
  end.

(** [v?.name] *)
Definition getPropOpt (v : value) (name : string) : value :=
  match v with
  | VObj _ props => lookupProp name props
  | _ => VUndefined
  end.

(** JavaScript truthiness, as used by [if (x)] and [a || b]. *)
Definition truthy (v : value) : bool :=
  match v with
  | VUndefined | VNull => false
  | VBool b => b
  | VNum n => negb (n =? 0)
  | VStr s => negb (String.eqb s "")
  | VObj _ _ => true
  end.

(** [error instanceof CacheFoundError] *)
Definition instanceofCacheFoundError (v : value) : bool :=
  match v with
  | VObj cls _ => String.eqb cls "CacheFoundError"
  | _ => false
  end.

(** [typeof v === "object"]: true of objects and of [null]. *)
Definition typeofObject (v : value) : bool :=
  match v with
  | VNull | VObj _ _ => true
  | _ => false
  end.

(** [v === "taskRequest"] *)
Definition isTaskRequest (v : value) : bool :=
  match v with
  | VStr s => String.eqb s "taskRequest"
  | _ => false
  end.

(** ** Calls observed on the collaborators *)

(** One constructor per call site of [handleAction] (and of the
    [requestCache] closure) that leaves the dispatcher. *)
Inductive Event : Type :=
| EvHandleTask (input : value)
| EvGetActionHandler (action : string)
| EvValidateSignature (sig : string)
| EvMigrationRequest (action : string) (input : value)
| EvValidatorRequest (input : value)
| EvCacheClone (options : value)
| EvHandler (input : value) (sigData : value)
| EvInline (key : value)
| EvMigrationResponse (action : string) (input output : value)
| EvValidatorResponse (output : value)
| EvInlineSet (output : value)
| EvInlineSetError (error : value)
| EvConsoleWarn (error : value)
| EvSend (type : string) (statusCode : Z) (output : value)
| EvSetSendResponse (id : nat).

Definition isSend (ev : Event) : bool :=
  match ev with EvSend _ _ _ => true | _ => false end.

Definition isHandlerEvent (ev : Event) : bool :=
  match ev with EvHandler _ _ => true | _ => false end.

Definition isValidateSignature (ev : Event) : bool :=
  match ev with EvValidateSignature _ => true | _ => false end.

Definition isRecording (ev : Event) : bool :=
  match ev with EvInlineSet _ | EvInlineSetError _ => true | _ => false end.

Definition isResponseMigration (ev : Event) : bool :=
  match ev with EvMigrationResponse _ _ _ | EvValidatorResponse _ => true | _ => false end.

Definition isRequestMigration (ev : Event) : bool :=
  match ev with EvMigrationRequest _ _ | EvValidatorRequest _ => true | _ => false end.

Definition isWarn (ev : Event) : bool :=
  match ev with EvConsoleWarn _ => true | _ => false end.

Definition isInline (ev : Event) : bool :=
  match ev with EvInline _ => true | _ => false end.

(** The calls the [requestCache] closure makes: [cache.clone(options)] and
    [c.inline(key)]. *)
Definition isRequestCacheEvent (ev : Event) : bool :=
  match ev with EvCacheClone _ | EvInline _ => true | _ => false end.

(** Number of calls in a trace that satisfy a test. *)
Definition calls (test : Event -> bool) (t : list Event) : nat :=
  length (List.filter test t).

(** ** The cache interface ([./cache], consumed at lines 110-121, 170, 182) *)

(** A cache handle can be cloned with overriding options and asked for an
    inline entry; an entry records a success or a failure.  The three
    operations that reach the backend may fail. *)
Class CacheEngine (Store CacheHandler InlineCache : Type) : Type := {
  clone : CacheHandler -> value -> CacheHandler;
  inline : CacheHandler -> value -> Store -> outcome InlineCache * Store;
  inline_set : InlineCache -> value -> Store -> outcome unit * Store;
  inline_setError : InlineCache -> value -> Store -> outcome unit * Store
}.

Section Engine.

Context {Store CacheHandler InlineCache SendResponseFn : Type}.
Context `{!CacheEngine Store CacheHandler InlineCache}.

(** ** Data of one invocation *)

(** [IServerOptions], as far as [handleAction] reads it. *)
Record IServerOptions : Type := {
  cache : CacheHandler;
  requestRecorderPath : option string;
  replayMode : bool
}.

(** [Partial<RecordData>], lines 124-131. *)
Record RecordData : Type := {
  rec_addon : option string;
  rec_action : option string;
  rec_input : option value;
  rec_output : option value
}.

(** The capabilities built by [createTaskFetch] and [createTaskRecaptcha]
    ([./tasks]) at lines 148-149, from the test mode, the responder and the
    cache handle.  The responder they are given is the one object of
    line 134, which lives in the world of the invocation: a capability the
    handler calls finds it there ([callTask] below). *)
Record TaskCapability : Type := {
  testMode : bool;
  taskCache : CacheHandler
}.

(** The second argument of a handler, lines 143-150.  The [requestCache]
    closure is defined in this file; a handler reaches it, and the two
    capabilities, through the constructors of [handlerProg] below. *)
Record ActionHandlerContext : Type := {
  ctx_request : value;
  ctx_sig : value;
  ctx_cache : CacheHandler;
  ctx_fetch : TaskCapability;
  ctx_recaptcha : TaskCapability
}.

(** A handler is a program over what its context offers.  It returns or
    throws; it awaits [requestCache(key, options)] and goes on with the
    completion of that call, which it may catch or let through; it starts
    several [requestCache] calls before it awaits any of them
    ([Promise.allSettled] over the calls) and goes on with their
    completions; it awaits [fetch(args)] or [recaptcha(args)] and goes on
    with the completion.  A handler whose call never completes, and a call
    a handler starts and never awaits, have no program here. *)
Inductive handlerProg : Type :=
| HReturn (output : value)
| HThrow (error : value)
| HRequestCache (key options : value) (k : outcome unit -> handlerProg)
| HRequestCacheAll (requests : list (value * value))
    (k : list (outcome unit) -> handlerProg)
| HFetch (args : value) (k : outcome value -> handlerProg)
| HRecaptcha (args : value) (k : outcome value -> handlerProg).

(** What a handler sees of the addon it is called with (third argument). *)
Record AddonIdentity : Type := {
  addonId : string;
  addonType : string
}.

Definition ActionHandler : Type :=
  value -> ActionHandlerContext -> AddonIdentity -> handlerProg.

(** [BasicAddonClass] ([./addons]), as far as [handleAction] calls it. *)
Record BasicAddonClass : Type := {
  getId : string;
  getType : string;
  getActionHandler : string -> outcome ActionHandler;
  getDefaultCacheOptions : list (string * value)
}.

Definition addonIdentity (addon : BasicAddonClass) : AddonIdentity :=
  {| addonId := getId addon; addonType := getType addon |}.

(** The object returned by [getActionValidator] ([./validators]). *)
Record Validator : Type := {
  v_request : value -> outcome value;
  v_response : value -> outcome value
}.

(** [migrationCtx], lines 97-102.  [data] is the scratch object a request
    adapter may write and the response adapter of the same invocation
    reads. *)
Record MigrationCtx : Type := {
  m_addon : AddonIdentity;
  m_data : value;
  m_sigData : value;
  m_validator : Validator
}.

Definition withData (ctx : MigrationCtx) (data : value) : MigrationCtx :=
  {| m_addon := m_addon ctx; m_data := data;
     m_sigData := m_sigData ctx; m_validator := m_validator ctx |}.

(** An entry of the [migrations] table ([./migrations]).  The dispatcher
    tests [migrations[action]?.request] and [migrations[action]?.response]
    separately (lines 103 and 163), so either adapter may be missing.  A
    request adapter returns the scratch data it leaves in the context
    together with the migrated input. *)
Record MigrationEntry : Type := {
  mig_request : option (MigrationCtx -> value -> outcome (value * value));
  mig_response : option (MigrationCtx -> value -> value -> outcome value)
}.

(** ** The Responder *)

(** Modelled from the spec: the [Responder] class is defined in [./tasks],
    outside [engine.ts].  Sections 3 and 4.5 of the specification give its
    state and contract: it is created per invocation, exactly one terminal
    send transitions it to closed, a send after that is an error, the
    exchange is mirrored into the record when recording is configured, and
    [setSendResponse(id, null)] detaches the delivery channel. *)
Record Responder : Type := {
  pendingRequestId : option nat;
  recordedExchange : option RecordData;
  channel : option SendResponseFn;
  closed : bool;
  nextId : nat
}.

(** Modelled from the spec: [new Responder(record, sendResponse)], an open
    responder attached to its delivery channel. *)
Definition newResponder (record : option RecordData) (fn : SendResponseFn) : Responder :=
  {| pendingRequestId := None; recordedExchange := record;
     channel := Some fn; closed := false; nextId := 0%nat |}.

(** Modelled from the spec: the output is mirrored into the record when
    recording is configured (section 4.5). *)
Definition mirror (record : option RecordData) (output : value) : option RecordData :=
  match record with
  | None => None
  | Some r => Some {| rec_addon := rec_addon r; rec_action := rec_action r;
                      rec_input := rec_input r; rec_output := Some output |}
  end.

(** Modelled from the spec: [send(kind, statusCode, payload)] returns the
    exchange id; the first send closes the responder and a second call is
    rejected (section 4.5). *)
Definition Responder_send (r : Responder) (type : string) (statusCode : Z)
    (output : value) : outcome nat * Responder :=
  if closed r then (Throw (newError "Response was already sent"), r)
  else match channel r with
       | None => (Throw (newError "No delivery channel"), r)
       | Some _ =>
           (Ok (nextId r),
            {| pendingRequestId := Some (nextId r);
               recordedExchange := mirror (recordedExchange r) output;
               channel := channel r; closed := true; nextId := S (nextId r) |})
       end.

(** Modelled from the spec: [setSendResponse(id, fn)] replaces the delivery
    channel; with [null] it detaches the responder (section 4.5). *)
Definition Responder_setSendResponse (r : Responder) (id : nat)
    (fn : option SendResponseFn) : Responder :=
  {| pendingRequestId :=
       match pendingRequestId r with
       | Some p => if Nat.eqb p id then None else Some p
       | None => None
       end;
     recordedExchange := recordedExchange r;
     channel := fn; closed := closed r; nextId := nextId r |}.

(** What a capability of [./tasks] does when the handler calls it with
    [args]: it is given the responder and the cache backend as they are at
    the call, and completes with a value or throws. *)
Definition TaskFn : Type :=
  value -> Responder -> Store -> outcome value * Store.

(** Everything [handleAction] reaches through its imports and the process
    environment.  [createTaskFetch] and [createTaskRecaptcha] take the test
    mode and the cache handle; the responder, their second argument in the
    source, is passed at each call. *)
Record Imports : Type := {
  SKIP_AUTH : option string;
  validateSignature : string -> outcome value;
  getActionValidator : string -> string -> Validator;
  migrations : gmap string MigrationEntry;
  handleTask : CacheHandler -> BasicAddonClass -> value -> SendResponseFn ->
               Store -> outcome unit * Store;
  createTaskFetch : bool -> CacheHandler -> TaskFn;
  createTaskRecaptcha : bool -> CacheHandler -> TaskFn
}.

Record HandleActionProps : Type := {
  opts : IServerOptions;
  addon : BasicAddonClass;
  action : string;
  input : value;
  sig : string;
  request : value;
  sendResponse : SendResponseFn
}.

(** ** The state threaded through an invocation *)

(** [trace] grows by one event per call [handleAction] or the
    [requestCache] closure makes to a collaborator; [store] is the cache
    backend; [inlineCache] is the closure variable of line 116, shared
    between [handleAction] and the [requestCache] closure it hands to the
    handler; [responder] is the object of line 134. *)
Record World : Type := {
  trace : list Event;
  store : Store;
  inlineCache : option InlineCache;
  responder : option Responder
}.

Definition M (A : Type) : Type := World -> outcome A * World.

#[global] Instance M_ret : MRet M := fun A a w => (Ok a, w).

#[global] Instance M_bind : MBind M := fun A B f m w =>
  match m w with
  | (Ok a, w') => f a w'
  | (Throw e, w') => (Throw e, w')
  end.

Definition throw {A : Type} (e : value) : M A := fun w => (Throw e, w).

(** [try { body } catch (error) { handler }]: the state reached when the
    body threw is the one the handler starts from. *)
Definition tryCatch {A : Type} (body : M A) (handler : value -> M A) : M A :=
  fun w =>
    match body w with
    | (Ok a, w') => (Ok a, w')
    | (Throw e, w') => handler e w'
    end.

Definition liftOutcome {A : Type} (o : outcome A) : M A := fun w => (o, w).

Definition emit (ev : Event) : M unit := fun w =>
  (Ok tt, {| trace := trace w ++ [ev]; store := store w;
             inlineCache := inlineCache w; responder := responder w |}).

Definition onStore {A : Type} (op : Store -> outcome A * Store) : M A := fun w =>
  let (r, s) := op (store w) in
  (r, {| trace := trace w; store := s;
         inlineCache := inlineCache w; responder := responder w |}).

Definition getInlineCache : M (option InlineCache) := fun w => (Ok (inlineCache w), w).

Definition setInlineCache (ic : option InlineCache) : M unit := fun w =>
  (Ok tt, {| trace := trace w; store := store w;
             inlineCache := ic; responder := responder w |}).

Definition setResponder (r : Responder) : M unit := fun w =>
  (Ok tt, {| trace := trace w; store := store w;
             inlineCache := inlineCache w; responder := Some r |}).

Definition onResponder {A : Type} (op : Responder -> outcome A * Responder) : M A := fun w =>
  match responder w with
  | None => (Throw (TypeError "responder is not defined"), w)
  | Some r =>
      let (a, r') := op r in
      (a, {| trace := trace w; store := store w;
             inlineCache := inlineCache w; responder := Some r' |})
  end.

(** ** The dispatcher *)

Variable imports : Imports.

(** Lines 88-93: the condition under which [sigData] is [null] without
    [validateSignature] being called. *)
Definition authExempt (addon : BasicAddonClass) (action : string) : bool :=
  match SKIP_AUTH imports with
  | Some flag => String.eqb flag "1"
  | None => false
  end
  || String.eqb action "selftest"
  || String.eqb action "addon"
  || (String.eqb (getType addon) "repository" && String.eqb action "repository").

(** Lines 87-94. *)
Definition resolveSigData (addon : BasicAddonClass) (action sig : string) : M value :=
  if authExempt addon action then mret VNull
  else emit (EvValidateSignature sig);; liftOutcome (validateSignature imports sig).

(** Line 104: [migrations[action].request(migrationCtx, input)].  The result
    is the context as the adapter left it and the migrated input. *)
Definition entryRequest (adapt : MigrationCtx -> value -> outcome (value * value))
    (ctx : MigrationCtx) (action : string) (input : value) : M (MigrationCtx * value) :=
  emit (EvMigrationRequest action input);;
  '(data, input') ← liftOutcome (adapt ctx input);
  mret (withData ctx data, input').

(** Line 106: [migrationCtx.validator.request(input)]. *)
Definition validatorRequest (ctx : MigrationCtx) (input : value)
    : M (MigrationCtx * value) :=
  emit (EvValidatorRequest input);;
  input' ← liftOutcome (v_request (m_validator ctx) input);
  mret (ctx, input').

(** Lines 103-107: the request adapter of the action's entry when the entry
    has one, the validator's request transform otherwise. *)
Definition migrateRequest (ctx : MigrationCtx) (action : string) (input : value)
    : M (MigrationCtx * value) :=
  match migrations imports !! action ≫= mig_request with
  | Some adapt => entryRequest adapt ctx action input
  | None => validatorRequest ctx input
  end.

(** Line 164: [migrations[action].response(migrationCtx, input, output)]. *)
Definition entryResponse (adapt : MigrationCtx -> value -> value -> outcome value)
    (ctx : MigrationCtx) (action : string) (input output : value) : M value :=
  emit (EvMigrationResponse action input output);;
  liftOutcome (adapt ctx input output).

(** Line 166: [migrationCtx.validator.response(output)]. *)
Definition validatorResponse (ctx : MigrationCtx) (output : value) : M value :=
  emit (EvValidatorResponse output);;
  liftOutcome (v_response (m_validator ctx) output).

(** Lines 163-167. *)
Definition migrateResponse (ctx : MigrationCtx) (action : string) (input output : value)
    : M value :=
  match migrations imports !! action ≫= mig_response with
  | Some adapt => entryResponse adapt ctx action input output
  | None => validatorResponse ctx output
  end.

(** Lines 110-113: [{ prefix: addon.getId(), ...addon.getDefaultCacheOptions() }].
    Spread properties come after [prefix] in the literal and win over it, so
    they are placed in front. *)
Definition cacheOptions (addon : BasicAddonClass) : value :=
  VObj "Object" (getDefaultCacheOptions addon ++ [("prefix", VStr (getId addon))]).

(** Lines 118-120 up to the [await]: what a call of the [requestCache]
    closure does before it suspends.  The guard reads [inlineCache], the
    handle is cloned and [c.inline(key)] is called; the completion of that
    lookup is what the call is left waiting for. *)
Definition startRequestCache (cache : CacheHandler) (key options : value)
    : M InlineCache :=
  ic ← getInlineCache;
  match ic with
  | Some _ => throw (newError "Request cache is already set up")
  | None =>
      emit (EvCacheClone options);;
      let c := clone cache options in
      emit (EvInline key);;
      onStore (inline c key)
  end.

(** Line 120 after the [await]: the entry the lookup completed with is
    assigned to [inlineCache]. *)
Definition settleRequestCache (entry : InlineCache) : M unit :=
  setInlineCache (Some entry).

(** Lines 117-121, the [requestCache] closure over [cache] and
    [inlineCache], for a call that is awaited before anything else
    happens. *)
Definition requestCache (cache : CacheHandler) (key options : value) : M unit :=
  entry ← startRequestCache cache key options;
  settleRequestCache entry.

(** Several calls of the closure made one after the other with none of
    them awaited: each runs up to its [await], so each tests the guard
    before any of them has assigned [inlineCache].  The completions of the
    calls are kept in the order of the calls. *)
Fixpoint startAll (cache : CacheHandler) (requests : list (value * value))
    (w : World) : list (outcome InlineCache) * World :=
  match requests with
  | [] => ([], w)
  | (key, options) :: rest =>
      let (r, w1) := startRequestCache cache key options w in
      let (rs, w2) := startAll cache rest w1 in
      (r :: rs, w2)
  end.

(** The suspended calls resume: each lookup that completed with an entry
    assigns it to [inlineCache], in the order of the calls; a call that
    threw stays rejected. *)
Fixpoint settleAll (pending : list (outcome InlineCache)) (w : World)
    : list (outcome unit) * World :=
  match pending with
  | [] => ([], w)
  | Ok entry :: rest =>
      let (r, w1) := settleRequestCache entry w in
      let (rs, w2) := settleAll rest w1 in
      (r :: rs, w2)
  | Throw e :: rest =>
      let (rs, w2) := settleAll rest w in
      (Throw e :: rs, w2)
  end.

(** Modelled from the spec: calling a capability of [./tasks], which is
    outside [engine.ts].  Section 4.4 has a call produce a task request or,
    in test mode, data, which the handler goes on with; it may suspend on
    the cache backend.  Delivering a response is the responder's part
    (section 4.5) and happens at line 196: a capability call reads the
    responder and leaves it as it is. *)
Definition callTask (fn : TaskFn) (args : value) : M value := fun w =>
  match responder w with
  | None => (Throw (TypeError "responder is not defined"), w)
  | Some r =>
      let (result, s) := fn args r (store w) in
      (result, {| trace := trace w; store := s;
                  inlineCache := inlineCache w; responder := responder w |})
  end.

(** Running a handler program: [cache] is the handle the [requestCache]
    closure clones from, [ctx] the context the handler was given. *)
Fixpoint runHandler (cache : CacheHandler) (ctx : ActionHandlerContext)
    (prog : handlerProg) : M value :=
  match prog with
  | HReturn output => mret output
  | HThrow error => throw error
  | HRequestCache key options k =>
      fun w => let (r, w') := requestCache cache key options w in
               runHandler cache ctx (k r) w'
  | HRequestCacheAll requests k =>
      fun w => let (pending, w1) := startAll cache requests w in
               let (rs, w2) := settleAll pending w1 in
               runHandler cache ctx (k rs) w2
  | HFetch args k =>
      fun w =>
        let fn := createTaskFetch imports (testMode (ctx_fetch ctx))
                    (taskCache (ctx_fetch ctx)) in
        let (r, w') := callTask fn args w in
        runHandler cache ctx (k r) w'
  | HRecaptcha args k =>
      fun w =>
        let fn := createTaskRecaptcha imports (testMode (ctx_recaptcha ctx))
                    (taskCache (ctx_recaptcha ctx)) in
        let (r, w') := callTask fn args w in
        runHandler cache ctx (k r) w'
  end.

(** Lines 124-131. *)
Definition makeRecord (opts : IServerOptions) (addon : BasicAddonClass)
    (action : string) (input : value) : option RecordData :=
  match requestRecorderPath opts with
  | Some path =>
      if String.eqb path "" then None
      else Some {| rec_addon := Some (getId addon); rec_action := Some action;
                   rec_input := Some input; rec_output := None |}
  | None => None
  end.

(** What lines 85-134 establish before the [try] block is entered. *)
Record Prepared : Type := {
  p_handler : ActionHandler;
  p_sigData : value;
  p_migrationCtx : MigrationCtx;
  p_input : value;
  p_cache : CacheHandler
}.

(** Lines 85-134: handler resolution, signature validation, request
    migration, the scoped cache handle, the closure variable and the
    responder.  None of it is inside the [try] block. *)
Definition prepare (p : HandleActionProps) : M Prepared :=
  handler ← (emit (EvGetActionHandler (action p));;
             liftOutcome (getActionHandler (addon p) (action p)));
  sigData ← resolveSigData (addon p) (action p) (sig p);
  let migrationCtx :=
    {| m_addon := addonIdentity (addon p); m_data := VObj "Object" [];
       m_sigData := sigData;
       m_validator := getActionValidator imports (getType (addon p)) (action p) |} in
  '(migrationCtx', input') ← migrateRequest migrationCtx (action p) (input p);
  emit (EvCacheClone (cacheOptions (addon p)));;
  let cache' := clone (cache (opts p)) (cacheOptions (addon p)) in
  setInlineCache None;;
  let record := makeRecord (opts p) (addon p) (action p) input' in
  setResponder (newResponder record (sendResponse p));;
  mret {| p_handler := handler; p_sigData := sigData;
          p_migrationCtx := migrationCtx'; p_input := input'; p_cache := cache' |}.

(** Lines 155-160. *)
Definition raiseDefaultErrors (action : string) (output : value) : M unit :=
  if String.eqb action "resolve" || String.eqb action "captcha" then
    match output with
    | VNull => throw (newError "Nothing found")
    | _ => mret tt
    end
  else mret tt.

(** Lines 140-152: the call of the handler. *)
Definition invoke (p : HandleActionProps) (st : Prepared) : M value :=
  let testMode := replayMode (opts p) || String.eqb (action p) "selftest" in
  let ctx :=
    {| ctx_request := request p; ctx_sig := p_sigData st; ctx_cache := p_cache st;
       ctx_fetch := {| testMode := testMode; taskCache := p_cache st |};
       ctx_recaptcha := {| testMode := testMode; taskCache := p_cache st |} |} in
  emit (EvHandler (p_input st) (p_sigData st));;
  runHandler (p_cache st) ctx
    (p_handler st (p_input st) ctx (addonIdentity (addon p))).

(** Lines 140-167: the handler call, the default errors and the response
    migration. *)
Definition compute (p : HandleActionProps) (st : Prepared) : M value :=
  output ← invoke p st;
  raiseDefaultErrors (action p) output;;
  migrateResponse (p_migrationCtx st) (action p) (p_input st) output.

(** Lines 140-170, the body of the [try] block.  [statusCode] is still 200
    when it completes. *)
Definition attempt (p : HandleActionProps) (st : Prepared) : M (Z * value) :=
  output' ← compute p st;
  ic ← getInlineCache;
  match ic with
  | Some entry => emit (EvInlineSet output');; onStore (inline_set entry output')
  | None => mret tt
  end;;
  mret (200, output').

(** Line 186: [{ error: error.message || error }]. *)
Definition errorPayload (error message : value) : value :=
  VObj "Object" [("error", if truthy message then message else error)].

(** Lines 174-179: the status and output derived from a caught
    [CacheFoundError]. *)
Definition shortCircuit (error : value) : Z * value :=
  match getPropOpt error "result" with
  | VUndefined => (500, VObj "Object" [("error", getPropOpt error "error")])
  | result => (200, result)
  end.

(** Lines 171-189, the [catch] block. *)
Definition recover (error : value) : M (Z * value) :=
  if instanceofCacheFoundError error then mret (shortCircuit error)
  else
    ic ← getInlineCache;
    match ic with
    | Some entry => emit (EvInlineSetError error);; onStore (inline_setError entry error)
    | None => mret tt
    end;;
    message ← liftOutcome (getProp error "message");
    noBacktraceLog ← liftOutcome (getProp error "noBacktraceLog");
    (if truthy noBacktraceLog then mret tt else emit (EvConsoleWarn error));;
    mret (500, errorPayload error message).

(** Lines 192-195. *)
Definition responseType (output : value) : string :=
  if typeofObject output && isTaskRequest (getPropOpt output "kind") then "task"
  else "response".

(** Lines 191-197. *)
Definition respond (statusCode : Z) (output : value) : M unit :=
  let type := responseType output in
  id ← (emit (EvSend type statusCode output);;
        onResponder (fun r => Responder_send r type statusCode output));
  emit (EvSetSendResponse id);;
  onResponder (fun r => (Ok tt, Responder_setSendResponse r id None)).

(** [handleAction], lines 64-198. *)
Definition handleAction (p : HandleActionProps) : M unit :=
  if String.eqb (action p) "task" then
    emit (EvHandleTask (input p));;
    onStore (handleTask imports (cache (opts p)) (addon p) (input p) (sendResponse p))
  else
    st ← prepare p;
    '(statusCode, output) ← tryCatch (attempt p st) recover;
    respond statusCode output.

(** ** Vocabulary of the properties *)

(** Every run of [m] appends events that all pass [P] to the trace and leaves
    the responder as it found it. *)
Definition steps {A : Type} (P : Event -> bool) (m : M A) : Prop :=
  forall w r w', m w = (r, w') ->
    exists evs, trace w' = trace w ++ evs /\ forallb P evs = true /\
                responder w' = responder w.

(** The events a dispatcher phase may emit before the response. *)
Definition beforeResponse (ev : Event) : bool := negb (isSend ev).

(** The events of lines 85-134. *)
Definition isPrepareEvent (ev : Event) : bool :=
  match ev with
  | EvGetActionHandler _ | EvValidateSignature _ | EvMigrationRequest _ _
  | EvValidatorRequest _ | EvCacheClone _ => true
  | _ => false
  end.

(** The events of lines 140-188, the [try] and [catch] blocks. *)
Definition isTryEvent (ev : Event) : bool :=
  match ev with
  | EvHandler _ _ | EvCacheClone _ | EvInline _ | EvMigrationResponse _ _ _
  | EvValidatorResponse _ | EvInlineSet _ | EvInlineSetError _
  | EvConsoleWarn _ => true
  | _ => false
  end.

(** The event line 187 adds. *)
Definition warned (error : value) : list Event :=
  if truthy (getPropOpt error "noBacktraceLog") then [] else [EvConsoleWarn error].

(** Every run of [m] appends events that all pass [P] to the trace. *)
Definition emits {A : Type} (P : Event -> bool) (m : M A) : Prop :=
  forall w r w', m w = (r, w') ->
    exists evs, trace w' = trace w ++ evs /\ forallb P evs = true.

(** The events of line 141: the handler call and what the [requestCache]
    closure does during it. *)
Definition isInvokeEvent (ev : Event) : bool :=
  isHandlerEvent ev || isRequestCacheEvent ev.

(** Calls of an adapter of a migration entry, and calls of a transform of
    the validator. *)
Definition isEntryMigration (ev : Event) : bool :=
  match ev with
  | EvMigrationRequest _ _ | EvMigrationResponse _ _ _ => true
  | _ => false
  end.

Definition isValidatorTransform (ev : Event) : bool :=
  match ev with
  | EvValidatorRequest _ | EvValidatorResponse _ => true
  | _ => false
  end.

(** The transform events an invocation of [action] may show, given what the
    [migrations] table holds for it. *)
Definition migrationChoice (action : string) (ev : Event) : bool :=
  match ev with
  | EvMigrationRequest _ _ =>
      match migrations imports !! action ≫= mig_request with
      | Some _ => true | None => false end
  | EvValidatorRequest _ =>
      match migrations imports !! action ≫= mig_request with
      | Some _ => false | None => true end
  | EvMigrationResponse _ _ _ =>
      match migrations imports !! action ≫= mig_response with
      | Some _ => true | None => false end
  | EvValidatorResponse _ =>
      match migrations imports !! action ≫= mig_response with
      | Some _ => false | None => true end
  | _ => true
  end.

(** The two calls of lines 196-197. *)
Definition responseEvents (statusCode : Z) (output : value) : list Event :=
  [EvSend (responseType output) statusCode output; EvSetSendResponse 0].

End Engine.

Arguments Imports : clear implicits.
Arguments HandleActionProps : clear implicits.
Arguments World : clear implicits.

(** ** An in-memory cache backend *)

Module Memory.

(** Modelled from the spec: the cache classes are defined in [./cache],
    outside [engine.ts].  Section 3 describes an inline entry as [Absent],
    [Found(value)] or [FoundError(errorPayload)]; section 4.3 has [inline]
    hand out an entry when no prior attempt completed and signal the
    short-circuit otherwise, [set] record a success and [setError] a failure;
    section 8 has a replayed failure carry the payload of the first
    response, that is the error's message, or the error itself when it has
    none.  A handle is its option list, and the [prefix] option scopes the
    keys.  Keys other than strings are refused by this backend. *)
Inductive Recorded : Type :=
| Found (v : value)
| FoundError (payload : value).

(** Modelled from the spec: a handle is the configuration it carries
    (section 3). *)
Definition Handle : Type := list (string * value).

(** Modelled from the spec: [clone(overrides)] merges the overrides into a
    new handle and leaves the parent alone (section 3). *)
Definition mem_clone (h : Handle) (overrides : value) : Handle :=
  match overrides with
  | VObj _ props => props ++ h
  | _ => h
  end.

(** Modelled from the spec: entries are scoped by the handle's prefix
    (section 4.3). *)
Definition storageKey (h : Handle) (key : string) : string :=
  match lookupProp "prefix" h with
  | VStr prefix => (prefix ++ ":" ++ key)%string
  | _ => key
  end.

(** Modelled from the spec: [inline(key)] hands out an entry when nothing
    is recorded under the key and signals the short-circuit with a
    [CacheFoundError] otherwise (sections 3 and 4.3). *)
Definition mem_inline (h : Handle) (key : value) (s : gmap string Recorded)
    : outcome string * gmap string Recorded :=
  match key with
  | VStr k =>
      match s !! storageKey h k with
      | None => (Ok (storageKey h k), s)
      | Some (Found v) => (Throw (CacheFoundError v VNull), s)
      | Some (FoundError payload) => (Throw (CacheFoundError VUndefined payload), s)
      end
  | _ => (Throw (newError "Unsupported cache key"), s)
  end.

(** Modelled from the spec: [set(value)] records a success (section 4.3). *)
Definition mem_set (entry : string) (v : value) (s : gmap string Recorded)
    : outcome unit * gmap string Recorded :=
  (Ok tt, <[entry := Found v]> s).

(** Modelled from the spec: [setError(error)] records a failure; what is
    replayed later is the payload of the first response (sections 4.3
    and 8). *)
Definition mem_setError (entry : string) (error : value) (s : gmap string Recorded)
    : outcome unit * gmap string Recorded :=
  let message := getPropOpt error "message" in
  (Ok tt, <[entry := FoundError (if truthy message then message else error)]> s).

(** Modelled from the spec: the in-memory backend as a cache engine. *)
#[export] Instance memoryCache : CacheEngine (gmap string Recorded) Handle string := {
  clone := mem_clone;
  inline := mem_inline;
  inline_set := mem_set;
  inline_setError := mem_setError
}.

End Memory.

(** ** A small addon to run the dispatcher on *)

Module Demo.
Import Memory.

Definition Props : Type := HandleActionProps Handle unit.
Definition W : Type := World (gmap string Recorded) string unit.

(** Uses the dedup capability under the key found in the input, lets any
    failure of the capability through, and answers 42. *)
Definition fetchItem : @ActionHandler Handle :=
  fun input _ _ =>
    HRequestCache (getPropOpt input "key") VUndefined
      (fun r => match r with
                | Ok _ => HReturn (VNum 42)
                | Throw e => HThrow e
                end).

(** Asks for the dedup capability twice. *)
Definition greedy : @ActionHandler Handle :=
  fun input _ _ =>
    HRequestCache (VStr "a") VUndefined
      (fun r => match r with
                | Ok _ =>
                    HRequestCache (VStr "b") VUndefined
                      (fun r' => match r' with
                                 | Ok _ => HReturn (VNum 1)
                                 | Throw e => HThrow e
                                 end)
                | Throw e => HThrow e
                end).

Definition returnsNull : @ActionHandler Handle := fun _ _ _ => HReturn VNull.

Definition returnsTask : @ActionHandler Handle := fun _ _ _ =>
  HReturn (VObj "Object" [("kind", VStr "taskRequest"); ("type", VStr "fetch")]).

Definition fails : @ActionHandler Handle := fun _ _ _ => HThrow (newError "boom").

Definition failsSilently : @ActionHandler Handle := fun _ _ _ =>
  HThrow (SilentError "quiet").

(** Engages the dedup capability, then fails. *)
Definition failsAfterCache : @ActionHandler Handle :=
  fun input _ _ =>
    HRequestCache (getPropOpt input "key") VUndefined
      (fun r => match r with
                | Ok _ => HThrow (newError "boom")
                | Throw e => HThrow e
                end).

(** Starts two calls of the dedup capability before awaiting either, and
    answers with the number of calls that succeeded. *)
Definition overlapping : @ActionHandler Handle :=
  fun _ _ _ =>
    HRequestCacheAll [(VStr "a", VUndefined); (VStr "b", VUndefined)]
      (fun rs => HReturn (VNum (Z.of_nat (length
         (List.filter (fun r => match r with Ok _ => true | Throw _ => false end) rs))))).

(** Awaits the fetch capability and returns what it completed with. *)
Definition fetches : @ActionHandler Handle :=
  fun input _ _ =>
    HFetch input
      (fun r => match r with
                | Ok v => HReturn v
                | Throw e => HThrow e
                end).

Definition demoAddon : @BasicAddonClass Handle := {|
  getId := "demo";
  getType := "worker";
  getActionHandler := fun action =>
    if String.eqb action "fetchItem" then Ok fetchItem
    else if String.eqb action "greedy" then Ok greedy
    else if String.eqb action "resolve" then Ok returnsNull
    else if String.eqb action "item" then Ok returnsNull
    else if String.eqb action "selftest" then Ok returnsNull
    else if String.eqb action "captcha" then Ok returnsTask
    else if String.eqb action "source" then Ok fails
    else if String.eqb action "subtitle" then Ok failsSilently
    else if String.eqb action "directory" then Ok failsAfterCache
    else if String.eqb action "search" then Ok overlapping
    else if String.eqb action "iptv" then Ok fetches
    else Throw (newError "No handler for this action");
  getDefaultCacheOptions := []
|}.

Definition passThrough : Validator :=
  {| v_request := fun input => Ok input; v_response := fun output => Ok output |}.

(** A request adapter that tags the input and leaves a note in the scratch
    data; the entry has no response adapter. *)
Definition tagRequest : @MigrationCtx -> value -> outcome (value * value) :=
  fun _ input => Ok (VObj "Object" [("wire", VNum 1)],
                     VObj "Object" [("migrated", input)]).

(** The capabilities of the demo: in test mode a call completes with data,
    otherwise with a task request for the caller to carry out. *)
Definition taskOf (type : string) : bool -> Handle -> @TaskFn (gmap string Recorded) unit :=
  fun testMode _ args _ s =>
    if testMode then (Ok (VObj "Object" [("status", VNum 200)]), s)
    else (Ok (VObj "Object" [("kind", VStr "taskRequest"); ("type", VStr type);
                             ("payload", args)]), s).

Definition demoImports : Imports (gmap string Recorded) Handle unit := {|
  SKIP_AUTH := None;
  validateSignature := fun sig =>
    if String.eqb sig "good" then Ok (VObj "Object" [("user", VStr "u1")])
    else Throw (newError "Invalid signature");
  getActionValidator := fun _ _ => passThrough;
  migrations := {[ "item" := {| mig_request := Some tagRequest; mig_response := None |} ]};
  handleTask := fun _ _ _ _ s => (Ok tt, s);
  createTaskFetch := taskOf "fetch";
  createTaskRecaptcha := taskOf "recaptcha"
|}.

(** A validator whose response schema has no place for [null]. *)
Definition rejectsNull : Validator :=
  {| v_request := fun input => Ok input;
     v_response := fun output =>
       match output with
       | VNull => Throw (newError "Invalid response")
       | _ => Ok output
       end |}.

(** The imports of the demo with that validator for every action and an
    empty [migrations] table. *)
Definition strictImports : Imports (gmap string Recorded) Handle unit := {|
  SKIP_AUTH := None;
  validateSignature := validateSignature demoImports;
  getActionValidator := fun _ _ => rejectsNull;
  migrations := ∅;
  handleTask := fun _ _ _ _ s => (Ok tt, s);
  createTaskFetch := taskOf "fetch";
  createTaskRecaptcha := taskOf "recaptcha"
|}.

Definition mkProps (action : string) (input : value) (sig : string) : Props := {|
  opts := {| cache := []; requestRecorderPath := None; replayMode := false |};
  addon := demoAddon;
  action := action;
  input := input;
  sig := sig;
  request := VNull;
  sendResponse := tt
|}.

Definition world0 : W :=
  {| trace := []; store := ∅; inlineCache := None; responder := None |}.

Definition keyA : value := VObj "Object" [("key", VStr "A")].

(** A backend in which a success, respectively a failure, is already
    recorded under the key "A" of the demo addon. *)
Definition worldFound : W :=
  {| trace := []; store := {[ "demo:A" := Found (VNum 42) ]};
     inlineCache := None; responder := None |}.

Definition demoCtx : @MigrationCtx :=
  {| m_addon := addonIdentity demoAddon; m_data := VObj "Object" [];
     m_sigData := VNull; m_validator := passThrough |}.

Definition demoCache : Handle := [("prefix", VStr "demo")].

Definition worldFailed : W :=
  {| trace := []; store := {[ "demo:A" := FoundError (VStr "boom") ]};
     inlineCache := None; responder := None |}.

End Demo.

(** ** A cache backend that refuses writes *)

Module ReadOnly.

(** Modelled from the spec: the cache classes are defined in [./cache],
    outside [engine.ts].  Section 5 has [inline], [set] and [setError]
    depend on input and output against the cache backend, so each of them
    may fail.  This backend finds nothing recorded, hands out the key as the
    entry, and fails every write with the same error. *)
Definition refused : value := newError "Cache is read-only".

(** Modelled from the spec: the read-only backend as a cache engine; the
    store counts the writes it refused. *)
#[export] Instance readOnlyCache : CacheEngine nat unit value := {
  clone := fun h _ => h;
  inline := fun _ key s => (Ok key, s);
  inline_set := fun _ _ s => (Throw refused, S s);
  inline_setError := fun _ _ s => (Throw refused, S s)
}.

(** Engages the dedup capability; then fails, or answers 42 when the input
    asks for it. *)
Definition engages : @ActionHandler unit :=
  fun input _ _ =>
    HRequestCache (getPropOpt input "key") VUndefined
      (fun r => match r with
                | Ok _ =>
                    if truthy (getPropOpt input "succeed") then HReturn (VNum 42)
                    else HThrow (newError "boom")
                | Throw e => HThrow e
                end).

Definition roAddon : @BasicAddonClass unit := {|
  getId := "demo";
  getType := "worker";
  getActionHandler := fun _ => Ok engages;
  getDefaultCacheOptions := []
|}.

Definition roImports : Imports nat unit unit := {|
  SKIP_AUTH := Some "1";
  validateSignature := fun _ => Ok VNull;
  getActionValidator := fun _ _ =>
    {| v_request := fun input => Ok input; v_response := fun output => Ok output |};
  migrations := ∅;
  handleTask := fun _ _ _ _ s => (Ok tt, s);
  createTaskFetch := fun _ _ _ _ s => (Ok VNull, s);
  createTaskRecaptcha := fun _ _ _ _ s => (Ok VNull, s)
|}.

Definition roProps (input : value) : HandleActionProps unit unit := {|
  opts := {| cache := tt; requestRecorderPath := None; replayMode := false |};
  addon := roAddon;
  action := "directory";
  input := input;
  sig := "";
  request := VNull;
  sendResponse := tt
|}.

Definition roWorld : World nat value unit :=
  {| trace := []; store := 0%nat; inlineCache := None; responder := None |}.

End ReadOnly.

(** ** Addon initialisation ([initializeAddon], lines 34-49) *)

Section Initialization.

Context {CacheHandler : Type}.

(** The two calls [initializeAddon] makes. *)
Inductive InitEvent : Type :=
| EvValidateAddon
| EvSetupRequestRecorder (path : string).

Definition isSetupRequestRecorder (ev : InitEvent) : bool :=
  match ev with EvSetupRequestRecorder _ => true | _ => false end.

(** What [initializeAddon] reaches outside [engine.ts]: the addon's
    [validateAddon] method, [setupRequestRecorder] of
    [./utils/request-recorder], and the string conversion a template literal
    applies to a number or an object (which runs the value's own
    [toString]). *)
Record InitImports : Type := {
  validateAddon : @BasicAddonClass CacheHandler -> outcome unit;
  setupRequestRecorder : string -> outcome unit;
  renderOther : value -> string
}.

(** The double quote character of the message of line 42. *)
Definition dquote : string := String (Ascii.ascii_of_nat 34) EmptyString.

(** [`${v}`]: the string a template literal puts in place of [v]. *)
Definition templateString (ii : InitImports) (v : value) : string :=
  match v with
  | VStr s => s
  | VUndefined => "undefined"
  | VNull => "null"
  | VBool true => "true"
  | VBool false => "false"
  | other => renderOther ii other
  end.

(** Line 42: the message of the error thrown when validation fails. *)
Definition validationMessage (ii : InitImports) (addon : @BasicAddonClass CacheHandler)
    (message : value) : string :=
  ("Validation of addon " ++ dquote ++ getId addon ++ dquote ++ " failed: "
   ++ templateString ii message)%string.

(** [initializeAddon], lines 34-49: its completion and the calls it made. *)
Definition initializeAddon (ii : InitImports) (opts : @IServerOptions CacheHandler)
    (addon : @BasicAddonClass CacheHandler) : outcome unit * list InitEvent :=
  match validateAddon ii addon with
  | Throw error =>
      match getProp error "message" with
      | Ok message =>
          (Throw (newError (validationMessage ii addon message)), [EvValidateAddon])
      | Throw typeError => (Throw typeError, [EvValidateAddon])
      end
  | Ok _ =>
      match requestRecorderPath opts with
      | Some path =>
          if String.eqb path "" then (Ok tt, [EvValidateAddon])
          else (setupRequestRecorder ii path,
                [EvValidateAddon; EvSetupRequestRecorder path])
      | None => (Ok tt, [EvValidateAddon])
      end
  end.

End Initialization.

(** ** Further vocabulary: the order of the calls *)

(** The place of a call in the body of [handleAction].  The calls of the
    [requestCache] closure have none: they happen whenever the handler asks
    for them, and [cache.clone] is also called by [handleAction] itself. *)
Definition stage (ev : Event) : option nat :=
  match ev with
  | EvHandleTask _ => Some 0%nat
  | EvGetActionHandler _ => Some 1%nat
  | EvValidateSignature _ => Some 2%nat
  | EvMigrationRequest _ _ | EvValidatorRequest _ => Some 3%nat
  | EvHandler _ _ => Some 4%nat
  | EvMigrationResponse _ _ _ | EvValidatorResponse _ => Some 5%nat
  | EvInlineSet _ => Some 6%nat
  | EvInlineSetError _ => Some 7%nat
  | EvConsoleWarn _ => Some 8%nat
  | EvSend _ _ _ => Some 9%nat
  | EvSetSendResponse _ => Some 10%nat
  | EvCacheClone _ | EvInline _ => None
  end.

Definition stages (evs : list Event) : list nat := omap stage evs.

Definition unstaged (ev : Event) : bool :=
  match stage ev with None => true | Some _ => false end.

Definition isGetActionHandler (ev : Event) : bool :=
  match ev with EvGetActionHandler _ => true | _ => false end.

Definition isInlineSet (ev : Event) : bool :=
  match ev with EvInlineSet _ => true | _ => false end.

Definition isInlineSetError (ev : Event) : bool :=
  match ev with EvInlineSetError _ => true | _ => false end.

(** The events other than the calls of [set] and [setError]. *)
Definition unrecorded (ev : Event) : bool := negb (isRecording ev).


(** An output that line 193 classifies as a task. *)
Definition taskShaped (output : value) : Prop :=
  exists cls props, output = VObj cls props /\
                    lookupProp "kind" props = VStr "taskRequest".

Section Coverage.

Context {Store CacheHandler InlineCache SendResponseFn : Type}.
Context `{!CacheEngine Store CacheHandler InlineCache}.

(** Every run of [m] appends events whose stages increase strictly and lie
    in [[lo, hi)]. *)
Definition staged {A : Type} (lo hi : nat)
    (m : @M Store InlineCache SendResponseFn A) : Prop :=
  forall w r w', m w = (r, w') ->
    exists evs, trace w' = trace w ++ evs /\
                StronglySorted lt (stages evs) /\
                Forall (fun n => (lo <= n < hi)%nat) (stages evs).

(** Every run of [m] leaves the closure variable [inlineCache] alone. *)
Definition keepsEntry {A : Type} (m : @M Store InlineCache SendResponseFn A) : Prop :=
  forall w r w', m w = (r, w') -> inlineCache w' = inlineCache w.

(** The world [w] after the calls [evs], with the backend in state [s]. *)
Definition after (w : World Store InlineCache SendResponseFn) (evs : list Event)
    (s : Store) : World Store InlineCache SendResponseFn :=
  {| trace := trace w ++ evs; store := s;
     inlineCache := inlineCache w; responder := responder w |}.

(** A run that completed with a response: beyond [w] it made the calls
    [evs] and then the two calls of lines 196-197 with [statusCode] and
    [output], and it left the backend in state [s]. *)
Definition answered (run : outcome unit * World Store InlineCache SendResponseFn)
    (w : World Store InlineCache SendResponseFn) (evs : list Event) (s : Store)
    (statusCode : Z) (output : value) : Prop :=
  exists r,
    run = (Ok tt, {| trace := trace w ++ evs ++ responseEvents statusCode output;
                     store := s; inlineCache := inlineCache w;
                     responder := Some r |}).

(** Line 186, [{ error: error.message || error }], for an error that is an
    object or a primitive: the message when it is truthy, the thrown value
    itself otherwise. *)
Definition messageOrError (e : value) : value :=
  VObj "Object"
    [("error", if truthy (getPropOpt e "message") then getPropOpt e "message" else e)].

(** How a run ends once its [try] block has failed at [w] with an error [e]:
    [setError] is called when an entry exists; when it throws, its error ends
    the run and nothing is sent; otherwise the error is logged unless it is
    silent, and answered with status 500. *)
Definition failureAnswered (run : outcome unit * World Store InlineCache SendResponseFn)
    (w : World Store InlineCache SendResponseFn) (e : value) : Prop :=
  match inlineCache w with
  | None => answered run w (warned e) (store w) 500 (messageOrError e)
  | Some entry =>
      match inline_setError entry e (store w) with
      | (Ok _, s') =>
          answered run w (EvInlineSetError e :: warned e) s' 500 (messageOrError e)
      | (Throw e2, s') => run = (Throw e2, after w [EvInlineSetError e] s')
      end
  end.

(** How a run ends once lines 140-167 have completed at [w] with the
    transformed [output]: [set] is called when an entry exists; when it
    returns, or when there is no entry, the output is answered with status
    200; when it throws, the [try] block, whose completion is [tried], has
    failed with that error. *)
Definition successAnswered (run : outcome unit * World Store InlineCache SendResponseFn)
    (tried : outcome (Z * value) * World Store InlineCache SendResponseFn)
    (w : World Store InlineCache SendResponseFn) (output : value) : Prop :=
  match inlineCache w with
  | None => answered run w [] (store w) 200 output
  | Some entry =>
      match inline_set entry output (store w) with
      | (Ok _, s') => answered run w [EvInlineSet output] s' 200 output
      | (Throw e2, s') => tried = (Throw e2, after w [EvInlineSet output] s')
      end
  end.

(** The context of lines 143-150, given what lines 85-134 established. *)
Definition handlerContext (p : HandleActionProps CacheHandler SendResponseFn)
    (sigData : value) (scoped : CacheHandler) : ActionHandlerContext :=
  let testMode := replayMode (opts p) || String.eqb (action p) "selftest" in
  {| ctx_request := request p; ctx_sig := sigData; ctx_cache := scoped;
     ctx_fetch := {| testMode := testMode; taskCache := scoped |};
     ctx_recaptcha := {| testMode := testMode; taskCache := scoped |} |}.

(** The context line 97 builds, given the signature data. *)
Definition initialCtx (imports : Imports Store CacheHandler SendResponseFn)
    (p : HandleActionProps CacheHandler SendResponseFn) (sigData : value)
    : MigrationCtx :=
  {| m_addon := addonIdentity (addon p); m_data := VObj "Object" [];
     m_sigData := sigData;
     m_validator := getActionValidator imports (getType (addon p)) (action p) |}.

(** The same invocation with another signature. *)
Definition withSig (p : HandleActionProps CacheHandler SendResponseFn)
    (sig' : string) : HandleActionProps CacheHandler SendResponseFn :=
  {| opts := opts p; addon := addon p; action := action p; input := input p;
     sig := sig'; request := request p; sendResponse := sendResponse p |}.

(** The world an invocation would find if nothing of an earlier invocation
    but the trace and the store were left. *)
Definition withoutLocals (w : World Store InlineCache SendResponseFn)
    : World Store InlineCache SendResponseFn :=
  {| trace := trace w; store := store w; inlineCache := None; responder := None |}.

End Coverage.

(** ** Initialising the demo addon *)

Module DemoInit.
Import Memory Demo.

Definition rejecting : @InitImports Handle := {|
  validateAddon := fun _ => Throw (SilentError "no actions");
  setupRequestRecorder := fun _ => Ok tt;
  renderOther := fun _ => "[object Object]"
|}.

Definition accepting : @InitImports Handle := {|
  validateAddon := fun _ => Ok tt;
  setupRequestRecorder := fun _ => Ok tt;
  renderOther := fun _ => "[object Object]"
|}.

Definition recording : @IServerOptions Handle :=
  {| cache := []; requestRecorderPath := Some "requests.json"; replayMode := false |}.


(** An addon whose handlers all return [undefined]. *)
Definition voidAddon : @BasicAddonClass Handle := {|
  getId := "void";
  getType := "worker";
  getActionHandler := fun _ => Ok (fun _ _ _ => HReturn VUndefined);
  getDefaultCacheOptions := []
|}.

Definition propsOf (a : @BasicAddonClass Handle) (action : string) (input : value)
    (sig : string) : Props := {|
  opts := {| cache := []; requestRecorderPath := None; replayMode := false |};
  addon := a;
  action := action;
  input := input;
  sig := sig;
  request := VNull;
  sendResponse := tt
|}.

Definition recordingProps (action : string) (input : value) (sig : string) : Props := {|
  opts := recording;
  addon := demoAddon;
  action := action;
  input := input;
  sig := sig;
  request := VNull;
  sendResponse := tt
|}.

End DemoInit.

(** * Properties of the dispatcher *)

Section Properties.

Context {Store CacheHandler InlineCache SendResponseFn : Type}.
Context `{!CacheEngine Store CacheHandler InlineCache}.
Variable imports : Imports Store CacheHandler SendResponseFn.

Abbreviation W := (World Store InlineCache SendResponseFn).
Abbreviation Props := (HandleActionProps CacheHandler SendResponseFn).
Abbreviation Run := (@M Store InlineCache SendResponseFn).

Ltac munfold :=
  unfold mbind, M_bind, mret, M_ret, throw, liftOutcome, emit, onStore,
    getInlineCache, setInlineCache, setResponder, onResponder, tryCatch in *.

(** *** Counting calls *)

Lemma calls_app test (t1 t2 : list Event) :
  calls test (t1 ++ t2) = (calls test t1 + calls test t2)%nat.
Proof. unfold calls. rewrite List.filter_app, length_app. reflexivity. Qed.

Lemma calls_none test P (evs : list Event) :
  (forall ev, P ev = true -> test ev = false) ->
  forallb P evs = true -> calls test evs = 0%nat.
Proof.
  intros Hexcl. unfold calls. induction evs as [|ev evs IH]; simpl; [reflexivity|].
  intros [Hev Hevs]%andb_true_iff. rewrite (Hexcl _ Hev). auto.
Qed.

Lemma forallb_weaken (P Q : Event -> bool) evs :
  (forall ev, P ev = true -> Q ev = true) ->
  forallb P evs = true -> forallb Q evs = true.
Proof.
  intros HPQ. induction evs as [|ev evs IH]; simpl; [reflexivity|].
  intros [Hev Hevs]%andb_true_iff. rewrite (HPQ _ Hev). auto.
Qed.

(** *** Composition of phases *)

Lemma steps_ret {A} P (a : A) : steps P (mret a : Run A).
Proof.
  intros w r w' Hrun. injection Hrun as <- <-.
  exists []. rewrite app_nil_r. auto.
Qed.

Lemma steps_throw {A} P e : steps P (throw e : Run A).
Proof.
  intros w r w' Hrun. injection Hrun as <- <-.
  exists []. rewrite app_nil_r. auto.
Qed.

Lemma steps_liftOutcome {A} P (o : outcome A) : steps P (liftOutcome o : Run A).
Proof.
  intros w r w' Hrun. injection Hrun as <- <-.
  exists []. rewrite app_nil_r. auto.
Qed.

Lemma steps_emit P ev : P ev = true -> steps P (emit ev : Run unit).
Proof.
  intros HP w r w' Hrun. injection Hrun as <- <-.
  exists [ev]. simpl. rewrite HP. auto.
Qed.

Lemma steps_onStore {A} P (op : Store -> outcome A * Store) :
  steps P (onStore op : Run A).
Proof.
  intros w r w' Hrun. unfold onStore in Hrun.
  destruct (op (store w)) as [a s]. injection Hrun as <- <-.
  exists []. simpl. rewrite app_nil_r. auto.
Qed.

Lemma steps_getInlineCache P :
  steps P (getInlineCache : Run (option InlineCache)).
Proof.
  intros w r w' Hrun. injection Hrun as <- <-.
  exists []. rewrite app_nil_r. auto.
Qed.

Lemma steps_setInlineCache P ic : steps P (setInlineCache ic : Run unit).
Proof.
  intros w r w' Hrun. injection Hrun as <- <-.
  exists []. simpl. rewrite app_nil_r. auto.
Qed.

Lemma steps_bind {A B} P (m : Run A) (f : A -> Run B) :
  steps P m -> (forall a, steps P (f a)) -> steps P (m ≫= f).
Proof.
  intros Hm Hf w r w' Hrun. munfold.
  destruct (m w) as [[a|e] w1] eqn:Em.
  - destruct (Hm _ _ _ Em) as (evs1 & Ht1 & HP1 & Hr1).
    destruct (Hf a _ _ _ Hrun) as (evs2 & Ht2 & HP2 & Hr2).
    exists (evs1 ++ evs2). rewrite Ht2, Ht1, <- app_assoc, forallb_app, HP1, HP2.
    split; [reflexivity|]. split; [reflexivity|]. congruence.
  - injection Hrun as <- <-. exact (Hm _ _ _ Em).
Qed.

Lemma steps_tryCatch {A} P (body : Run A) (handler : value -> Run A) :
  steps P body -> (forall e, steps P (handler e)) -> steps P (tryCatch body handler).
Proof.
  intros Hm Hf w r w' Hrun. munfold.
  destruct (body w) as [[a|e] w1] eqn:Em.
  - injection Hrun as <- <-. exact (Hm _ _ _ Em).
  - destruct (Hm _ _ _ Em) as (evs1 & Ht1 & HP1 & Hr1).
    destruct (Hf e _ _ _ Hrun) as (evs2 & Ht2 & HP2 & Hr2).
    exists (evs1 ++ evs2). rewrite Ht2, Ht1, <- app_assoc, forallb_app, HP1, HP2.
    split; [reflexivity|]. split; [reflexivity|]. congruence.
Qed.

Lemma steps_weaken {A} (P Q : Event -> bool) (m : Run A) :
  (forall ev, P ev = true -> Q ev = true) -> steps P m -> steps Q m.
Proof.
  intros HPQ Hm w r w' Hrun.
  destruct (Hm _ _ _ Hrun) as (evs & Ht & HP & Hr).
  exists evs. eauto using forallb_weaken.
Qed.

Ltac steps_tac :=
  repeat first
    [ apply steps_ret | apply steps_throw | apply steps_liftOutcome
    | apply steps_onStore | apply steps_getInlineCache
    | apply steps_setInlineCache | (apply steps_emit; reflexivity)
    | apply steps_bind | apply steps_tryCatch
    | match goal with
      | |- steps _ (match ?x with _ => _ end) => destruct x
      | |- forall _, _ => intro
      end ].

(** *** The [requestCache] closure and the handler run *)

Lemma startRequestCache_steps c key options :
  steps isRequestCacheEvent (startRequestCache c key options : Run InlineCache).
Proof. unfold startRequestCache. steps_tac. Qed.

Lemma requestCache_steps c key options :
  steps isRequestCacheEvent (requestCache c key options : Run unit).
Proof.
  unfold requestCache, settleRequestCache.
  apply steps_bind; [apply startRequestCache_steps | steps_tac].
Qed.

Lemma startAll_steps c requests (w w' : W) rs :
  startAll c requests w = (rs, w') ->
  exists evs, trace w' = trace w ++ evs /\ forallb isRequestCacheEvent evs = true /\
              responder w' = responder w.
Proof.
  revert w w' rs. induction requests as [|[key options] rest IH]; simpl; intros w w' rs Hrun.
  - injection Hrun as <- <-. exists []. rewrite app_nil_r. auto.
  - destruct (startRequestCache c key options w) as [r w1] eqn:E1.
    destruct (startAll c rest w1) as [rs' w2] eqn:E2. injection Hrun as <- <-.
    destruct (startRequestCache_steps _ _ _ _ _ _ E1) as (evs1 & Ht1 & HP1 & Hr1).
    destruct (IH _ _ _ E2) as (evs2 & Ht2 & HP2 & Hr2).
    exists (evs1 ++ evs2). rewrite Ht2, Ht1, <- app_assoc, forallb_app, HP1, HP2.
    split; [reflexivity|]. split; [reflexivity|]. congruence.
Qed.

Lemma settleAll_steps pending (w w' : W) rs :
  settleAll pending w = (rs, w') ->
  trace w' = trace w /\ store w' = store w /\ responder w' = responder w.
Proof.
  revert w w' rs. induction pending as [|[entry|e] rest IH]; simpl; intros w w' rs Hrun.
  - injection Hrun as <- <-. auto.
  - destruct (settleAll rest _) as [rs' w2] eqn:E2. injection Hrun as <- <-.
    destruct (IH _ _ _ E2) as (Ht & Hs & Hr). auto.
  - destruct (settleAll rest w) as [rs' w2] eqn:E2. injection Hrun as <- <-.
    exact (IH _ _ _ E2).
Qed.

Lemma callTask_steps P fn args : steps P (callTask fn args : Run value).
Proof.
  intros w r w' Hrun. unfold callTask in Hrun.
  destruct (responder w) as [rsp|] eqn:Er.
  - destruct (fn args rsp (store w)) as [a s]. injection Hrun as <- <-.
    exists []. simpl. rewrite app_nil_r. auto.
  - injection Hrun as <- <-. exists []. rewrite app_nil_r. auto.
Qed.

Lemma runHandler_steps c ctx prog :
  steps isRequestCacheEvent (runHandler imports c ctx prog : Run value).
Proof.
  induction prog as [output|error|key options k IH|requests k IH|args k IH|args k IH];
    simpl.
  - apply steps_ret.
  - apply steps_throw.
  - intros w r w' Hrun.
    destruct (requestCache c key options w) as [o w1] eqn:Erc.
    destruct (requestCache_steps _ _ _ _ _ _ Erc) as (evs1 & Ht1 & HP1 & Hr1).
    destruct (IH o _ _ _ Hrun) as (evs2 & Ht2 & HP2 & Hr2).
    exists (evs1 ++ evs2). rewrite Ht2, Ht1, <- app_assoc, forallb_app, HP1, HP2.
    split; [reflexivity|]. split; [reflexivity|]. congruence.
  - intros w r w' Hrun.
    destruct (startAll c requests w) as [pending w1] eqn:E1.
    destruct (settleAll pending w1) as [rs w2] eqn:E2.
    destruct (startAll_steps _ _ _ _ _ E1) as (evs1 & Ht1 & HP1 & Hr1).
    destruct (settleAll_steps _ _ _ _ E2) as (Ht2 & _ & Hr2).
    destruct (IH rs _ _ _ Hrun) as (evs3 & Ht3 & HP3 & Hr3).
    exists (evs1 ++ evs3). rewrite Ht3, Ht2, Ht1, <- app_assoc, forallb_app, HP1, HP3.
    split; [reflexivity|]. split; [reflexivity|]. congruence.
  - intros w r w' Hrun.
    destruct (callTask _ args w) as [o w1] eqn:Ec.
    destruct (callTask_steps isRequestCacheEvent _ _ _ _ _ Ec) as (evs1 & Ht1 & HP1 & Hr1).
    destruct (IH o _ _ _ Hrun) as (evs2 & Ht2 & HP2 & Hr2).
    exists (evs1 ++ evs2). rewrite Ht2, Ht1, <- app_assoc, forallb_app, HP1, HP2.
    split; [reflexivity|]. split; [reflexivity|]. congruence.
  - intros w r w' Hrun.
    destruct (callTask _ args w) as [o w1] eqn:Ec.
    destruct (callTask_steps isRequestCacheEvent _ _ _ _ _ Ec) as (evs1 & Ht1 & HP1 & Hr1).
    destruct (IH o _ _ _ Hrun) as (evs2 & Ht2 & HP2 & Hr2).
    exists (evs1 ++ evs2). rewrite Ht2, Ht1, <- app_assoc, forallb_app, HP1, HP2.
    split; [reflexivity|]. split; [reflexivity|]. congruence.
Qed.

Lemma requestCache_engaged c key options (w : W) entry :
  inlineCache w = Some entry ->
  requestCache c key options w = (Throw (newError "Request cache is already set up"), w).
Proof.
  intros Hic. unfold requestCache, startRequestCache. munfold. rewrite Hic. reflexivity.
Qed.

(** *** The phases of the pipeline *)

Lemma tryEvent_requestCache ev :
  isRequestCacheEvent ev = true -> isTryEvent ev = true.
Proof. destruct ev; intros Hev; first [reflexivity | discriminate Hev]. Qed.

Lemma tryEvent_beforeResponse ev : isTryEvent ev = true -> beforeResponse ev = true.
Proof. destruct ev; intros Hev; first [reflexivity | discriminate Hev]. Qed.

Lemma tryEvent_not_validate ev :
  isTryEvent ev = true -> isValidateSignature ev = false.
Proof. destruct ev; intros Hev; first [reflexivity | discriminate Hev]. Qed.

Lemma invoke_run p st (w0 w1 : W) r :
  invoke imports p st w0 = (r, w1) ->
  exists hevs,
    trace w1 = trace w0 ++ EvHandler (p_input st) (p_sigData st) :: hevs /\
    forallb isRequestCacheEvent hevs = true /\
    responder w1 = responder w0.
Proof.
  unfold invoke. munfold. intros Hrun.
  destruct (runHandler_steps _ _ _ _ _ _ Hrun) as (hevs & Ht & HP & Hr).
  exists hevs. simpl in Ht, Hr. rewrite Ht, <- app_assoc. auto.
Qed.

Lemma invoke_steps p st : steps isTryEvent (invoke imports p st : Run value).
Proof.
  intros w r w' Hrun. destruct (invoke_run _ _ _ _ _ Hrun) as (hevs & Ht & HP & Hr).
  exists (EvHandler (p_input st) (p_sigData st) :: hevs). simpl.
  eauto using forallb_weaken, tryEvent_requestCache.
Qed.

Lemma raiseDefaultErrors_steps P act output :
  steps P (raiseDefaultErrors act output : Run unit).
Proof. unfold raiseDefaultErrors. steps_tac. Qed.

Lemma migrateResponse_steps ctx act input output :
  steps isResponseMigration (migrateResponse imports ctx act input output : Run value).
Proof. unfold migrateResponse, entryResponse, validatorResponse. steps_tac. Qed.

Lemma migrateRequest_steps ctx act input :
  steps isRequestMigration
    (migrateRequest imports ctx act input : Run (MigrationCtx * value)).
Proof. unfold migrateRequest, entryRequest, validatorRequest. steps_tac. Qed.

Lemma compute_steps p st : steps isTryEvent (compute imports p st : Run value).
Proof.
  unfold compute. apply steps_bind; [apply invoke_steps|]. intros output.
  apply steps_bind; [apply raiseDefaultErrors_steps|]. intros _.
  eapply steps_weaken; [|apply migrateResponse_steps].
  intros ev; destruct ev; intros Hev; first [reflexivity | discriminate Hev].
Qed.

Lemma attempt_steps p st :
  steps isTryEvent (attempt imports p st : Run (Z * value)).
Proof.
  unfold attempt. apply steps_bind; [apply compute_steps|]. steps_tac.
Qed.

Lemma recover_steps error : steps isTryEvent (recover error : Run (Z * value)).
Proof. unfold recover. steps_tac. Qed.

Lemma guarded_steps p st :
  steps isTryEvent (tryCatch (attempt imports p st) recover : Run (Z * value)).
Proof. apply steps_tryCatch; [apply attempt_steps | apply recover_steps]. Qed.

Lemma beforeResponse_calls evs :
  forallb beforeResponse evs = true -> calls isSend evs = 0%nat.
Proof.
  apply calls_none. intros ev. unfold beforeResponse. destruct (isSend ev); simpl; congruence.
Qed.

Lemma bind_inv {A B} (m : Run A) (f : A -> Run B) (w w' : W) r :
  (m ≫= f) w = (r, w') ->
  (exists a w1, m w = (Ok a, w1) /\ f a w1 = (r, w')) \/
  (exists e, m w = (Throw e, w') /\ r = Throw e).
Proof.
  munfold. destruct (m w) as [[a|e] w1]; intros Hrun.
  - left. eauto.
  - right. injection Hrun as <- <-. eauto.
Qed.

Lemma prepare_events ev : isPrepareEvent ev = true -> beforeResponse ev = true.
Proof. destruct ev; intros Hev; first [reflexivity | discriminate Hev]. Qed.

Lemma resolveSigData_steps a act sg :
  steps isPrepareEvent (resolveSigData imports a act sg : Run value).
Proof. unfold resolveSigData. steps_tac. Qed.

Lemma migrateRequest_prepare ctx act input :
  steps isPrepareEvent
    (migrateRequest imports ctx act input : Run (MigrationCtx * value)).
Proof. unfold migrateRequest, entryRequest, validatorRequest. steps_tac. Qed.

Lemma prepare_run p (w w0 : W) r :
  prepare imports p w = (r, w0) ->
  exists evs,
    trace w0 = trace w ++ evs /\ forallb isPrepareEvent evs = true /\
    match r with
    | Ok st =>
        responder w0 =
          Some (newResponder (makeRecord (opts p) (addon p) (action p) (p_input st))
                             (sendResponse p)) /\
        inlineCache w0 = None
    | Throw _ => True
    end.
Proof.
  unfold prepare. intros Hrun.
  apply bind_inv in Hrun as [(handler & w1 & E1 & Hrun)|(e & E1 & ->)].
  2:{ assert (S1 : steps isPrepareEvent
         (emit (EvGetActionHandler (action p));;
          liftOutcome (getActionHandler (addon p) (action p)) : Run ActionHandler))
        by steps_tac.
      destruct (S1 _ _ _ E1) as (evs1 & Ht1 & HP1 & _). eauto. }
  assert (S1 : steps isPrepareEvent
     (emit (EvGetActionHandler (action p));;
      liftOutcome (getActionHandler (addon p) (action p)) : Run ActionHandler))
    by steps_tac.
  destruct (S1 _ _ _ E1) as (evs1 & Ht1 & HP1 & _).
  apply bind_inv in Hrun as [(sigData & w2 & E2 & Hrun)|(e & E2 & ->)].
  2:{ destruct (resolveSigData_steps _ _ _ _ _ _ E2) as (evs2 & Ht2 & HP2 & _).
      exists (evs1 ++ evs2). rewrite Ht2, Ht1, <- app_assoc, forallb_app, HP1, HP2. auto. }
  destruct (resolveSigData_steps _ _ _ _ _ _ E2) as (evs2 & Ht2 & HP2 & _).
  apply bind_inv in Hrun as [([ctx' input'] & w3 & E3 & Hrun)|(e & E3 & ->)].
  2:{ destruct (migrateRequest_prepare _ _ _ _ _ _ E3) as (evs3 & Ht3 & HP3 & _).
      exists (evs1 ++ evs2 ++ evs3).
      rewrite Ht3, Ht2, Ht1, <- !app_assoc, !forallb_app, HP1, HP2, HP3. auto. }
  destruct (migrateRequest_prepare _ _ _ _ _ _ E3) as (evs3 & Ht3 & HP3 & _).
  munfold. simpl in Hrun. injection Hrun as <- <-. simpl.
  exists (evs1 ++ evs2 ++ evs3 ++ [EvCacheClone (cacheOptions (addon p))]).
  rewrite Ht3, Ht2, Ht1, <- !app_assoc, !forallb_app, HP1, HP2, HP3. auto.
Qed.

(** *** The response *)

Lemma closed_rejects (r : @Responder SendResponseFn) type statusCode output :
  closed r = true ->
  Responder_send r type statusCode output =
    (Throw (newError "Response was already sent"), r).
Proof. intros Hc. unfold Responder_send. rewrite Hc. reflexivity. Qed.

Lemma respond_run (w : W) record fn statusCode output :
  responder w = Some (newResponder record fn) ->
  exists r,
    respond statusCode output w =
      (Ok tt, {| trace := trace w ++ responseEvents statusCode output;
                 store := store w; inlineCache := inlineCache w;
                 responder := Some r |}) /\
    closed r = true.
Proof.
  intros Hr. unfold respond. munfold. simpl. rewrite Hr. simpl.
  rewrite <- app_assoc. simpl. eauto.
Qed.

(** *** The pipeline as a whole *)

Lemma handleAction_pipeline p (w : W) :
  action p <> "task" ->
  handleAction imports p w =
    match prepare imports p w with
    | (Ok st, w0) =>
        match tryCatch (attempt imports p st) recover w0 with
        | (Ok (statusCode, output), w1) => respond statusCode output w1
        | (Throw e, w1) => (Throw e, w1)
        end
    | (Throw e, w0) => (Throw e, w0)
    end.
Proof.
  intros Hact. unfold handleAction.
  destruct (String.eqb_spec (action p) "task") as [|_]; [contradiction|].
  unfold mbind, M_bind.
  destruct (prepare imports p w) as [[st|e] w0]; [|reflexivity].
  destruct (tryCatch (attempt imports p st) recover w0) as [[[statusCode output]|e] w1];
    reflexivity.
Qed.

(** A failure of lines 85-107 leaves [handleAction] as it was thrown, and
    nothing has been sent by then. *)
Lemma prepare_failure p (w w0 : W) e :
  action p <> "task" ->
  prepare imports p w = (Throw e, w0) ->
  handleAction imports p w = (Throw e, w0) /\
  exists evs, trace w0 = trace w ++ evs /\ calls isSend evs = 0%nat /\
              calls isHandlerEvent evs = 0%nat.
Proof.
  intros Hact Hprep. rewrite handleAction_pipeline, Hprep by assumption.
  split; [reflexivity|].
  destruct (prepare_run _ _ _ _ Hprep) as (evs & Ht & HP & _).
  exists evs. split; [assumption|]. split.
  - apply beforeResponse_calls. eauto using forallb_weaken, prepare_events.
  - eapply calls_none; [|exact HP].
    intros ev; destruct ev; intros Hev; first [reflexivity | discriminate Hev].
Qed.

(** Once lines 85-134 are through, a completed [try]/[catch] is followed by
    exactly the two calls of lines 196-197. *)
Lemma guarded_response p (w w0 w1 : W) st statusCode output :
  action p <> "task" ->
  prepare imports p w = (Ok st, w0) ->
  tryCatch (attempt imports p st) recover w0 = (Ok (statusCode, output), w1) ->
  exists r,
    handleAction imports p w =
      (Ok tt, {| trace := trace w1 ++ responseEvents statusCode output;
                 store := store w1; inlineCache := inlineCache w1;
                 responder := Some r |}) /\
    closed r = true.
Proof.
  intros Hact Hprep Hguard. rewrite handleAction_pipeline, Hprep, Hguard by assumption.
  destruct (prepare_run _ _ _ _ Hprep) as (_ & _ & _ & Hr0 & _).
  destruct (guarded_steps _ _ _ _ _ Hguard) as (_ & _ & _ & Hr1).
  eapply respond_run. rewrite Hr1. exact Hr0.
Qed.

(** *** The [try] and [catch] blocks, case by case *)

Lemma getProp_object e name :
  nullish e = false -> getProp e name = Ok (getPropOpt e name).
Proof. destruct e; simpl; intros Hn; first [discriminate Hn | reflexivity]. Qed.

Lemma recover_shortCircuit e (w : W) :
  instanceofCacheFoundError e = true -> recover e w = (Ok (shortCircuit e), w).
Proof. intros Hcfe. unfold recover. rewrite Hcfe. reflexivity. Qed.

Lemma attempt_fails p st (w0 w1 : W) e :
  compute imports p st w0 = (Throw e, w1) ->
  attempt imports p st w0 = (Throw e, w1).
Proof. intros Hc. unfold attempt. munfold. rewrite Hc. reflexivity. Qed.

Lemma compute_fails p st (w0 w1 : W) e :
  invoke imports p st w0 = (Throw e, w1) ->
  compute imports p st w0 = (Throw e, w1).
Proof. intros Hi. unfold compute. munfold. rewrite Hi. reflexivity. Qed.

Lemma caught p st (w0 w1 : W) e :
  attempt imports p st w0 = (Throw e, w1) ->
  tryCatch (attempt imports p st) recover w0 = recover e w1.
Proof. intros Ha. unfold tryCatch. rewrite Ha. reflexivity. Qed.

Lemma completed p st (w0 w1 : W) res :
  attempt imports p st w0 = (Ok res, w1) ->
  tryCatch (attempt imports p st) recover w0 = (Ok res, w1).
Proof. intros Ha. unfold tryCatch. rewrite Ha. reflexivity. Qed.

Lemma compute_promotes_null p st (w0 w1 : W) :
  invoke imports p st w0 = (Ok VNull, w1) ->
  action p = "resolve" \/ action p = "captcha" ->
  compute imports p st w0 = (Throw (newError "Nothing found"), w1).
Proof.
  intros Hi Hact. unfold compute, raiseDefaultErrors. munfold. rewrite Hi.
  destruct Hact as [-> | ->]; reflexivity.
Qed.

(** The events from the start of the invocation to the end of the [try] and
    [catch] blocks contain no response. *)
Lemma nothing_sent_yet p st (w w0 w1 : W) :
  prepare imports p w = (Ok st, w0) ->
  (exists evs, trace w1 = trace w0 ++ evs /\ forallb isTryEvent evs = true) ->
  exists pre, trace w1 = trace w ++ pre /\ calls isSend pre = 0%nat.
Proof.
  intros Hprep (evs & Ht & HP).
  destruct (prepare_run _ _ _ _ Hprep) as (pevs & Htp & HPp & _).
  exists (pevs ++ evs). rewrite Ht, Htp, <- app_assoc, calls_app.
  split; [reflexivity|].
  rewrite !beforeResponse_calls;
    eauto using forallb_weaken, prepare_events, tryEvent_beforeResponse.
Qed.

Lemma guarded_one_send p st (w w0 w1 : W) statusCode output :
  action p <> "task" ->
  prepare imports p w = (Ok st, w0) ->
  tryCatch (attempt imports p st) recover w0 = (Ok (statusCode, output), w1) ->
  exists w2 evs r,
    handleAction imports p w = (Ok tt, w2) /\
    trace w2 = trace w ++ evs /\
    calls isSend evs = 1%nat /\
    responder w2 = Some r /\ closed r = true.
Proof.
  intros Hact Hprep Hguard.
  destruct (guarded_response _ _ _ _ _ _ _ Hact Hprep Hguard) as (r & Hrun & Hclosed).
  destruct (guarded_steps _ _ _ _ _ Hguard) as (gevs & Htg & HPg & _).
  destruct (nothing_sent_yet p st w w0 w1 Hprep) as (pre & Htpre & Hpre); [eauto|].
  eexists _, (pre ++ responseEvents statusCode output), r.
  split; [exact Hrun|]. simpl.
  rewrite Htpre, <- app_assoc, calls_app, Hpre. auto.
Qed.

Lemma requestMigration_not_validate evs :
  forallb isRequestMigration evs = true -> calls isValidateSignature evs = 0%nat.
Proof.
  apply calls_none. intros ev; destruct ev; intros Hev; first [reflexivity | discriminate Hev].
Qed.

(** Lines 85-94 in detail, for an action whose handler resolves. *)
Lemma prepare_signature p (w : W) h :
  getActionHandler (addon p) (action p) = Ok h ->
  exists r w0 rest,
    prepare imports p w = (r, w0) /\
    trace w0 = trace w ++ EvGetActionHandler (action p) ::
                 (if authExempt imports (addon p) (action p) then []
                  else [EvValidateSignature (sig p)]) ++ rest /\
    calls isValidateSignature rest = 0%nat /\
    match r with
    | Ok st =>
        if authExempt imports (addon p) (action p) then p_sigData st = VNull
        else validateSignature imports (sig p) = Ok (p_sigData st)
    | Throw e =>
        authExempt imports (addon p) (action p) = false ->
        forall e', validateSignature imports (sig p) = Throw e' -> e = e' /\ rest = []
    end.
Proof.
  intros Hh. unfold prepare, resolveSigData. munfold. simpl. rewrite Hh. simpl.
  destruct (authExempt imports (addon p) (action p)) eqn:Hex; simpl.
  - match goal with
    | |- context [migrateRequest imports ?c ?a ?i ?w1] =>
        destruct (migrateRequest imports c a i w1) as [[[ctx' input']|e] w3] eqn:E3;
        destruct (migrateRequest_steps _ _ _ _ _ _ E3) as (evs3 & Ht3 & HP3 & _);
        simpl in Ht3
    end.
    + eexists _, _, (evs3 ++ [EvCacheClone (cacheOptions (addon p))]).
      split; [reflexivity|]. simpl. rewrite Ht3, <- !app_assoc. simpl.
      split; [reflexivity|]. split; [|reflexivity].
      rewrite calls_app, requestMigration_not_validate by assumption. reflexivity.
    + eexists _, _, evs3. split; [reflexivity|]. simpl. rewrite Ht3, <- !app_assoc. simpl.
      split; [reflexivity|]. split; [|discriminate].
      apply requestMigration_not_validate; assumption.
  - destruct (validateSignature imports (sig p)) as [sigData|e] eqn:Hsig; simpl.
    + match goal with
      | |- context [migrateRequest imports ?c ?a ?i ?w1] =>
          destruct (migrateRequest imports c a i w1) as [[[ctx' input']|e] w3] eqn:E3;
          destruct (migrateRequest_steps _ _ _ _ _ _ E3) as (evs3 & Ht3 & HP3 & _);
          simpl in Ht3
      end.
      * eexists _, _, (evs3 ++ [EvCacheClone (cacheOptions (addon p))]).
        split; [reflexivity|]. simpl. rewrite Ht3, <- !app_assoc. simpl.
        split; [reflexivity|]. split; [|reflexivity].
        rewrite calls_app, requestMigration_not_validate by assumption. reflexivity.
      * eexists _, _, evs3. split; [reflexivity|]. simpl. rewrite Ht3, <- !app_assoc. simpl.
        split; [reflexivity|]. split; [|discriminate].
        apply requestMigration_not_validate; assumption.
    + eexists _, _, []. split; [reflexivity|]. simpl. rewrite <- !app_assoc. simpl.
      split; [reflexivity|]. split; [reflexivity|].
      intros _ e' He'. injection He' as <-. auto.
Qed.

Lemma authExempt_spec a act :
  authExempt imports a act = true <->
  (SKIP_AUTH imports = Some "1" \/ act = "selftest" \/ act = "addon" \/
   (getType a = "repository" /\ act = "repository")).
Proof.
  unfold authExempt. rewrite !orb_true_iff, andb_true_iff, !String.eqb_eq.
  split.
  - intros [[[Hskip|Hs]|Ha]|Hr]; auto.
    destruct (SKIP_AUTH imports) as [flag|]; [|discriminate Hskip].
    apply String.eqb_eq in Hskip. subst flag. auto.
  - intros [Hskip|[Hs|[Ha|Hr]]]; auto.
    rewrite Hskip. auto.
Qed.

(** *** Which transforms an invocation calls *)

Lemma emits_of_steps {A} P (m : Run A) : steps P m -> emits P m.
Proof.
  intros Hm w r w' Hrun. destruct (Hm _ _ _ Hrun) as (evs & Ht & HP & _). eauto.
Qed.

Lemma emits_bind {A B} P (m : Run A) (f : A -> Run B) :
  emits P m -> (forall a, emits P (f a)) -> emits P (m ≫= f).
Proof.
  intros Hm Hf w r w' Hrun.
  apply bind_inv in Hrun as [(a & w1 & Em & Hrun)|(e & Em & ->)].
  - destruct (Hm _ _ _ Em) as (evs1 & Ht1 & HP1).
    destruct (Hf a _ _ _ Hrun) as (evs2 & Ht2 & HP2).
    exists (evs1 ++ evs2). rewrite Ht2, Ht1, <- app_assoc, forallb_app, HP1, HP2. auto.
  - exact (Hm _ _ _ Em).
Qed.

Lemma emits_setResponder P r : emits P (setResponder r : Run unit).
Proof.
  intros w o w' Hrun. injection Hrun as <- <-.
  exists []. simpl. rewrite app_nil_r. auto.
Qed.

Lemma emits_onResponder {A} P (op : Responder -> outcome A * Responder) :
  emits P (onResponder op : Run A).
Proof.
  intros w o w' Hrun. unfold onResponder in Hrun.
  destruct (responder w) as [r|].
  - destruct (op r) as [a r']. injection Hrun as <- <-.
    exists []. simpl. rewrite app_nil_r. auto.
  - injection Hrun as <- <-. exists []. rewrite app_nil_r. auto.
Qed.

Lemma invoke_events p st : steps isInvokeEvent (invoke imports p st : Run value).
Proof.
  intros w r w' Hrun. destruct (invoke_run _ _ _ _ _ Hrun) as (hevs & Ht & HP & Hr).
  exists (EvHandler (p_input st) (p_sigData st) :: hevs). simpl.
  split; [assumption|]. split; [|assumption].
  eapply forallb_weaken; [|exact HP].
  intros ev Hev. unfold isInvokeEvent. rewrite Hev. apply orb_true_r.
Qed.

Lemma migrationChoice_invoke act ev :
  isInvokeEvent ev = true -> migrationChoice imports act ev = true.
Proof. destruct ev; intros Hev; first [reflexivity | discriminate Hev]. Qed.

Lemma migrateRequest_choice ctx act input :
  steps (migrationChoice imports act)
    (migrateRequest imports ctx act input : Run (MigrationCtx * value)).
Proof.
  unfold migrateRequest, entryRequest, validatorRequest, migrationChoice. steps_tac.
Qed.

Lemma migrateResponse_choice ctx act input output :
  steps (migrationChoice imports act)
    (migrateResponse imports ctx act input output : Run value).
Proof.
  unfold migrateResponse, entryResponse, validatorResponse, migrationChoice. steps_tac.
Qed.

Lemma guarded_choice p st :
  steps (migrationChoice imports (action p))
    (tryCatch (attempt imports p st) recover : Run (Z * value)).
Proof.
  apply steps_tryCatch.
  - unfold attempt, compute.
    apply steps_bind.
    { apply steps_bind.
      - eapply steps_weaken; [apply migrationChoice_invoke | apply invoke_events].
      - intros output. apply steps_bind; [apply raiseDefaultErrors_steps|].
        intros _. apply migrateResponse_choice. }
    steps_tac.
  - intros e. unfold recover. steps_tac.
Qed.

Lemma handleAction_choice p :
  emits (migrationChoice imports (action p)) (handleAction imports p : Run unit).
Proof.
  unfold handleAction. destruct (String.eqb (action p) "task").
  - apply emits_of_steps. steps_tac.
  - apply emits_bind.
    { unfold prepare, resolveSigData.
      apply emits_bind; [apply emits_of_steps; steps_tac|]. intros handler.
      apply emits_bind; [apply emits_of_steps; steps_tac|]. intros sigData.
      apply emits_bind; [apply emits_of_steps, migrateRequest_choice|].
      intros [ctx' input'].
      apply emits_bind; [apply emits_of_steps; steps_tac|]. intros _.
      apply emits_bind; [apply emits_of_steps; steps_tac|]. intros _.
      apply emits_bind; [apply emits_setResponder|]. intros _.
      apply emits_of_steps; steps_tac. }
    intros st. apply emits_bind; [apply emits_of_steps, guarded_choice|].
    intros [statusCode output]. unfold respond.
    apply emits_bind.
    { apply emits_bind; [apply emits_of_steps; steps_tac | intros _; apply emits_onResponder]. }
    intros id. apply emits_bind; [apply emits_of_steps; steps_tac|].
    intros _. apply emits_onResponder.
Qed.

(** *** What lines 85-134 hand to the [try] block *)

Lemma prepare_inv p (w w0 : W) st :
  prepare imports p w = (Ok st, w0) ->
  getActionHandler (addon p) (action p) = Ok (p_handler st) /\
  match migrations imports !! action p ≫= mig_request with
  | Some adapt =>
      exists data,
        adapt (initialCtx imports p (p_sigData st)) (input p) = Ok (data, p_input st) /\
        p_migrationCtx st = withData (initialCtx imports p (p_sigData st)) data
  | None =>
      v_request (getActionValidator imports (getType (addon p)) (action p)) (input p)
        = Ok (p_input st) /\
      p_migrationCtx st = initialCtx imports p (p_sigData st)
  end /\
  p_cache st = clone (cache (opts p)) (cacheOptions (addon p)) /\
  store w0 = store w.
Proof.
  intros Hrun.
  unfold prepare, resolveSigData, migrateRequest, entryRequest, validatorRequest in Hrun.
  destruct (migrations imports !! action p ≫= mig_request) as [adapt|];
    munfold; simpl in Hrun;
    (destruct (getActionHandler (addon p) (action p)) as [h|] eqn:Hh;
       [|discriminate Hrun]);
    simpl in Hrun;
    (destruct (authExempt imports (addon p) (action p)); simpl in Hrun;
       [|destruct (validateSignature imports (sig p)) as [sigData|]; simpl in Hrun;
         [|discriminate Hrun]]).
  - match type of Hrun with
    | context [adapt ?c ?i] => destruct (adapt c i) as [[data input']|] eqn:Ha
    end; simpl in Hrun; [|discriminate Hrun].
    injection Hrun as <- <-. simpl. unfold initialCtx. eauto 10.
  - match type of Hrun with
    | context [adapt ?c ?i] => destruct (adapt c i) as [[data input']|] eqn:Ha
    end; simpl in Hrun; [|discriminate Hrun].
    injection Hrun as <- <-. simpl. unfold initialCtx. eauto 10.
  - match type of Hrun with
    | context [v_request ?v ?i] => destruct (v_request v i) as [input'|] eqn:Hv
    end; simpl in Hrun; [|discriminate Hrun].
    injection Hrun as <- <-. simpl. unfold initialCtx. auto.
  - match type of Hrun with
    | context [v_request ?v ?i] => destruct (v_request v i) as [input'|] eqn:Hv
    end; simpl in Hrun; [|discriminate Hrun].
    injection Hrun as <- <-. simpl. unfold initialCtx. auto.
Qed.

(** *** The [try] and [catch] blocks for each completion of the backend *)

Lemma recover_without_entry e (w : W) :
  inlineCache w = None ->
  instanceofCacheFoundError e = false -> nullish e = false ->
  recover e w =
    (Ok (500, errorPayload e (getPropOpt e "message")),
     {| trace := trace w ++ warned e; store := store w;
        inlineCache := None; responder := responder w |}).
Proof.
  intros Hic Hcfe Hobj. unfold recover, warned. rewrite Hcfe. munfold.
  rewrite Hic, !(getProp_object _ _ Hobj).
  destruct (truthy (getPropOpt e "noBacktraceLog")); simpl;
    rewrite ?app_nil_r; destruct w; simpl in *; subst; reflexivity.
Qed.

Lemma recover_recorded e (w : W) entry u s' :
  instanceofCacheFoundError e = false -> nullish e = false ->
  inlineCache w = Some entry ->
  inline_setError entry e (store w) = (Ok u, s') ->
  recover e w =
    (Ok (500, errorPayload e (getPropOpt e "message")),
     after w (EvInlineSetError e :: warned e) s').
Proof.
  intros Hcfe Hobj Hic Hset. unfold recover, warned, after. rewrite Hcfe. munfold.
  rewrite !(getProp_object _ _ Hobj).
  destruct w as [t s ic rsp]; simpl in *; subst ic; simpl. rewrite Hset.
  destruct (truthy (getPropOpt e "noBacktraceLog")); simpl;
    rewrite <- ?app_assoc; reflexivity.
Qed.

Lemma recover_unrecordable e (w : W) entry e2 s' :
  instanceofCacheFoundError e = false ->
  inlineCache w = Some entry ->
  inline_setError entry e (store w) = (Throw e2, s') ->
  recover e w = (Throw e2, after w [EvInlineSetError e] s').
Proof.
  intros Hcfe Hic Hset. unfold recover, after. rewrite Hcfe. munfold.
  destruct w as [t s ic rsp]; simpl in *; subst ic; simpl. rewrite Hset. reflexivity.
Qed.

Lemma recover_nullish_recorded e (w : W) entry u s' :
  nullish e = true ->
  inlineCache w = Some entry ->
  inline_setError entry e (store w) = (Ok u, s') ->
  recover e w =
    (Throw (TypeError "Cannot read properties of null or undefined"),
     after w [EvInlineSetError e] s').
Proof.
  intros Hn Hic Hset. unfold recover, after.
  assert (Hcfe : instanceofCacheFoundError e = false)
    by (destruct e; try discriminate Hn; reflexivity).
  assert (Hmsg : getProp e "message" =
                 Throw (TypeError "Cannot read properties of null or undefined"))
    by (destruct e; try discriminate Hn; reflexivity).
  rewrite Hcfe. munfold. rewrite Hmsg.
  destruct w as [t s ic rsp]; simpl in *; subst ic; simpl. rewrite Hset. reflexivity.
Qed.

Lemma recover_throws e (w : W) :
  instanceofCacheFoundError e = false ->
  (nullish e = true \/
   exists entry e2 s', inlineCache w = Some entry /\
                       inline_setError entry e (store w) = (Throw e2, s')) ->
  exists e' w', recover e w = (Throw e', w').
Proof.
  intros Hcfe [Hn|(entry & e2 & s' & Hic & Hset)].
  - assert (Hmsg : getProp e "message" =
                   Throw (TypeError "Cannot read properties of null or undefined"))
      by (destruct e; try discriminate Hn; reflexivity).
    destruct (inlineCache w) as [entry|] eqn:Hic.
    + destruct (inline_setError entry e (store w)) as [[u|e2] s'] eqn:Hset.
      * rewrite (recover_nullish_recorded _ _ _ _ _ Hn Hic Hset). eauto.
      * rewrite (recover_unrecordable _ _ _ _ _ Hcfe Hic Hset). eauto.
    + unfold recover. rewrite Hcfe. munfold. rewrite Hic, Hmsg. eauto.
  - rewrite (recover_unrecordable _ _ _ _ _ Hcfe Hic Hset). eauto.
Qed.

Lemma attempt_without_entry p st (w0 w1 : W) output :
  compute imports p st w0 = (Ok output, w1) -> inlineCache w1 = None ->
  attempt imports p st w0 = (Ok (200, output), w1).
Proof.
  intros Hc Hic. unfold attempt. munfold. rewrite Hc, Hic. reflexivity.
Qed.

Lemma attempt_recorded p st (w0 w1 : W) output entry u s' :
  compute imports p st w0 = (Ok output, w1) -> inlineCache w1 = Some entry ->
  inline_set entry output (store w1) = (Ok u, s') ->
  attempt imports p st w0 = (Ok (200, output), after w1 [EvInlineSet output] s').
Proof.
  intros Hc Hic Hset. unfold attempt, after. munfold. rewrite Hc, Hic. simpl.
  rewrite Hset, Hic. reflexivity.
Qed.

Lemma attempt_unrecordable p st (w0 w1 : W) output entry e2 s' :
  compute imports p st w0 = (Ok output, w1) -> inlineCache w1 = Some entry ->
  inline_set entry output (store w1) = (Throw e2, s') ->
  attempt imports p st w0 = (Throw e2, after w1 [EvInlineSet output] s').
Proof.
  intros Hc Hic Hset. unfold attempt, after. munfold. rewrite Hc, Hic. simpl.
  rewrite Hset, Hic. reflexivity.
Qed.

Lemma errorPayload_message e :
  errorPayload e (getPropOpt e "message") = messageOrError e.
Proof. reflexivity. Qed.

Lemma guarded_answered p (w w0 w1 : W) st statusCode output evs s :
  action p <> "task" ->
  prepare imports p w = (Ok st, w0) ->
  tryCatch (attempt imports p st) recover w0 = (Ok (statusCode, output), after w1 evs s) ->
  answered (handleAction imports p w) w1 evs s statusCode output.
Proof.
  intros Hact Hprep Hguard.
  destruct (guarded_response _ _ _ _ _ _ _ Hact Hprep Hguard) as (r & Hrun & _).
  exists r. rewrite Hrun. unfold after. simpl. rewrite <- app_assoc. reflexivity.
Qed.

Lemma guarded_thrown p (w w0 w1 : W) st e :
  action p <> "task" ->
  prepare imports p w = (Ok st, w0) ->
  tryCatch (attempt imports p st) recover w0 = (Throw e, w1) ->
  handleAction imports p w = (Throw e, w1).
Proof.
  intros Hact Hprep Hguard. rewrite handleAction_pipeline, Hprep, Hguard by assumption.
  reflexivity.
Qed.

Lemma after_nothing (w : W) : after w [] (store w) = w.
Proof. unfold after. rewrite app_nil_r. destruct w; reflexivity. Qed.

(** A failure of the [try] block, whatever the backend does with it. *)
Lemma failure_outcome p st (w w0 w1 : W) e :
  action p <> "task" ->
  prepare imports p w = (Ok st, w0) ->
  attempt imports p st w0 = (Throw e, w1) ->
  instanceofCacheFoundError e = false -> nullish e = false ->
  failureAnswered (handleAction imports p w) w1 e.
Proof.
  intros Hact Hprep Hatt Hcfe Hobj. unfold failureAnswered.
  destruct (inlineCache w1) as [entry|] eqn:Hic.
  - destruct (inline_setError entry e (store w1)) as [[u|e2] s'] eqn:Hset.
    + apply guarded_answered with (w0 := w0) (st := st); try assumption.
      rewrite (caught _ _ _ _ _ Hatt), <- errorPayload_message.
      exact (recover_recorded _ _ _ _ _ Hcfe Hobj Hic Hset).
    + apply guarded_thrown with (w0 := w0) (st := st); try assumption.
      rewrite (caught _ _ _ _ _ Hatt).
      exact (recover_unrecordable _ _ _ _ _ Hcfe Hic Hset).
  - apply guarded_answered with (w0 := w0) (st := st); try assumption.
    rewrite (caught _ _ _ _ _ Hatt), <- errorPayload_message.
    rewrite (recover_without_entry _ _ Hic Hcfe Hobj). unfold after.
    rewrite Hic. reflexivity.
Qed.

(** The completion of lines 140-167, whatever the backend does with it. *)
Lemma success_outcome p st (w w0 w1 : W) output :
  action p <> "task" ->
  prepare imports p w = (Ok st, w0) ->
  compute imports p st w0 = (Ok output, w1) ->
  successAnswered (handleAction imports p w) (attempt imports p st w0) w1 output.
Proof.
  intros Hact Hprep Hc. unfold successAnswered.
  destruct (inlineCache w1) as [entry|] eqn:Hic.
  - destruct (inline_set entry output (store w1)) as [[u|e2] s'] eqn:Hset.
    + apply guarded_answered with (w0 := w0) (st := st); try assumption.
      apply completed. exact (attempt_recorded _ _ _ _ _ _ _ _ Hc Hic Hset).
    + exact (attempt_unrecordable _ _ _ _ _ _ _ _ Hc Hic Hset).
  - apply guarded_answered with (w0 := w0) (st := st); try assumption.
    apply completed. rewrite after_nothing.
    exact (attempt_without_entry _ _ _ _ _ Hc Hic).
Qed.

(** Lines 154-167 for a handler result that the default errors let through:
    the response transform is the adapter of the action's entry when it has
    one and the validator's otherwise, and its completion is the completion
    of the three lines. *)
Lemma compute_transforms p st (w0 w1 : W) raw :
  invoke imports p st w0 = (Ok raw, w1) ->
  (raw = VNull -> action p <> "resolve" /\ action p <> "captcha") ->
  compute imports p st w0 =
    match migrations imports !! action p ≫= mig_response with
    | Some adapt =>
        (adapt (p_migrationCtx st) (p_input st) raw,
         after w1 [EvMigrationResponse (action p) (p_input st) raw] (store w1))
    | None =>
        (v_response (m_validator (p_migrationCtx st)) raw,
         after w1 [EvValidatorResponse raw] (store w1))
    end.
Proof.
  intros Hi Hnull.
  unfold compute, raiseDefaultErrors, migrateResponse, entryResponse, validatorResponse,
    after.
  destruct (migrations imports !! action p ≫= mig_response) as [adapt|];
    munfold; rewrite Hi;
    (destruct (String.eqb_spec (action p) "resolve") as [Hr|_];
     [destruct raw; try reflexivity; destruct (Hnull eq_refl) as [Hn _]; contradiction|]);
    (destruct (String.eqb_spec (action p) "captcha") as [Hc|_];
     [destruct raw; try reflexivity; destruct (Hnull eq_refl) as [_ Hn]; contradiction|]);
    reflexivity.
Qed.

(** Line 141: the handler resolved at line 85 is applied to the input the
    request transform returned, to the context of lines 143-150 and to the
    addon; the [requestCache] closure it runs against clones from the scoped
    handle. *)
Lemma invoke_calls p st (w0 : W) :
  invoke imports p st w0 =
    runHandler imports (p_cache st) (handlerContext p (p_sigData st) (p_cache st))
      (p_handler st (p_input st) (handlerContext p (p_sigData st) (p_cache st))
         (addonIdentity (addon p)))
      (after w0 [EvHandler (p_input st) (p_sigData st)] (store w0)).
Proof. reflexivity. Qed.

(** ** Task redirection *)

(** C6: an invocation whose action is "task" is handed to [handleTask] and
    nothing else happens: the only call that leaves the dispatcher is the one
    to [handleTask], whose completion is the completion of [handleAction].
    No handler is resolved, no signature validated, no migration applied, no
    cache handle derived, no responder created and no response sent by the
    dispatcher itself. *)
Theorem task_redirect p (w : W) :
  action p = "task" ->
  let done := handleTask imports (cache (opts p)) (addon p) (input p)
                (sendResponse p) (store w) in
  handleAction imports p w =
    (fst done,
     {| trace := trace w ++ [EvHandleTask (input p)];
        store := snd done;
        inlineCache := inlineCache w; responder := responder w |}).
Proof.
  intros Hact done. unfold handleAction. rewrite Hact. simpl.
  munfold. simpl. fold done. destruct done as [r s]. reflexivity.
Qed.

(** ** The dedup capability *)

(** C7: the guard of line 118 keeps a handler to one inline entry only when
    each call of [requestCache] is awaited before the next is made.  With no
    entry yet and a backend that hands one out for each key, a first call
    that is awaited stores its entry in the closure variable, and a second
    call made afterwards fails at once with "Request cache is already set
    up", before any call to the backend.  Two calls started before either
    is awaited both pass the guard, because the variable is assigned only
    after the lookup has completed (line 120): both reach [inline], both
    complete without an error, and the variable ends up holding the second
    entry while the first is left behind. *)
Theorem requestCache_overlap c ctx key1 options1 key2 options2 k (w : W)
    entry1 entry2 s1 s2 :
  inlineCache w = None ->
  inline (clone c options1) key1 (store w) = (Ok entry1, s1) ->
  inline (clone c options2) key2 s1 = (Ok entry2, s2) ->
  let first := {| trace := trace w ++ [EvCacheClone options1; EvInline key1];
                  store := s1; inlineCache := Some entry1;
                  responder := responder w |} in
  requestCache c key1 options1 w = (Ok tt, first) /\
  requestCache c key2 options2 first =
    (Throw (newError "Request cache is already set up"), first) /\
  runHandler imports c ctx
      (HRequestCacheAll [(key1, options1); (key2, options2)] k) w =
    runHandler imports c ctx (k [Ok tt; Ok tt])
      {| trace := trace w ++ [EvCacheClone options1; EvInline key1;
                              EvCacheClone options2; EvInline key2];
         store := s2; inlineCache := Some entry2;
         responder := responder w |}.
Proof.
  intros Hic Hin1 Hin2 first. split; [|split].
  - unfold requestCache, startRequestCache, settleRequestCache. munfold.
    rewrite Hic. simpl. rewrite Hin1. unfold first. rewrite <- app_assoc. reflexivity.
  - apply requestCache_engaged with (entry := entry1). reflexivity.
  - destruct w as [t s ic rsp]; simpl in *; subst ic.
    unfold startRequestCache, settleRequestCache. munfold. simpl.
    rewrite Hin1. simpl. rewrite Hin2. simpl. rewrite <- !app_assoc. reflexivity.
Qed.

(** ** Migration fallback *)

(** C9, as the code has it: the two directions are resolved separately.
    With no entry registered for the action, the request transform is the
    validator's [request] applied to the input and the response transform
    the validator's [response] applied to the output, and the invocation
    calls no adapter; the dispatcher hands the handler what the request
    transform returned and takes as its output what the response transform
    returned.  With an entry registered, each direction is the entry's
    adapter, applied to the context and the input (and the output), when the
    entry has one, and the validator's transform when it has none; an entry
    that has both adapters is used for both directions, and the invocation
    calls no transform of the validator. *)
Theorem migration_per_direction p ctx inp out (w : W) :
  let act := action p in
  let validated :=
    match v_request (m_validator ctx) inp with
    | Ok inp' => Ok (ctx, inp')
    | Throw e => Throw e
    end in
  let adapted f :=
    match f ctx inp with
    | Ok (data, inp') => Ok (withData ctx data, inp')
    | Throw e => Throw e
    end in
  (migrations imports !! act = None ->
     migrateRequest imports ctx act inp w =
       (validated, after w [EvValidatorRequest inp] (store w)) /\
     migrateResponse imports ctx act inp out w =
       (v_response (m_validator ctx) out,
        after w [EvValidatorResponse out] (store w))) /\
  (forall entry, migrations imports !! act = Some entry ->
     migrateRequest imports ctx act inp w =
       match mig_request entry with
       | Some f => (adapted f, after w [EvMigrationRequest act inp] (store w))
       | None => (validated, after w [EvValidatorRequest inp] (store w))
       end /\
     migrateResponse imports ctx act inp out w =
       match mig_response entry with
       | Some g => (g ctx inp out,
                    after w [EvMigrationResponse act inp out] (store w))
       | None => (v_response (m_validator ctx) out,
                  after w [EvValidatorResponse out] (store w))
       end) /\
  (forall st w0, prepare imports p w = (Ok st, w0) ->
     fst (migrateRequest imports (initialCtx imports p (p_sigData st)) act (input p) w)
       = Ok (p_migrationCtx st, p_input st) /\
     forall raw w1, invoke imports p st w0 = (Ok raw, w1) ->
       (raw = VNull -> act <> "resolve" /\ act <> "captcha") ->
       compute imports p st w0 =
         migrateResponse imports (p_migrationCtx st) act (p_input st) raw w1) /\
  exists evs,
    trace (snd (handleAction imports p w)) = trace w ++ evs /\
    (migrations imports !! act = None -> calls isEntryMigration evs = 0%nat) /\
    (forall entry f g,
       migrations imports !! act = Some entry ->
       mig_request entry = Some f -> mig_response entry = Some g ->
       calls isValidatorTransform evs = 0%nat).
Proof.
  intros act validated adapted. split; [|split; [|split]].
  - intros Hnone.
    unfold migrateRequest, migrateResponse, validatorRequest, validatorResponse,
      validated, after.
    rewrite Hnone. simpl. munfold.
    destruct (v_request (m_validator ctx) inp); split; reflexivity.
  - intros entry Hentry.
    unfold migrateRequest, migrateResponse, entryRequest, entryResponse,
      validatorRequest, validatorResponse, validated, adapted, after.
    rewrite Hentry. simpl.
    destruct (mig_request entry) as [f|], (mig_response entry) as [g|]; munfold;
      split; try reflexivity;
      first [ destruct (f ctx inp) as [[data inp']|]; reflexivity
            | destruct (v_request (m_validator ctx) inp); reflexivity ].
  - subst act. intros st w0 Hprep. split.
    + destruct (prepare_inv _ _ _ _ Hprep) as (_ & Hm & _).
      unfold migrateRequest, entryRequest, validatorRequest.
      destruct (migrations imports !! action p ≫= mig_request) as [f|]; munfold.
      * destruct Hm as (data & Ha & Hctx). rewrite Ha, Hctx. reflexivity.
      * destruct Hm as (Hv & Hctx). simpl. rewrite Hv, Hctx. reflexivity.
    + intros raw w1 Hinv Hnull. rewrite (compute_transforms _ _ _ _ _ Hinv Hnull).
      unfold migrateResponse, entryResponse, validatorResponse, after.
      destruct (migrations imports !! action p ≫= mig_response); munfold; reflexivity.
  - destruct (handleAction imports p w) as [r w'] eqn:Hrun.
    destruct (handleAction_choice p _ _ _ Hrun) as (evs & Ht & HP).
    exists evs. split; [exact Ht|]. fold act in HP. split.
    + intros Hnone. eapply calls_none; [|exact HP].
      intros ev. unfold migrationChoice. rewrite Hnone. simpl.
      destruct ev; intros Hev; first [reflexivity | discriminate Hev].
    + intros entry f g Hentry Hf Hg. eapply calls_none; [|exact HP].
      intros ev. unfold migrationChoice. rewrite Hentry. simpl. rewrite Hf, Hg.
      destruct ev; intros Hev; first [reflexivity | discriminate Hev].
Qed.

(** ** Cache short-circuit *)

(** C10: when the [try] block ends with a [CacheFoundError], the response is
    decided by the [result] field alone.  If it is [undefined] the response
    has status 500 and the payload [{ error: <the error field> }]; in
    particular a recorded success whose value is [undefined] is answered like
    a recorded failure.  Any other [result] is sent with status 200. *)
Theorem short_circuit_by_result p st (w w0 w1 : W) e :
  action p <> "task" ->
  prepare imports p w = (Ok st, w0) ->
  attempt imports p st w0 = (Throw e, w1) ->
  instanceofCacheFoundError e = true ->
  (exists r,
     handleAction imports p w =
       (Ok tt, {| trace := trace w1 ++
                    [EvSend (responseType (snd (shortCircuit e)))
                            (fst (shortCircuit e)) (snd (shortCircuit e));
                     EvSetSendResponse 0];
                  store := store w1; inlineCache := inlineCache w1;
                  responder := Some r |})) /\
  (getPropOpt e "result" = VUndefined ->
     shortCircuit e = (500, VObj "Object" [("error", getPropOpt e "error")])) /\
  (getPropOpt e "result" <> VUndefined ->
     shortCircuit e = (200, getPropOpt e "result")) /\
  (forall err,
     shortCircuit (CacheFoundError VUndefined err) = (500, VObj "Object" [("error", err)])).
Proof.
  intros Hact Hprep Hatt Hcfe. split; [|split; [|split]].
  - destruct (shortCircuit e) as [statusCode output] eqn:Esc.
    destruct (guarded_response p w w0 w1 st statusCode output Hact Hprep) as (r & Hrun & _).
    + rewrite (caught _ _ _ _ _ Hatt), recover_shortCircuit, Esc by assumption.
      reflexivity.
    + exists r. exact Hrun.
  - unfold shortCircuit. intros ->. reflexivity.
  - unfold shortCircuit. destruct (getPropOpt e "result"); congruence.
  - reflexivity.
Qed.

(** C3, as the code has it: the short-circuit is raised inside the handler
    call, so the handler has been invoked by then.  When the handler call ends
    with a [CacheFoundError], the calls made since the handler was entered are
    those of the [requestCache] closure only, and the dispatcher goes straight
    to the response: no default error, no response migration, no [set] or
    [setError], no [console.warn], and the store is left as the lookup found
    it.  The response has status 200 and the carried result when the result
    is defined, status 500 and [{ error: <carried error> }] otherwise. *)
Theorem short_circuit_response p st (w w0 w1 : W) e :
  action p <> "task" ->
  prepare imports p w = (Ok st, w0) ->
  invoke imports p st w0 = (Throw e, w1) ->
  instanceofCacheFoundError e = true ->
  exists hevs r,
    trace w1 = trace w0 ++ EvHandler (p_input st) (p_sigData st) :: hevs /\
    forallb isRequestCacheEvent hevs = true /\
    handleAction imports p w =
      (Ok tt, {| trace := trace w1 ++
                   responseEvents (fst (shortCircuit e)) (snd (shortCircuit e));
                 store := store w1; inlineCache := inlineCache w1;
                 responder := Some r |}) /\
    shortCircuit e =
      match getPropOpt e "result" with
      | VUndefined => (500, VObj "Object" [("error", getPropOpt e "error")])
      | result => (200, result)
      end.
Proof.
  intros Hact Hprep Hinv Hcfe.
  destruct (invoke_run _ _ _ _ _ Hinv) as (hevs & Ht & HP & _).
  pose proof (attempt_fails _ _ _ _ _ (compute_fails _ _ _ _ _ Hinv)) as Hatt.
  destruct (guarded_response p w w0 w1 st (fst (shortCircuit e)) (snd (shortCircuit e))
              Hact Hprep) as (r & Hrun & _).
  { rewrite (caught _ _ _ _ _ Hatt), recover_shortCircuit by assumption.
    destruct (shortCircuit e); reflexivity. }
  exists hevs, r. repeat (split; [assumption|]). reflexivity.
Qed.

(** ** Exactly one response *)

(** C1, as the code has it, for the calls [handleAction] itself makes; a
    capability of [./tasks] that the handler calls completes with a task
    request or data and sends nothing.  Handler resolution, signature
    validation and request migration run before the [try] block: when one of
    them fails the error leaves [handleAction] and no send has taken place.
    Once they are through, [responder.send] is called exactly once on every
    path (success, task-shaped output, cache short-circuit, a failure of the
    handler, of the default errors, of the response migration or of [set]),
    provided that a failure which is not a short-circuit is not [null] or
    [undefined] and that [setError], when an entry exists, returns; the
    responder is closed afterwards and rejects any further send.  When the
    failure is [null] or [undefined], or [setError] throws, an error leaves
    [handleAction] and nothing has been sent. *)
Theorem exactly_one_response p (w : W) :
  action p <> "task" ->
  (forall e w0, prepare imports p w = (Throw e, w0) ->
     handleAction imports p w = (Throw e, w0) /\
     exists evs, trace w0 = trace w ++ evs /\ calls isSend evs = 0%nat) /\
  (forall st w0,
     prepare imports p w = (Ok st, w0) ->
     (forall e w1, attempt imports p st w0 = (Throw e, w1) ->
        instanceofCacheFoundError e = false ->
        nullish e = false /\
        forall entry, inlineCache w1 = Some entry ->
          exists s', inline_setError entry e (store w1) = (Ok tt, s')) ->
     exists w2 evs r,
       handleAction imports p w = (Ok tt, w2) /\
       trace w2 = trace w ++ evs /\
       calls isSend evs = 1%nat /\
       responder w2 = Some r /\
       forall type statusCode output,
         Responder_send r type statusCode output =
           (Throw (newError "Response was already sent"), r)) /\
  (forall st w0 e w1,
     prepare imports p w = (Ok st, w0) ->
     attempt imports p st w0 = (Throw e, w1) ->
     instanceofCacheFoundError e = false ->
     (nullish e = true \/
      exists entry e2 s', inlineCache w1 = Some entry /\
                          inline_setError entry e (store w1) = (Throw e2, s')) ->
     exists e' w2 evs,
       handleAction imports p w = (Throw e', w2) /\
       trace w2 = trace w ++ evs /\
       calls isSend evs = 0%nat).
Proof.
  intros Hact. split; [|split].
  - intros e w0 Hprep.
    destruct (prepare_failure _ _ _ _ Hact Hprep) as (Hrun & evs & Ht & Hs & _). eauto.
  - intros st w0 Hprep Hfail.
    assert (Hguard : exists statusCode output w1,
               tryCatch (attempt imports p st) recover w0 = (Ok (statusCode, output), w1)).
    { destruct (attempt imports p st w0) as [[[statusCode output]|e] w1] eqn:Hatt.
      - rewrite (completed _ _ _ _ _ Hatt). eauto.
      - rewrite (caught _ _ _ _ _ Hatt).
        destruct (instanceofCacheFoundError e) eqn:Hcfe.
        + rewrite recover_shortCircuit by assumption.
          destruct (shortCircuit e) as [statusCode output]. eauto.
        + destruct (Hfail _ _ eq_refl Hcfe) as [Hobj Hset].
          destruct (inlineCache w1) as [entry|] eqn:Hic.
          * destruct (Hset entry eq_refl) as [s' Hs'].
            rewrite (recover_recorded _ _ _ _ _ Hcfe Hobj Hic Hs'). eauto.
          * rewrite (recover_without_entry _ _ Hic Hcfe Hobj). eauto. }
    destruct Hguard as (statusCode & output & w1 & Hguard).
    destruct (guarded_one_send _ _ _ _ _ _ _ Hact Hprep Hguard)
      as (w2 & evs & r & Hrun & Ht & Hs & Hr & Hclosed).
    exists w2, evs, r. repeat (split; [assumption|]).
    intros type sc out. apply closed_rejects. exact Hclosed.
  - intros st w0 e w1 Hprep Hatt Hcfe Hwhy.
    destruct (recover_throws e w1 Hcfe Hwhy) as (e' & w2 & Hrec).
    assert (Hguard : tryCatch (attempt imports p st) recover w0 = (Throw e', w2))
      by (rewrite (caught _ _ _ _ _ Hatt); exact Hrec).
    destruct (guarded_steps _ _ _ _ _ Hguard) as (gevs & Htg & HPg & _).
    destruct (nothing_sent_yet p st w w0 w2 Hprep) as (pre & Htpre & Hpre); [eauto|].
    exists e', w2, pre. split; [|auto].
    exact (guarded_thrown _ _ _ _ _ _ Hact Hprep Hguard).
Qed.

(** ** Failures *)

(** C2, as the code has it.  A failure of handler resolution, of signature
    validation or of request migration is not answered by [handleAction]: the
    error is rethrown to its caller, and no response, no handler call and no
    log entry has happened.  A failure inside the [try] block (of the
    handler, of the default errors, of the response migration or of [set])
    that is not a [CacheFoundError] and not [null] or [undefined] is first
    passed to [setError] when an inline entry exists; when [setError] throws,
    its error leaves [handleAction] and nothing is sent; otherwise the
    failure is logged with [console.warn] unless its [noBacktraceLog]
    property is truthy (as [SilentError] sets it), and answered with status
    500 and the payload [{ error: error.message || error }]: the message
    when it is truthy, the thrown value itself otherwise. *)
Theorem failure_response p (w : W) :
  action p <> "task" ->
  (forall e w0, prepare imports p w = (Throw e, w0) ->
     handleAction imports p w = (Throw e, w0) /\
     exists evs, trace w0 = trace w ++ evs /\
                 calls isSend evs = 0%nat /\ calls isHandlerEvent evs = 0%nat /\
                 calls isWarn evs = 0%nat) /\
  (forall st w0 e w1,
     prepare imports p w = (Ok st, w0) ->
     attempt imports p st w0 = (Throw e, w1) ->
     instanceofCacheFoundError e = false -> nullish e = false ->
     let run := handleAction imports p w in
     let payload := errorPayload e (getPropOpt e "message") in
     (exists pre, trace w1 = trace w ++ pre /\ calls isSend pre = 0%nat) /\
     match inlineCache w1 with
     | None => answered run w1 (warned e) (store w1) 500 payload
     | Some entry =>
         match inline_setError entry e (store w1) with
         | (Ok _, s') => answered run w1 (EvInlineSetError e :: warned e) s' 500 payload
         | (Throw e2, s') => run = (Throw e2, after w1 [EvInlineSetError e] s')
         end
     end) /\
  (forall e message, truthy message = true ->
     errorPayload e message = VObj "Object" [("error", message)]) /\
  (forall e message, truthy message = false ->
     errorPayload e message = VObj "Object" [("error", e)]) /\
  (forall e, truthy (getPropOpt e "noBacktraceLog") = true -> warned e = []) /\
  (forall e, truthy (getPropOpt e "noBacktraceLog") = false ->
     warned e = [EvConsoleWarn e]) /\
  (forall message, warned (SilentError message) = []) /\
  (forall message, warned (newError message) = [EvConsoleWarn (newError message)]).
Proof.
  intros Hact. split; [|split; [|split; [|split; [|split; [|split; [|split]]]]]].
  - intros e w0 Hprep.
    destruct (prepare_failure _ _ _ _ Hact Hprep) as [Hrun _]. split; [exact Hrun|].
    destruct (prepare_run _ _ _ _ Hprep) as (evs & Ht & HP & _).
    exists evs. split; [assumption|]. split; [|split].
    + apply beforeResponse_calls. eauto using forallb_weaken, prepare_events.
    + eapply calls_none; [|exact HP].
      intros ev; destruct ev; intros Hev; first [reflexivity | discriminate Hev].
    + eapply calls_none; [|exact HP].
      intros ev; destruct ev; intros Hev; first [reflexivity | discriminate Hev].
  - intros st w0 e w1 Hprep Hatt Hcfe Hobj run payload. split.
    + apply (nothing_sent_yet p st w w0 w1 Hprep).
      destruct (attempt_steps _ _ _ _ _ Hatt) as (evs & Ht & HP & _). eauto.
    + exact (failure_outcome _ _ _ _ _ _ Hact Hprep Hatt Hcfe Hobj).
  - intros e message Ht. unfold errorPayload. rewrite Ht. reflexivity.
  - intros e message Ht. unfold errorPayload. rewrite Ht. reflexivity.
  - intros e Ht. unfold warned. rewrite Ht. reflexivity.
  - intros e Ht. unfold warned. rewrite Ht. reflexivity.
  - reflexivity.
  - reflexivity.
Qed.

(** ** Recording the outcome *)

(** C4, as the code has it, for an invocation that holds an inline entry.
    When the handler call, the default errors and the response transform
    complete, what the transform returned goes to [set] before anything is
    sent; when [set] returns, that output is answered with status 200, and
    when [set] throws, the [try] block has failed with that error.  When the
    [try] block fails with an error that is not a [CacheFoundError], the
    error goes to [setError] before anything is sent; when [setError]
    returns, the 500 response follows (unless the error is [null] or
    [undefined]: reading [error.message] then throws and nothing is sent),
    and when [setError] throws, its error leaves [handleAction] and nothing
    is sent.  The output of the [try] block is the completion of the
    response transform (the adapter of the action's entry when it has one,
    the validator's [response] otherwise) applied to the handler result. *)
Theorem outcome_recorded_before_response p st (w w0 : W) :
  action p <> "task" ->
  prepare imports p w = (Ok st, w0) ->
  let run := handleAction imports p w in
  (forall output w1 entry,
     compute imports p st w0 = (Ok output, w1) ->
     inlineCache w1 = Some entry ->
     (exists pre, trace w1 = trace w ++ pre /\ calls isSend pre = 0%nat) /\
     match inline_set entry output (store w1) with
     | (Ok _, s') => answered run w1 [EvInlineSet output] s' 200 output
     | (Throw e2, s') =>
         attempt imports p st w0 = (Throw e2, after w1 [EvInlineSet output] s')
     end) /\
  (forall e w1 entry,
     attempt imports p st w0 = (Throw e, w1) ->
     inlineCache w1 = Some entry ->
     instanceofCacheFoundError e = false ->
     (exists pre, trace w1 = trace w ++ pre /\ calls isSend pre = 0%nat) /\
     match inline_setError entry e (store w1) with
     | (Ok _, s') =>
         if nullish e then
           run = (Throw (TypeError "Cannot read properties of null or undefined"),
                  after w1 [EvInlineSetError e] s')
         else
           answered run w1 (EvInlineSetError e :: warned e) s' 500
             (errorPayload e (getPropOpt e "message"))
     | (Throw e2, s') => run = (Throw e2, after w1 [EvInlineSetError e] s')
     end) /\
  (forall raw w1,
     invoke imports p st w0 = (Ok raw, w1) ->
     (raw = VNull -> action p <> "resolve" /\ action p <> "captcha") ->
     compute imports p st w0 =
       match migrations imports !! action p ≫= mig_response with
       | Some adapt =>
           (adapt (p_migrationCtx st) (p_input st) raw,
            after w1 [EvMigrationResponse (action p) (p_input st) raw] (store w1))
       | None =>
           (v_response (m_validator (p_migrationCtx st)) raw,
            after w1 [EvValidatorResponse raw] (store w1))
       end).
Proof.
  intros Hact Hprep run. split; [|split].
  - intros output w1 entry Hc Hic. split.
    + apply (nothing_sent_yet p st w w0 w1 Hprep).
      destruct (compute_steps _ _ _ _ _ Hc) as (evs & Ht & HP & _). eauto.
    + pose proof (success_outcome _ _ _ _ _ _ Hact Hprep Hc) as Hs.
      unfold successAnswered in Hs. rewrite Hic in Hs. exact Hs.
  - intros e w1 entry Hatt Hic Hcfe. split.
    + apply (nothing_sent_yet p st w w0 w1 Hprep).
      destruct (attempt_steps _ _ _ _ _ Hatt) as (evs & Ht & HP & _). eauto.
    + destruct (inline_setError entry e (store w1)) as [[u|e2] s'] eqn:Hset.
      * destruct (nullish e) eqn:Hobj.
        -- apply guarded_thrown with (w0 := w0) (st := st); try assumption.
           rewrite (caught _ _ _ _ _ Hatt).
           exact (recover_nullish_recorded _ _ _ _ _ Hobj Hic Hset).
        -- apply guarded_answered with (w0 := w0) (st := st); try assumption.
           rewrite (caught _ _ _ _ _ Hatt).
           exact (recover_recorded _ _ _ _ _ Hcfe Hobj Hic Hset).
      * apply guarded_thrown with (w0 := w0) (st := st); try assumption.
        rewrite (caught _ _ _ _ _ Hatt).
        exact (recover_unrecordable _ _ _ _ _ Hcfe Hic Hset).
  - intros raw w1 Hinv Hnull. exact (compute_transforms _ _ _ _ _ Hinv Hnull).
Qed.

(** ** Signature validation *)

(** C5: for an invocation that reaches the signature check, that is one
    whose action is not "task" (handed to [handleTask] at line 74) and whose
    handler resolves (line 85, before the signature is looked at), signature
    validation is skipped, with [null] as the trusted data, exactly when the
    bypass flag is "1", or the action is "selftest" or "addon", or the addon
    type and the action are both "repository".  Otherwise
    [validateSignature] is called exactly once, on the supplied signature,
    right after the handler lookup and so before the handler can run, and its
    failure ends the invocation with that error before the handler is
    invoked. *)
Theorem signature_policy p (w : W) handler :
  action p <> "task" ->
  getActionHandler (addon p) (action p) = Ok handler ->
  let exempt := authExempt imports (addon p) (action p) in
  (exempt = true <->
     (SKIP_AUTH imports = Some "1" \/ action p = "selftest" \/ action p = "addon" \/
      (getType (addon p) = "repository" /\ action p = "repository"))) /\
  exists rest,
    trace (snd (handleAction imports p w)) =
      trace w ++ EvGetActionHandler (action p) ::
        (if exempt then [] else [EvValidateSignature (sig p)]) ++ rest /\
    calls isValidateSignature rest = 0%nat /\
    (forall st w0, prepare imports p w = (Ok st, w0) ->
       if exempt then p_sigData st = VNull
       else validateSignature imports (sig p) = Ok (p_sigData st)) /\
    (exempt = false ->
     forall e, validateSignature imports (sig p) = Throw e ->
       fst (handleAction imports p w) = Throw e /\ rest = []).
Proof.
  intros Hact Hh exempt. split; [apply authExempt_spec|].
  destruct (prepare_signature p w handler Hh) as (r & w0 & rest0 & Hprep & Ht0 & Hv0 & Hr).
  fold exempt in Ht0, Hr. rewrite handleAction_pipeline, Hprep by assumption.
  destruct r as [st|e0].
  - destruct (tryCatch (attempt imports p st) recover w0) as [res w1] eqn:Hguard.
    destruct (guarded_steps _ _ _ _ _ Hguard) as (gevs & Htg & HPg & Hrg).
    assert (Hvg : calls isValidateSignature gevs = 0%nat)
      by (eapply calls_none; [apply tryEvent_not_validate | exact HPg]).
    assert (Hsig : forall st' w0', (Ok st, w0) = (Ok st', w0') ->
               if exempt then p_sigData st' = VNull
               else validateSignature imports (sig p) = Ok (p_sigData st'))
      by (intros st' w0' Heq; injection Heq as <- <-; exact Hr).
    assert (Hfail : exempt = false ->
               forall e, validateSignature imports (sig p) = Throw e -> False).
    { intros Hex e He. rewrite Hex in Hr. congruence. }
    destruct res as [[statusCode output]|e].
    + destruct (prepare_run _ _ _ _ Hprep) as (_ & _ & _ & Hr0 & _).
      destruct (respond_run w1 _ _ statusCode output (eq_trans Hrg Hr0)) as (r & -> & _).
      exists (rest0 ++ gevs ++ responseEvents statusCode output). simpl.
      rewrite Htg, Ht0, !calls_app, Hv0, Hvg. simpl.
      rewrite <- !app_assoc. simpl. rewrite <- !app_assoc.
      split; [reflexivity|]. split; [reflexivity|]. split; [assumption|].
      intros Hex e He. destruct (Hfail Hex e He).
    + exists (rest0 ++ gevs). simpl.
      rewrite Htg, Ht0, !calls_app, Hv0, Hvg. simpl.
      rewrite <- !app_assoc. simpl. rewrite <- !app_assoc.
      split; [reflexivity|]. split; [reflexivity|]. split; [assumption|].
      intros Hex e' He. destruct (Hfail Hex e' He).
  - exists rest0. simpl. split; [assumption|]. split; [assumption|].
    split; [intros st w0' Heq; discriminate Heq|].
    intros Hex e He. destruct (Hr Hex e He) as [-> ->]. auto.
Qed.

(** ** Null results *)

(** C8, as the code has it, for a handler that returned [null]; nothing has
    been sent by then.  For the
    actions "resolve" and "captcha" the [try] block fails with the error
    "Nothing found", which is answered with status 500 and
    [{ error: "Nothing found" }] after it was passed to [setError] when an
    entry exists (and nothing is sent when [setError] throws).  For every
    other action [null] is handed to the response transform like any
    output.  When the transform returns, its result is passed to [set] when
    an entry exists and answered with status 200 (when [set] throws, the
    [try] block has failed with that error); when the transform rejects
    [null], the [try] block has failed with the transform's error, which is
    answered with status 500 like any failure. *)
Theorem null_result p st (w w0 w1 : W) :
  action p <> "task" ->
  prepare imports p w = (Ok st, w0) ->
  invoke imports p st w0 = (Ok VNull, w1) ->
  let run := handleAction imports p w in
  (exists pre, trace w1 = trace w ++ pre /\ calls isSend pre = 0%nat) /\
  (action p = "resolve" \/ action p = "captcha" ->
   attempt imports p st w0 = (Throw (newError "Nothing found"), w1) /\
   messageOrError (newError "Nothing found") =
     VObj "Object" [("error", VStr "Nothing found")] /\
   warned (newError "Nothing found") = [EvConsoleWarn (newError "Nothing found")] /\
   failureAnswered run w1 (newError "Nothing found")) /\
  (action p <> "resolve" -> action p <> "captcha" ->
   let ctx := p_migrationCtx st in
   let transformed :=
     match migrations imports !! action p ≫= mig_response with
     | Some adapt => (adapt ctx (p_input st) VNull,
                      EvMigrationResponse (action p) (p_input st) VNull)
     | None => (v_response (m_validator ctx) VNull, EvValidatorResponse VNull)
     end in
   let w2 := after w1 [snd transformed] (store w1) in
   match fst transformed with
   | Ok output => successAnswered run (attempt imports p st w0) w2 output
   | Throw e =>
       attempt imports p st w0 = (Throw e, w2) /\
       (instanceofCacheFoundError e = false -> nullish e = false ->
        failureAnswered run w2 e)
   end).
Proof.
  intros Hact Hprep Hinv run. split; [|split].
  - apply (nothing_sent_yet p st w w0 w1 Hprep).
    destruct (invoke_steps _ _ _ _ _ Hinv) as (evs & Ht & HP & _). eauto.
  - intros Hwhich.
    pose proof (attempt_fails _ _ _ _ _ (compute_promotes_null _ _ _ _ Hinv Hwhich)) as Hatt.
    split; [exact Hatt|]. split; [reflexivity|]. split; [reflexivity|].
    exact (failure_outcome _ _ _ _ _ _ Hact Hprep Hatt eq_refl eq_refl).
  - intros Hr Hc ctx transformed w2.
    assert (Hcomp : compute imports p st w0 = (fst transformed, w2)).
    { rewrite (compute_transforms _ _ _ _ _ Hinv) by (intros _; auto).
      unfold w2, transformed, ctx.
      destruct (migrations imports !! action p ≫= mig_response); reflexivity. }
    destruct (fst transformed) as [output|e] eqn:Ho.
    + exact (success_outcome _ _ _ _ _ _ Hact Hprep Hcomp).
    + pose proof (attempt_fails _ _ _ _ _ Hcomp) as Hatt.
      split; [exact Hatt|]. intros Hcfe Hobj.
      exact (failure_outcome _ _ _ _ _ _ Hact Hprep Hatt Hcfe Hobj).
Qed.

(** * Further properties *)

(** *** Stages *)

Lemma stages_app evs1 evs2 : stages (evs1 ++ evs2) = stages evs1 ++ stages evs2.
Proof. unfold stages. apply omap_app. Qed.

Lemma stages_unstaged evs : forallb unstaged evs = true -> stages evs = [].
Proof.
  induction evs as [|ev evs IH]; simpl; [reflexivity|].
  intros [Hev Hevs]%andb_true_iff. unfold unstaged in Hev.
  destruct (stage ev); [discriminate Hev | auto].
Qed.

Lemma sorted_app (l1 l2 : list nat) mid :
  StronglySorted lt l1 -> StronglySorted lt l2 ->
  Forall (fun n => (n < mid)%nat) l1 -> Forall (fun n => (mid <= n)%nat) l2 ->
  StronglySorted lt (l1 ++ l2).
Proof.
  intros Hs1 Hs2 Hb1 Hb2. induction Hs1 as [|a l1 Hs1 IH Ha]; simpl; [assumption|].
  apply Forall_cons_1 in Hb1 as [Hamid Hb1].
  constructor; [auto|].
  apply Forall_app. split; [assumption|].
  eapply Forall_impl; [exact Hb2|]. simpl. intros n Hn. lia.
Qed.

Lemma staged_quiet {A} lo hi (m : Run A) :
  (lo <= hi)%nat -> emits unstaged m -> staged lo hi m.
Proof.
  intros _ Hm w r w' Hrun. destruct (Hm _ _ _ Hrun) as (evs & Ht & HP).
  exists evs. rewrite (stages_unstaged _ HP).
  split; [assumption|]. split; constructor.
Qed.

Lemma staged_emit lo hi ev n :
  stage ev = Some n -> (lo <= n)%nat -> (n < hi)%nat -> staged lo hi (emit ev : Run unit).
Proof.
  intros Hst Hlo Hhi w r w' Hrun. injection Hrun as <- <-.
  exists [ev]. unfold stages. simpl. rewrite Hst. simpl.
  split; [reflexivity|]. split; repeat constructor; assumption.
Qed.

Lemma staged_bind {A B} lo mid hi (m : Run A) (f : A -> Run B) :
  (lo <= mid)%nat -> (mid <= hi)%nat ->
  staged lo mid m -> (forall a, staged mid hi (f a)) -> staged lo hi (m ≫= f).
Proof.
  intros Hlo Hhi Hm Hf w r w' Hrun.
  apply bind_inv in Hrun as [(a & w1 & Em & Hrun)|(e & Em & ->)].
  - destruct (Hm _ _ _ Em) as (evs1 & Ht1 & Hs1 & Hb1).
    destruct (Hf a _ _ _ Hrun) as (evs2 & Ht2 & Hs2 & Hb2).
    exists (evs1 ++ evs2). rewrite Ht2, Ht1, <- app_assoc, stages_app.
    split; [reflexivity|]. split.
    + apply sorted_app with (mid := mid); try assumption.
      * eapply Forall_impl; [exact Hb1|]. simpl. intros n Hn. lia.
      * eapply Forall_impl; [exact Hb2|]. simpl. intros n Hn. lia.
    + apply Forall_app. split.
      * eapply Forall_impl; [exact Hb1|]. simpl. intros n Hn. lia.
      * eapply Forall_impl; [exact Hb2|]. simpl. intros n Hn. lia.
  - destruct (Hm _ _ _ Em) as (evs1 & Ht1 & Hs1 & Hb1).
    exists evs1. split; [assumption|]. split; [assumption|].
    eapply Forall_impl; [exact Hb1|]. simpl. intros n Hn. lia.
Qed.

Lemma staged_tryCatch {A} lo mid hi (body : Run A) (handler : value -> Run A) :
  (lo <= mid)%nat -> (mid <= hi)%nat ->
  staged lo mid body -> (forall e, staged mid hi (handler e)) ->
  staged lo hi (tryCatch body handler).
Proof.
  intros Hlo Hhi Hm Hf w r w' Hrun. unfold tryCatch in Hrun.
  destruct (body w) as [[a|e] w1] eqn:Em.
  - injection Hrun as <- <-.
    destruct (Hm _ _ _ Em) as (evs1 & Ht1 & Hs1 & Hb1).
    exists evs1. split; [assumption|]. split; [assumption|].
    eapply Forall_impl; [exact Hb1|]. simpl. intros n Hn. lia.
  - destruct (Hm _ _ _ Em) as (evs1 & Ht1 & Hs1 & Hb1).
    destruct (Hf e _ _ _ Hrun) as (evs2 & Ht2 & Hs2 & Hb2).
    exists (evs1 ++ evs2). rewrite Ht2, Ht1, <- app_assoc, stages_app.
    split; [reflexivity|]. split.
    + apply sorted_app with (mid := mid); try assumption.
      * eapply Forall_impl; [exact Hb1|]. simpl. intros n Hn. lia.
      * eapply Forall_impl; [exact Hb2|]. simpl. intros n Hn. lia.
    + apply Forall_app. split.
      * eapply Forall_impl; [exact Hb1|]. simpl. intros n Hn. lia.
      * eapply Forall_impl; [exact Hb2|]. simpl. intros n Hn. lia.
Qed.

Ltac quiet :=
  apply staged_quiet;
  [ lia
  | first [ apply emits_setResponder | apply emits_onResponder
          | apply emits_of_steps; steps_tac ] ].

Ltac loud := eapply staged_emit; [reflexivity | lia | lia].

Ltac seq mid := apply (staged_bind _ mid _); [lia | lia | | intros ?].

Lemma runHandler_quiet c ctx prog :
  emits unstaged (runHandler imports c ctx prog : Run value).
Proof.
  apply emits_of_steps. eapply steps_weaken; [|apply runHandler_steps].
  intros ev; destruct ev; intros Hev; first [reflexivity | discriminate Hev].
Qed.

Lemma prepare_staged p : staged 1 4 (prepare imports p : Run Prepared).
Proof.
  unfold prepare. seq 2%nat.
  { seq 2%nat; [loud | quiet]. }
  seq 3%nat.
  { unfold resolveSigData. destruct (authExempt imports (addon p) (action p)).
    - quiet.
    - seq 3%nat; [loud | quiet]. }
  seq 4%nat.
  { unfold migrateRequest.
    destruct (migrations imports !! action p ≫= mig_request).
    - unfold entryRequest. seq 4%nat; [loud | quiet].
    - unfold validatorRequest. seq 4%nat; [loud | quiet]. }
  match goal with a : (MigrationCtx * value)%type |- _ => destruct a end.
  seq 4%nat; [quiet|]. seq 4%nat; [quiet|]. seq 4%nat; quiet.
Qed.

Lemma guarded_staged p st :
  staged 4 9 (tryCatch (attempt imports p st) recover : Run (Z * value)).
Proof.
  apply (staged_tryCatch 4 7 9); [lia | lia | |].
  - unfold attempt. seq 6%nat.
    { unfold compute. seq 5%nat.
      { unfold invoke. seq 5%nat; [loud|].
        apply staged_quiet; [lia | apply runHandler_quiet]. }
      seq 5%nat.
      { apply staged_quiet; [lia|]. apply emits_of_steps, raiseDefaultErrors_steps. }
      unfold migrateResponse.
      destruct (migrations imports !! action p ≫= mig_response).
      - unfold entryResponse. seq 6%nat; [loud | quiet].
      - unfold validatorResponse. seq 6%nat; [loud | quiet]. }
    seq 6%nat; [quiet|]. seq 7%nat; [|quiet].
    match goal with a : option InlineCache |- _ => destruct a end.
    + seq 7%nat; [loud | quiet].
    + quiet.
  - intros e. unfold recover. destruct (instanceofCacheFoundError e); [quiet|].
    seq 7%nat; [quiet|]. seq 8%nat.
    { match goal with a : option InlineCache |- _ => destruct a end.
      - seq 8%nat; [loud | quiet].
      - quiet. }
    seq 8%nat; [quiet|]. seq 8%nat; [quiet|]. seq 9%nat; [|quiet].
    match goal with |- context [truthy ?v] => destruct (truthy v) end; [quiet | loud].
Qed.

Lemma respond_staged statusCode output :
  staged 9 11 (respond statusCode output : Run unit).
Proof.
  unfold respond. seq 10%nat.
  { seq 10%nat; [loud | quiet]. }
  seq 11%nat; [loud | quiet].
Qed.

Lemma handleAction_staged p : staged 0 11 (handleAction imports p : Run unit).
Proof.
  unfold handleAction. destruct (String.eqb (action p) "task").
  - seq 1%nat; [loud | quiet].
  - apply (staged_bind 0 4 11); [lia | lia | |].
    { intros w r w' Hrun. destruct (prepare_staged p _ _ _ Hrun) as (evs & Ht & Hs & Hb).
      exists evs. split; [assumption|]. split; [assumption|].
      eapply Forall_impl; [exact Hb|]. simpl. intros n Hn. lia. }
    intros st. seq 9%nat; [apply guarded_staged|].
    match goal with a : (Z * value)%type |- _ => destruct a end.
    apply respond_staged.
Qed.

Lemma calls_beyond test n evs :
  (forall ev, test ev = true -> stage ev = Some n) ->
  Forall (lt n) (stages evs) -> calls test evs = 0%nat.
Proof.
  intros Htest. unfold calls, stages.
  induction evs as [|ev evs IH]; simpl; [reflexivity|].
  destruct (test ev) eqn:Hev.
  - rewrite (Htest _ Hev). simpl. intros [Hn _]%Forall_cons_1. lia.
  - destruct (stage ev); simpl; [intros [_ Hrest]%Forall_cons_1|]; auto.
Qed.

Lemma calls_once test n evs :
  (forall ev, test ev = true -> stage ev = Some n) ->
  StronglySorted lt (stages evs) -> (calls test evs <= 1)%nat.
Proof.
  intros Htest. induction evs as [|ev evs IH]; [unfold calls; simpl; lia|].
  unfold calls, stages in *. simpl. destruct (test ev) eqn:Hev.
  - rewrite (Htest _ Hev). simpl. intros Hs. inversion Hs as [|? ? Hs' Hall]; subst.
    pose proof (calls_beyond test n evs Htest Hall) as H0.
    unfold calls in H0. rewrite H0. lia.
  - destruct (stage ev); simpl; intros Hs; [inversion Hs; subst|]; auto.
Qed.

(** ** The order of the calls *)

(** For every invocation, the calls [handleAction] makes occur in the order
    of its body: [handleTask]; or handler lookup, signature validation,
    request transform, handler, response transform, [set], [setError],
    [console.warn], [send], [setSendResponse].  Each of them occurs at most
    once, and none occurs after a later one; only the calls of the
    [requestCache] closure are free to repeat. *)
Theorem pipeline_order p (w : W) :
  exists evs,
    trace (snd (handleAction imports p w)) = trace w ++ evs /\
    StronglySorted lt (stages evs).
Proof.
  destruct (handleAction imports p w) as [r w'] eqn:Hrun.
  destruct (handleAction_staged p _ _ _ Hrun) as (evs & Ht & Hs & _). eauto.
Qed.

(** Among the calls [handleAction] itself makes, each collaborator is
    called at most once per invocation, whatever the handler, the
    validators, the adapters and the backend do: the handler lookup, the
    signature validation, the request transform, the handler, the response
    transform, [set], [setError] and the [responder.send] of line 196.  What
    a capability of [./tasks] does with the responder it was built from is
    not a call of [handleAction] and is not counted. *)
Theorem collaborators_called_at_most_once p (w : W) :
  exists evs,
    trace (snd (handleAction imports p w)) = trace w ++ evs /\
    (calls isGetActionHandler evs <= 1)%nat /\
    (calls isValidateSignature evs <= 1)%nat /\
    (calls isRequestMigration evs <= 1)%nat /\
    (calls isHandlerEvent evs <= 1)%nat /\
    (calls isResponseMigration evs <= 1)%nat /\
    (calls isInlineSet evs <= 1)%nat /\
    (calls isInlineSetError evs <= 1)%nat /\
    (calls isSend evs <= 1)%nat.
Proof.
  destruct (handleAction imports p w) as [r w'] eqn:Hrun.
  destruct (handleAction_staged p _ _ _ Hrun) as (evs & Ht & Hs & _).
  exists evs. split; [exact Ht|].
  repeat split;
    (eapply calls_once; [|exact Hs]);
    intros ev; destruct ev; intros Hev; first [discriminate Hev | reflexivity].
Qed.

(** ** What the handler and the adapters receive *)

(** Once lines 85-134 are through, the handler that is called is the one
    [getActionHandler] returned, and the input it is applied to is the
    result of the request transform, not the wire input; its second
    argument carries the transport request and the trusted signature data.
    The request adapter of a migration entry is given a context with empty
    scratch data, the trusted signature data and the validator of the addon
    type and action; the context kept for the response transform is that
    context with the scratch data the adapter left.  The transforms have not
    touched the store. *)
Theorem handler_receives_transformed_request p (w w0 : W) st :
  prepare imports p w = (Ok st, w0) ->
  exists handler input' ctx,
    getActionHandler (addon p) (action p) = Ok handler /\
    match migrations imports !! action p ≫= mig_request with
    | Some adapt =>
        exists data,
          adapt (initialCtx imports p (p_sigData st)) (input p) = Ok (data, input') /\
          p_migrationCtx st = withData (initialCtx imports p (p_sigData st)) data
    | None =>
        v_request (getActionValidator imports (getType (addon p)) (action p)) (input p)
          = Ok input' /\
        p_migrationCtx st = initialCtx imports p (p_sigData st)
    end /\
    ctx_request ctx = request p /\
    ctx_sig ctx = p_sigData st /\
    invoke imports p st w0 =
      runHandler imports (p_cache st) ctx
        (handler input' ctx (addonIdentity (addon p)))
        (after w0 [EvHandler input' (p_sigData st)] (store w0)) /\
    store w0 = store w.
Proof.
  intros Hprep. destruct (prepare_inv _ _ _ _ Hprep) as (Hh & Hm & _ & Hs).
  exists (p_handler st), (p_input st), (handlerContext p (p_sigData st) (p_cache st)).
  split; [exact Hh|]. split; [exact Hm|]. split; [reflexivity|].
  split; [reflexivity|]. split; [apply invoke_calls | exact Hs].
Qed.

(** ** The scoped cache handle *)



(** ** The recorded request *)

(** The responder of an invocation is created with a record exactly when a
    non-empty recorder path is configured; the record names the addon and
    the action and holds the input as the request transform returned it, the
    same input the handler is called with. *)
Theorem recorded_request p (w w0 : W) st :
  prepare imports p w = (Ok st, w0) ->
  let record := makeRecord (opts p) (addon p) (action p) (p_input st) in
  responder w0 = Some (newResponder record (sendResponse p)) /\
  (record = None <->
     requestRecorderPath (opts p) = None \/ requestRecorderPath (opts p) = Some "") /\
  (forall path, requestRecorderPath (opts p) = Some path -> path <> "" ->
     record = Some {| rec_addon := Some (getId (addon p));
                      rec_action := Some (action p);
                      rec_input := Some (p_input st);
                      rec_output := None |}).
Proof.
  intros Hprep record. destruct (prepare_run _ _ _ _ Hprep) as (_ & _ & _ & Hr & _).
  split; [exact Hr|]. unfold record, makeRecord. split.
  - destruct (requestRecorderPath (opts p)) as [path|]; [|tauto].
    destruct (String.eqb_spec path "") as [->|Hne].
    + tauto.
    + split; [discriminate|]. intros [Hn|Hs]; [discriminate Hn|].
      injection Hs as ->. contradiction.
  - intros path -> Hne.
    destruct (String.eqb_spec path "") as [->|_]; [contradiction|reflexivity].
Qed.

(** ** The dedup capability after a failed lookup *)

(** The closure variable is assigned only when [inline] returns: when the
    lookup throws (a short-circuit or a backend failure) the error goes to
    the handler and the variable stays empty, so a handler that catches the
    error can call [requestCache] again and the call reaches the backend. *)
Theorem failed_lookup_leaves_capability c key options key2 options2 (w : W) e s' :
  inlineCache w = None ->
  inline (clone c options) key (store w) = (Throw e, s') ->
  let w1 := {| trace := trace w ++ [EvCacheClone options; EvInline key];
               store := s'; inlineCache := None;
               responder := responder w |} in
  requestCache c key options w = (Throw e, w1) /\
  requestCache c key2 options2 w1 =
    (match fst (inline (clone c options2) key2 s') with
     | Ok _ => Ok tt
     | Throw e2 => Throw e2
     end,
     {| trace := trace w1 ++ [EvCacheClone options2; EvInline key2];
        store := snd (inline (clone c options2) key2 s');
        inlineCache := match fst (inline (clone c options2) key2 s') with
                       | Ok entry => Some entry
                       | Throw _ => None
                       end;
        responder := responder w |}).
Proof.
  intros Hic Hin w1. split.
  - unfold requestCache, startRequestCache, settleRequestCache. munfold.
    rewrite Hic. simpl. rewrite Hin.
    unfold w1. rewrite <- app_assoc, Hic. reflexivity.
  - unfold requestCache, startRequestCache, settleRequestCache. munfold. simpl.
    destruct (inline (clone c options2) key2 s') as [[entry|e2] s''];
      simpl; rewrite <- !app_assoc; reflexivity.
Qed.

(** *** Status and output of the response *)

Lemma attempt_status p st (w w' : W) statusCode output :
  attempt imports p st w = (Ok (statusCode, output), w') -> statusCode = 200.
Proof.
  unfold attempt. intros Hrun.
  apply bind_inv in Hrun as [(out' & w1 & _ & Hrun)|(e & _ & He)]; [|discriminate He].
  apply bind_inv in Hrun as [(ic & w2 & _ & Hrun)|(e & _ & He)]; [|discriminate He].
  apply bind_inv in Hrun as [(u & w3 & _ & Hrun)|(e & _ & He)]; [|discriminate He].
  injection Hrun as <- _ _. reflexivity.
Qed.

Lemma recover_status e (w w' : W) statusCode output :
  recover e w = (Ok (statusCode, output), w') ->
  statusCode = 200 \/
  (statusCode = 500 /\ exists x, output = VObj "Object" [("error", x)]).
Proof.
  unfold recover. destruct (instanceofCacheFoundError e).
  - unfold shortCircuit. intros Hrun.
    destruct (getPropOpt e "result"); injection Hrun as <- <- _; eauto.
  - intros Hrun.
    apply bind_inv in Hrun as [(ic & w1 & _ & Hrun)|(e' & _ & He)]; [|discriminate He].
    apply bind_inv in Hrun as [(u & w2 & _ & Hrun)|(e' & _ & He)]; [|discriminate He].
    apply bind_inv in Hrun as [(m & w3 & _ & Hrun)|(e' & _ & He)]; [|discriminate He].
    apply bind_inv in Hrun as [(n & w4 & _ & Hrun)|(e' & _ & He)]; [|discriminate He].
    apply bind_inv in Hrun as [(u' & w5 & _ & Hrun)|(e' & _ & He)]; [|discriminate He].
    injection Hrun as <- <- _. right. unfold errorPayload. eauto.
Qed.

Lemma guarded_status p st (w w' : W) statusCode output :
  tryCatch (attempt imports p st) recover w = (Ok (statusCode, output), w') ->
  statusCode = 200 \/
  (statusCode = 500 /\ exists x, output = VObj "Object" [("error", x)]).
Proof.
  unfold tryCatch. destruct (attempt imports p st w) as [[res|e] w1] eqn:Hatt.
  - intros Hrun. injection Hrun as -> ->. left. eapply attempt_status; eauto.
  - apply recover_status.
Qed.

Lemma responseType_task output : responseType output = "task" <-> taskShaped output.
Proof.
  unfold responseType, taskShaped. split.
  - destruct output as [| | | | |cls props]; simpl; try discriminate.
    destruct (lookupProp "kind" props) as [| | | |k|] eqn:Hk; simpl; try discriminate.
    destruct (String.eqb_spec k "taskRequest") as [->|]; [eauto | discriminate].
  - intros (cls & props & -> & Hk). simpl. rewrite Hk. reflexivity.
Qed.

(** Either nothing was sent, or the trace ends with the two calls of lines
    196-197 for the status and output the [try]/[catch] produced. *)
Lemma handleAction_sends p (w : W) :
  exists evs,
    trace (snd (handleAction imports p w)) = trace w ++ evs /\
    (forallb beforeResponse evs = true \/
     exists pre st w0 w1 statusCode output,
       evs = pre ++ responseEvents statusCode output /\
       forallb beforeResponse pre = true /\
       prepare imports p w = (Ok st, w0) /\
       tryCatch (attempt imports p st) recover w0 = (Ok (statusCode, output), w1)).
Proof.
  destruct (String.eqb_spec (action p) "task") as [Htask|Hact].
  - unfold handleAction. rewrite Htask. simpl. munfold. simpl.
    destruct (handleTask imports _ _ _ _ _) as [r s]. simpl.
    exists [EvHandleTask (input p)]. auto.
  - rewrite handleAction_pipeline by assumption.
    destruct (prepare imports p w) as [[st|e] w0] eqn:Hprep.
    + destruct (prepare_run _ _ _ _ Hprep) as (pevs & Htp & HPp & Hr0 & _).
      destruct (tryCatch (attempt imports p st) recover w0) as [[[sc out]|e] w1] eqn:Hg;
        destruct (guarded_steps _ _ _ _ _ Hg) as (gevs & Htg & HPg & Hrg).
      * destruct (respond_run w1 _ _ sc out (eq_trans Hrg Hr0)) as (r & -> & _).
        exists ((pevs ++ gevs) ++ responseEvents sc out). simpl.
        rewrite Htg, Htp, <- !app_assoc. split; [reflexivity|].
        right. exists (pevs ++ gevs), st, w0, w1, sc, out.
        rewrite <- !app_assoc, forallb_app.
        rewrite (forallb_weaken _ _ _ prepare_events HPp).
        rewrite (forallb_weaken _ _ _ tryEvent_beforeResponse HPg). auto.
      * exists (pevs ++ gevs). simpl. rewrite Htg, Htp, <- !app_assoc.
        split; [reflexivity|]. left. rewrite forallb_app.
        rewrite (forallb_weaken _ _ _ prepare_events HPp).
        rewrite (forallb_weaken _ _ _ tryEvent_beforeResponse HPg). reflexivity.
    + destruct (prepare_run _ _ _ _ Hprep) as (pevs & Htp & HPp & _).
      exists pevs. simpl. split; [assumption|]. left.
      eauto using forallb_weaken, prepare_events.
Qed.

(** ** The shape of a response *)

(** Every response [handleAction] sends has status 200 or 500.  Its type is
    "task" exactly when the output is an object whose [kind] is
    "taskRequest", and "response" otherwise ([null] included).  A response
    with status 500 is never a task: its output is an object with the single
    property [error]. *)
Theorem response_shape p (w : W) :
  exists evs,
    trace (snd (handleAction imports p w)) = trace w ++ evs /\
    forall type statusCode output,
      In (EvSend type statusCode output) evs ->
      type = responseType output /\
      (type = "task" <-> taskShaped output) /\
      (statusCode = 200 \/
       (statusCode = 500 /\ type = "response" /\
        exists x, output = VObj "Object" [("error", x)])).
Proof.
  destruct (handleAction_sends p w) as (evs & Ht & Hcases).
  exists evs. split; [exact Ht|]. intros type sc out Hin.
  destruct Hcases as [Hquiet|(pre & st & w0 & w1 & sc' & out' & -> & Hpre & _ & Hg)].
  - rewrite forallb_forall in Hquiet. specialize (Hquiet _ Hin). discriminate Hquiet.
  - apply in_app_or in Hin as [Hin|Hin].
    + rewrite forallb_forall in Hpre. specialize (Hpre _ Hin). discriminate Hpre.
    + destruct Hin as [Heq|[Heq|[]]]; [|discriminate Heq].
      injection Heq as <- <- <-. split; [reflexivity|].
      split; [apply responseType_task|].
      destruct (guarded_status _ _ _ _ _ _ Hg) as [->|(-> & x & ->)]; [auto|].
      right. split; [reflexivity|]. split; [reflexivity|]. eauto.
Qed.

(** *** Outcomes without an inline entry *)

(** A failure in an invocation that holds no inline entry is answered
    without any call to the cache backend: whatever the backend would do,
    the error (not a [CacheFoundError], not [null] or [undefined]) is logged
    unless silent and answered with status 500, [setError] is not called and
    the store is left as it was. *)
Theorem failure_without_entry p st (w w0 w1 : W) e :
  action p <> "task" ->
  prepare imports p w = (Ok st, w0) ->
  attempt imports p st w0 = (Throw e, w1) ->
  inlineCache w1 = None ->
  instanceofCacheFoundError e = false -> nullish e = false ->
  exists r,
    handleAction imports p w =
      (Ok tt, {| trace := trace w1 ++ warned e ++
                   [EvSend "response" 500 (errorPayload e (getPropOpt e "message"));
                    EvSetSendResponse 0];
                 store := store w1; inlineCache := None;
                 responder := Some r |}).
Proof.
  intros Hact Hprep Hatt Hic Hcfe Hobj.
  pose proof (recover_without_entry e w1 Hic Hcfe Hobj) as Hrec.
  destruct (guarded_response p w w0 _ st _ _ Hact Hprep
              (eq_trans (caught _ _ _ _ _ Hatt) Hrec)) as (r & Hrun & _).
  exists r. rewrite Hrun. simpl. rewrite <- !app_assoc. reflexivity.
Qed.

(** *** Default errors *)

(** Only [null] is promoted to "Nothing found": whatever the action,
    "resolve" and "captcha" included, any other handler result ([undefined],
    [false], 0, the empty string) is handed to the response transform, whose
    completion is the completion of lines 154-167.  What the transform
    returns is passed to [set] when an entry exists and answered with status
    200; when [set] throws, the [try] block has failed with that error and
    the result is not answered. *)
Theorem only_null_is_promoted p st (w w0 w1 : W) output :
  action p <> "task" ->
  prepare imports p w = (Ok st, w0) ->
  invoke imports p st w0 = (Ok output, w1) ->
  output <> VNull ->
  let ctx := p_migrationCtx st in
  let transformed :=
    match migrations imports !! action p ≫= mig_response with
    | Some adapt => (adapt ctx (p_input st) output,
                     EvMigrationResponse (action p) (p_input st) output)
    | None => (v_response (m_validator ctx) output, EvValidatorResponse output)
    end in
  let w2 := after w1 [snd transformed] (store w1) in
  compute imports p st w0 = (fst transformed, w2) /\
  forall output', fst transformed = Ok output' ->
    successAnswered (handleAction imports p w) (attempt imports p st w0) w2 output'.
Proof.
  intros Hact Hprep Hinv Hout ctx transformed w2.
  assert (Hcomp : compute imports p st w0 = (fst transformed, w2)).
  { rewrite (compute_transforms _ _ _ _ _ Hinv) by (intros ->; contradiction).
    unfold w2, transformed, ctx.
    destruct (migrations imports !! action p ≫= mig_response); reflexivity. }
  split; [exact Hcomp|]. intros output' Ho. rewrite Ho in Hcomp.
  exact (success_outcome _ _ _ _ _ _ Hact Hprep Hcomp).
Qed.

(** *** The closure variable after the handler *)

Lemma keepsEntry_ret {A} (a : A) : keepsEntry (mret a : Run A).
Proof. intros w r w' Hrun. injection Hrun as <- <-. reflexivity. Qed.

Lemma keepsEntry_throw {A} e : keepsEntry (throw e : Run A).
Proof. intros w r w' Hrun. injection Hrun as <- <-. reflexivity. Qed.

Lemma keepsEntry_liftOutcome {A} (o : outcome A) : keepsEntry (liftOutcome o : Run A).
Proof. intros w r w' Hrun. injection Hrun as <- <-. reflexivity. Qed.

Lemma keepsEntry_emit ev : keepsEntry (emit ev : Run unit).
Proof. intros w r w' Hrun. injection Hrun as <- <-. reflexivity. Qed.

Lemma keepsEntry_getInlineCache :
  keepsEntry (getInlineCache : Run (option InlineCache)).
Proof. intros w r w' Hrun. injection Hrun as <- <-. reflexivity. Qed.

Lemma keepsEntry_onStore {A} (op : Store -> outcome A * Store) :
  keepsEntry (onStore op : Run A).
Proof.
  intros w r w' Hrun. unfold onStore in Hrun.
  destruct (op (store w)) as [a s]. injection Hrun as <- <-. reflexivity.
Qed.

Lemma keepsEntry_bind {A B} (m : Run A) (f : A -> Run B) :
  keepsEntry m -> (forall a, keepsEntry (f a)) -> keepsEntry (m ≫= f).
Proof.
  intros Hm Hf w r w' Hrun.
  apply bind_inv in Hrun as [(a & w1 & Em & Hrun)|(e & Em & ->)].
  - rewrite (Hf a _ _ _ Hrun). exact (Hm _ _ _ Em).
  - exact (Hm _ _ _ Em).
Qed.

Ltac keeps_tac :=
  repeat first
    [ apply keepsEntry_ret | apply keepsEntry_throw | apply keepsEntry_liftOutcome
    | apply keepsEntry_onStore | apply keepsEntry_getInlineCache
    | apply keepsEntry_emit | apply keepsEntry_bind
    | match goal with
      | |- keepsEntry (match ?x with _ => _ end) => destruct x
      | |- forall _, _ => intro
      end ].

Lemma recover_keepsEntry e : keepsEntry (recover e : Run (Z * value)).
Proof. unfold recover. keeps_tac. Qed.

Lemma compute_unrecorded p st : steps unrecorded (compute imports p st : Run value).
Proof.
  unfold compute. apply steps_bind.
  - eapply steps_weaken; [|apply invoke_events].
    intros ev; destruct ev; intros Hev; first [discriminate Hev | reflexivity].
  - intros output. apply steps_bind; [apply raiseDefaultErrors_steps|]. intros _.
    eapply steps_weaken; [|apply migrateResponse_steps].
    intros ev; destruct ev; intros Hev; first [discriminate Hev | reflexivity].
Qed.

Lemma recover_unrecorded e (w w' : W) r :
  inlineCache w = None -> recover e w = (r, w') ->
  exists evs, trace w' = trace w ++ evs /\ forallb unrecorded evs = true.
Proof.
  intros Hic. unfold recover. destruct (instanceofCacheFoundError e).
  - intros Hrun. injection Hrun as <- <-. exists []. rewrite app_nil_r. auto.
  - munfold. rewrite Hic. simpl.
    destruct (getProp e "message") as [m|te]; simpl.
    + destruct (getProp e "noBacktraceLog") as [n|te]; simpl.
      * destruct (truthy n); simpl; intros Hrun; injection Hrun as <- <-; simpl.
        -- exists []. rewrite app_nil_r. auto.
        -- exists [EvConsoleWarn e]. auto.
      * intros Hrun; injection Hrun as <- <-. exists []. rewrite app_nil_r. auto.
    + intros Hrun; injection Hrun as <- <-. exists []. rewrite app_nil_r. auto.
Qed.

Lemma guarded_recording p st (w0 w1 : W) r :
  tryCatch (attempt imports p st) recover w0 = (r, w1) ->
  exists gevs,
    trace w1 = trace w0 ++ gevs /\
    (inlineCache w1 = None -> forallb unrecorded gevs = true).
Proof.
  intros Hg. destruct (guarded_steps _ _ _ _ _ Hg) as (gevs & Htg & _).
  unfold tryCatch in Hg.
  destruct (attempt imports p st w0) as [[res|e] wa] eqn:Hatt.
  - injection Hg as <- <-. unfold attempt in Hatt.
    apply bind_inv in Hatt as [(out' & wc & Ec & Htail)|(e & _ & He)]; [|discriminate He].
    destruct (compute_unrecorded _ _ _ _ _ Ec) as (cevs & Htc & HPc & _).
    match type of Htail with
    | ?tail wc = _ => assert (Hk : keepsEntry tail) by keeps_tac
    end.
    pose proof (Hk _ _ _ Htail) as Hkeep.
    exists gevs. split; [assumption|]. intros Hnone. rewrite Hnone in Hkeep.
    munfold. rewrite <- Hkeep in Htail. simpl in Htail.
    injection Htail as _ <-. rewrite Htc in Htg.
    apply app_inv_head in Htg. subst gevs. exact HPc.
  - unfold attempt in Hatt.
    apply bind_inv in Hatt as [(out' & wc & Ec & Htail)|(e' & Ec & He)].
    + destruct (compute_unrecorded _ _ _ _ _ Ec) as (cevs & Htc & HPc & _).
      match type of Htail with
      | ?tail wc = _ => assert (Hk : keepsEntry tail) by keeps_tac
      end.
      pose proof (Hk _ _ _ Htail) as Hkeep.
      pose proof (recover_keepsEntry _ _ _ _ Hg) as Hkeep'.
      exists gevs. split; [assumption|]. intros Hnone.
      rewrite Hnone, Hkeep in Hkeep'.
      munfold. rewrite <- Hkeep' in Htail. simpl in Htail. discriminate Htail.
    + destruct (compute_unrecorded _ _ _ _ _ Ec) as (cevs & Htc & HPc & _).
      pose proof (recover_keepsEntry _ _ _ _ Hg) as Hkeep'.
      exists gevs. split; [assumption|]. intros Hnone. rewrite Hnone in Hkeep'.
      destruct (recover_unrecorded _ _ _ _ (eq_sym Hkeep') Hg) as (revs & Htr & HPr).
      rewrite Htr, Htc, <- app_assoc in Htg. apply app_inv_head in Htg. subst gevs.
      rewrite forallb_app, HPc, HPr. reflexivity.
Qed.

(** ** No entry, no recording *)

(** [handleAction] calls [set] or [setError] only on an entry the handler
    obtained through [requestCache] during this invocation: when the closure
    variable is empty at the end, neither has been called, whichever way the
    invocation went. *)
Theorem no_entry_no_recording p (w : W) :
  action p <> "task" ->
  inlineCache (snd (handleAction imports p w)) = None ->
  exists evs,
    trace (snd (handleAction imports p w)) = trace w ++ evs /\
    calls isRecording evs = 0%nat.
Proof.
  intros Hact. rewrite handleAction_pipeline by assumption.
  assert (Hcount : forall evs, forallb unrecorded evs = true -> calls isRecording evs = 0%nat).
  { intros evs. apply calls_none. intros ev. unfold unrecorded.
    destruct (isRecording ev); [discriminate|auto]. }
  assert (Hprepare : forall evs, forallb isPrepareEvent evs = true ->
                                 forallb unrecorded evs = true).
  { intros evs. apply forallb_weaken.
    intros ev; destruct ev; intros Hev; first [discriminate Hev | reflexivity]. }
  destruct (prepare imports p w) as [[st|e] w0] eqn:Hprep.
  - destruct (prepare_run _ _ _ _ Hprep) as (pevs & Htp & HPp & Hr0 & _).
    destruct (tryCatch (attempt imports p st) recover w0) as [[[sc out]|e] w1] eqn:Hg;
      destruct (guarded_recording _ _ _ _ _ Hg) as (gevs & Htg & Hrec);
      destruct (guarded_steps _ _ _ _ _ Hg) as (_ & _ & _ & Hrg).
    + destruct (respond_run w1 _ _ sc out (eq_trans Hrg Hr0)) as (r & -> & _).
      simpl. intros Hnone. exists (pevs ++ gevs ++ responseEvents sc out).
      rewrite Htg, Htp, <- !app_assoc. split; [reflexivity|].
      rewrite !calls_app, (Hcount _ (Hprepare _ HPp)), (Hcount _ (Hrec Hnone)).
      reflexivity.
    + simpl. intros Hnone. exists (pevs ++ gevs).
      rewrite Htg, Htp, <- !app_assoc. split; [reflexivity|].
      rewrite !calls_app, (Hcount _ (Hprepare _ HPp)), (Hcount _ (Hrec Hnone)).
      reflexivity.
  - destruct (prepare_run _ _ _ _ Hprep) as (pevs & Htp & HPp & _).
    simpl. intros _. exists pevs. split; [assumption|]. auto.
Qed.

(** ** Unknown actions *)

(** An action without a handler fails first: [handleAction] rethrows the
    error of [getActionHandler] and has called nothing else, not even
    [validateSignature], so the answer is the same with and without a valid
    signature. *)
Theorem unknown_action_fails_first p (w : W) e :
  action p <> "task" ->
  getActionHandler (addon p) (action p) = Throw e ->
  handleAction imports p w =
    (Throw e, {| trace := trace w ++ [EvGetActionHandler (action p)];
                 store := store w; inlineCache := inlineCache w;
                 responder := responder w |}) /\
  forall sig', handleAction imports (withSig p sig') w = handleAction imports p w.
Proof.
  intros Hact Hh.
  assert (Hrun : forall q : Props,
             action q = action p -> addon q = addon p ->
             handleAction imports q w =
               (Throw e, {| trace := trace w ++ [EvGetActionHandler (action p)];
                            store := store w; inlineCache := inlineCache w;
                            responder := responder w |})).
  { intros q Ha Hd. unfold handleAction, prepare. rewrite Ha, Hd.
    destruct (String.eqb_spec (action p) "task") as [|_]; [contradiction|].
    munfold. simpl. rewrite Hh. reflexivity. }
  split; [apply Hrun; reflexivity|].
  intros sig'. rewrite (Hrun p eq_refl eq_refl). apply Hrun; reflexivity.
Qed.

(** ** Signatures of exempt invocations *)

(** When the action is "task" or exempt from signature validation, the
    signature is not looked at: the invocation runs the same way whatever
    signature it carries. *)
Theorem signature_ignored_when_exempt p sig' (w : W) :
  action p = "task" \/ authExempt imports (addon p) (action p) = true ->
  handleAction imports (withSig p sig') w = handleAction imports p w.
Proof.
  intros Hcase. unfold handleAction. simpl.
  destruct (String.eqb_spec (action p) "task") as [_|Hact]; [reflexivity|].
  destruct Hcase as [Htask|Hex]; [contradiction|].
  unfold prepare, resolveSigData. simpl. rewrite Hex. reflexivity.
Qed.

(** ** Invocations do not share their locals *)

Lemma prepare_isolated p (w : W) :
  match prepare imports p w, prepare imports p (withoutLocals w) with
  | (Ok st, w0), (Ok st', w0') => st = st' /\ w0 = w0'
  | (Throw e, w0), (Throw e', w0') =>
      e = e' /\ trace w0 = trace w0' /\ store w0 = store w0'
  | _, _ => False
  end.
Proof.
  unfold prepare, resolveSigData, migrateRequest, entryRequest, validatorRequest.
  destruct (migrations imports !! action p ≫= mig_request) as [adapt|];
    munfold; simpl;
    destruct (getActionHandler (addon p) (action p)) as [h|]; simpl; auto;
    (destruct (authExempt imports (addon p) (action p)); simpl;
       [|destruct (validateSignature imports (sig p)) as [sigData|]; simpl; auto]).
  - match goal with |- context [adapt ?c ?i] => destruct (adapt c i) as [[data input']|] end;
      simpl; auto.
  - match goal with |- context [adapt ?c ?i] => destruct (adapt c i) as [[data input']|] end;
      simpl; auto.
  - match goal with |- context [v_request ?v ?i] => destruct (v_request v i) end;
      simpl; auto.
  - match goal with |- context [v_request ?v ?i] => destruct (v_request v i) end;
      simpl; auto.
Qed.

(** [inlineCache] and the responder are locals of one invocation: an
    invocation that starts where another one ended completes the same way,
    makes the same calls and leaves the same store as if the entry and the
    responder of the earlier invocation had never existed. *)
Theorem invocation_isolated p (w : W) :
  action p <> "task" ->
  fst (handleAction imports p w) = fst (handleAction imports p (withoutLocals w)) /\
  trace (snd (handleAction imports p w))
    = trace (snd (handleAction imports p (withoutLocals w))) /\
  store (snd (handleAction imports p w))
    = store (snd (handleAction imports p (withoutLocals w))).
Proof.
  intros Hact. rewrite !handleAction_pipeline by assumption.
  pose proof (prepare_isolated p w) as Hiso.
  destruct (prepare imports p w) as [[st|e] w0],
           (prepare imports p (withoutLocals w)) as [[st'|e'] w0'];
    try contradiction.
  - destruct Hiso as [<- <-]. auto.
  - destruct Hiso as (<- & Ht & Hs). auto.
Qed.

End Properties.

(** * Runs of the demo addon *)

Import Memory Demo ReadOnly.

(** Evaluate a run of the model and keep the equation. *)
Ltac run_of c H :=
  let v := eval vm_compute in c in
  assert (H : c = v) by (vm_compute; reflexivity).

(** ** Exactly one response *)

(** An unknown action: handler resolution throws, [handleAction] rethrows,
    and [responder.send] has not been called once. *)
Lemma unknown_action_sends_nothing :
  let run := handleAction demoImports (mkProps "nope" keyA "good") world0 in
  fst run = Throw (newError "No handler for this action") /\
  trace (snd run) = [EvGetActionHandler "nope"] /\
  calls isSend (trace (snd run)) <> 1%nat.
Proof. vm_compute. repeat split; discriminate. Qed.

Lemma exactly_one_response_witness :
  action (mkProps "directory" keyA "good") <> "task" /\
  exists w2 evs r,
    handleAction demoImports (mkProps "directory" keyA "good") world0 = (Ok tt, w2) /\
    trace w2 = trace world0 ++ evs /\
    calls isSend evs = 1%nat /\
    responder w2 = Some r /\
    forall type statusCode output,
      Responder_send r type statusCode output =
        (Throw (newError "Response was already sent"), r).
Proof.
  assert (Hact : action (mkProps "directory" keyA "good") <> "task") by discriminate.
  split; [exact Hact|].
  run_of (prepare demoImports (mkProps "directory" keyA "good") world0) Hprep.
  refine (proj1 (proj2 (exactly_one_response demoImports
                          (mkProps "directory" keyA "good") world0 Hact))
            _ _ Hprep _).
  intros e w1 Hatt _. vm_compute in Hatt. injection Hatt as <- <-.
  split; [reflexivity|]. intros entry Hic. injection Hic as <-.
  eexists. reflexivity.
Defined.

(** A handler that awaits the fetch capability and returns the task request
    it completed with: the one response of the invocation is of type
    "task". *)
Example fetch_task_answered_once :
  let run := handleAction demoImports (mkProps "iptv" keyA "good") world0 in
  fst run = Ok tt /\
  calls isSend (trace (snd run)) = 1%nat /\
  List.filter isSend (trace (snd run)) =
    [EvSend "task" 200
       (VObj "Object" [("kind", VStr "taskRequest"); ("type", VStr "fetch");
                       ("payload", keyA)])].
Proof. vm_compute. repeat split. Qed.

(** ** Failures *)

(** A bad signature on an action that requires one: the error leaves
    [handleAction]; no response of any status is sent and nothing is
    logged. *)
Lemma bad_signature_not_answered :
  let run := handleAction demoImports (mkProps "resolve" keyA "bad") world0 in
  fst run = Throw (newError "Invalid signature") /\
  trace (snd run) = [EvGetActionHandler "resolve"; EvValidateSignature "bad"] /\
  calls isSend (trace (snd run)) = 0%nat /\
  calls isWarn (trace (snd run)) = 0%nat.
Proof. vm_compute. repeat split. Qed.

Lemma failure_response_witness :
  exists st w0 w1,
    prepare demoImports (mkProps "directory" keyA "good") world0 = (Ok st, w0) /\
    attempt demoImports (mkProps "directory" keyA "good") st w0
      = (Throw (newError "boom"), w1) /\
    answered (handleAction demoImports (mkProps "directory" keyA "good") world0) w1
      [EvInlineSetError (newError "boom"); EvConsoleWarn (newError "boom")]
      {[ "demo:A" := FoundError (VStr "boom") ]}
      500 (VObj "Object" [("error", VStr "boom")]).
Proof.
  assert (Hact : action (mkProps "directory" keyA "good") <> "task") by discriminate.
  run_of (prepare demoImports (mkProps "directory" keyA "good") world0) Hprep.
  match type of Hprep with
  | _ = (Ok ?st, ?w0) =>
      run_of (attempt demoImports (mkProps "directory" keyA "good") st w0) Hatt
  end.
  pose proof (proj1 (proj2 (failure_response demoImports
                              (mkProps "directory" keyA "good") world0 Hact))
                _ _ _ _ Hprep Hatt eq_refl eq_refl) as Hrun.
  cbv zeta in Hrun. destruct Hrun as [_ Hrun].
  eexists _, _, _. split; [exact Hprep|]. split; [exact Hatt|]. exact Hrun.
Defined.

(** A thrown string has no message: the payload carries the string
    itself. *)
Example thrown_string_payload :
  errorPayload (VStr "bad") (getPropOpt (VStr "bad") "message")
    = VObj "Object" [("error", VStr "bad")] /\
  errorPayload (newError "") (getPropOpt (newError "") "message")
    = VObj "Object" [("error", newError "")].
Proof. split; reflexivity. Qed.

(** ** Cache short-circuit *)

(** A second request for a key whose success is recorded: the lookup signals
    the short-circuit, and it does so from inside the handler, which has been
    invoked. *)
Lemma short_circuit_runs_handler :
  let run := handleAction demoImports (mkProps "fetchItem" keyA "good") worldFound in
  inline (clone demoCache VUndefined) (VStr "A") (store worldFound) =
    (Throw (CacheFoundError (VNum 42) VNull), store worldFound) /\
  trace (snd run) =
    [EvGetActionHandler "fetchItem"; EvValidateSignature "good";
     EvValidatorRequest keyA; EvCacheClone (VObj "Object" [("prefix", VStr "demo")]);
     EvHandler keyA (VObj "Object" [("user", VStr "u1")]);
     EvCacheClone VUndefined; EvInline (VStr "A");
     EvSend "response" 200 (VNum 42); EvSetSendResponse 0] /\
  calls isHandlerEvent (trace (snd run)) <> 0%nat.
Proof. vm_compute. repeat split. discriminate. Qed.

Lemma short_circuit_response_witness :
  exists st w0 w1 hevs r,
    prepare demoImports (mkProps "fetchItem" keyA "good") worldFound = (Ok st, w0) /\
    invoke demoImports (mkProps "fetchItem" keyA "good") st w0
      = (Throw (CacheFoundError (VNum 42) VNull), w1) /\
    trace w1 = trace w0 ++ EvHandler (p_input st) (p_sigData st) :: hevs /\
    forallb isRequestCacheEvent hevs = true /\
    handleAction demoImports (mkProps "fetchItem" keyA "good") worldFound =
      (Ok tt, {| trace := trace w1 ++ [EvSend "response" 200 (VNum 42);
                                        EvSetSendResponse 0];
                 store := store w1; inlineCache := inlineCache w1;
                 responder := Some r |}).
Proof.
  assert (Hact : action (mkProps "fetchItem" keyA "good") <> "task") by discriminate.
  run_of (prepare demoImports (mkProps "fetchItem" keyA "good") worldFound) Hprep.
  match type of Hprep with
  | _ = (Ok ?st, ?w0) => run_of (invoke demoImports (mkProps "fetchItem" keyA "good") st w0) Hinv
  end.
  destruct (short_circuit_response demoImports (mkProps "fetchItem" keyA "good")
              _ _ _ _ _ Hact Hprep Hinv eq_refl) as (hevs & r & Ht & HP & Hrun & _).
  eexists _, _, _, hevs, r.
  split; [exact Hprep|]. split; [exact Hinv|]. split; [exact Ht|]. split; [exact HP|].
  exact Hrun.
Defined.

Lemma short_circuit_by_result_witness :
  exists st w0 w1 r,
    prepare demoImports (mkProps "fetchItem" keyA "good") worldFailed = (Ok st, w0) /\
    attempt demoImports (mkProps "fetchItem" keyA "good") st w0
      = (Throw (CacheFoundError VUndefined (VStr "boom")), w1) /\
    handleAction demoImports (mkProps "fetchItem" keyA "good") worldFailed =
      (Ok tt, {| trace := trace w1 ++
                   [EvSend "response" 500 (VObj "Object" [("error", VStr "boom")]);
                    EvSetSendResponse 0];
                 store := store w1; inlineCache := inlineCache w1;
                 responder := Some r |}).
Proof.
  assert (Hact : action (mkProps "fetchItem" keyA "good") <> "task") by discriminate.
  run_of (prepare demoImports (mkProps "fetchItem" keyA "good") worldFailed) Hprep.
  match type of Hprep with
  | _ = (Ok ?st, ?w0) =>
      run_of (attempt demoImports (mkProps "fetchItem" keyA "good") st w0) Hatt
  end.
  destruct (proj1 (short_circuit_by_result demoImports (mkProps "fetchItem" keyA "good")
                     _ _ _ _ _ Hact Hprep Hatt eq_refl)) as (r & Hrun).
  eexists _, _, _, r. split; [exact Hprep|]. split; [exact Hatt|]. exact Hrun.
Defined.

(** ** Recording the outcome *)

(** A backend that refuses writes: the handler engages the dedup capability
    and fails; [setError] is called with the failure and throws, its error
    leaves [handleAction], the failure is not recorded and no response of
    any status is sent. *)
Lemma failed_recording_not_answered :
  let run := handleAction ReadOnly.roImports (ReadOnly.roProps keyA) ReadOnly.roWorld in
  fst run = Throw ReadOnly.refused /\
  trace (snd run) =
    [EvGetActionHandler "directory"; EvValidatorRequest keyA;
     EvCacheClone (VObj "Object" [("prefix", VStr "demo")]);
     EvHandler keyA VNull;
     EvCacheClone VUndefined; EvInline (VStr "A");
     EvInlineSetError (newError "boom")] /\
  calls isInlineSetError (trace (snd run)) = 1%nat /\
  calls isSend (trace (snd run)) = 0%nat.
Proof. vm_compute. repeat split. Qed.

(** With the same backend and a handler that succeeds, [set] throws: the
    output 42 is neither recorded nor answered; [setError] is then called
    with the error of [set] and throws as well, so nothing is sent. *)
Example failed_set_turns_into_failure :
  let run := handleAction ReadOnly.roImports
               (ReadOnly.roProps (VObj "Object" [("key", VStr "A"); ("succeed", VBool true)]))
               ReadOnly.roWorld in
  fst run = Throw ReadOnly.refused /\
  List.filter isRecording (trace (snd run)) =
    [EvInlineSet (VNum 42); EvInlineSetError ReadOnly.refused] /\
  calls isSend (trace (snd run)) = 0%nat.
Proof. vm_compute. repeat split. Qed.

Lemma outcome_recorded_before_response_witness :
  (exists st w0 w1,
     prepare demoImports (mkProps "fetchItem" keyA "good") world0 = (Ok st, w0) /\
     compute demoImports (mkProps "fetchItem" keyA "good") st w0 = (Ok (VNum 42), w1) /\
     inlineCache w1 = Some "demo:A" /\
     (exists pre, trace w1 = trace world0 ++ pre /\ calls isSend pre = 0%nat) /\
     answered (handleAction demoImports (mkProps "fetchItem" keyA "good") world0) w1
       [EvInlineSet (VNum 42)] {[ "demo:A" := Found (VNum 42) ]} 200 (VNum 42)) /\
  (exists st w0 w1,
     prepare demoImports (mkProps "directory" keyA "good") world0 = (Ok st, w0) /\
     attempt demoImports (mkProps "directory" keyA "good") st w0
       = (Throw (newError "boom"), w1) /\
     inlineCache w1 = Some "demo:A" /\
     (exists pre, trace w1 = trace world0 ++ pre /\ calls isSend pre = 0%nat) /\
     answered (handleAction demoImports (mkProps "directory" keyA "good") world0) w1
       [EvInlineSetError (newError "boom"); EvConsoleWarn (newError "boom")]
       {[ "demo:A" := FoundError (VStr "boom") ]}
       500 (VObj "Object" [("error", VStr "boom")])).
Proof.
  split.
  - assert (Hact : action (mkProps "fetchItem" keyA "good") <> "task") by discriminate.
    run_of (prepare demoImports (mkProps "fetchItem" keyA "good") world0) Hprep.
    match type of Hprep with
    | _ = (Ok ?st, ?w0) =>
        run_of (compute demoImports (mkProps "fetchItem" keyA "good") st w0) Hc
    end.
    match type of Hc with
    | _ = (_, ?w1) =>
        destruct (proj1 (outcome_recorded_before_response demoImports
                           (mkProps "fetchItem" keyA "good") _ _ _ Hact Hprep)
                    _ w1 "demo:A" Hc eq_refl) as (Hpre & Hrun)
    end.
    eexists _, _, _.
    split; [exact Hprep|]. split; [exact Hc|]. split; [reflexivity|].
    split; [exact Hpre|]. exact Hrun.
  - assert (Hact : action (mkProps "directory" keyA "good") <> "task") by discriminate.
    run_of (prepare demoImports (mkProps "directory" keyA "good") world0) Hprep.
    match type of Hprep with
    | _ = (Ok ?st, ?w0) =>
        run_of (attempt demoImports (mkProps "directory" keyA "good") st w0) Hatt
    end.
    match type of Hatt with
    | _ = (_, ?w1) =>
        destruct (proj1 (proj2 (outcome_recorded_before_response demoImports
                                  (mkProps "directory" keyA "good") _ _ _ Hact Hprep))
                    _ w1 "demo:A" Hatt eq_refl eq_refl) as (Hpre & Hrun)
    end.
    eexists _, _, _.
    split; [exact Hprep|]. split; [exact Hatt|]. split; [reflexivity|].
    split; [exact Hpre|]. exact Hrun.
Defined.

(** ** Signature validation *)

(** Invocations that do not reach the signature check: the action "task"
    is redirected at line 74, and an action without a handler stops at
    line 85; in neither is [validateSignature] called. *)
Example routed_away_before_signature :
  SKIP_AUTH demoImports = None /\
  authExempt demoImports demoAddon "task" = false /\
  calls isValidateSignature
    (trace (snd (handleAction demoImports (mkProps "task" keyA "bad") world0))) = 0%nat /\
  fst (handleAction demoImports (mkProps "task" keyA "bad") world0) = Ok tt /\
  authExempt demoImports demoAddon "nope" = false /\
  calls isValidateSignature
    (trace (snd (handleAction demoImports (mkProps "nope" keyA "bad") world0))) = 0%nat.
Proof. vm_compute. repeat split. Qed.

Lemma signature_policy_witness :
  action (mkProps "resolve" keyA "bad") <> "task" /\
  getActionHandler (addon (mkProps "resolve" keyA "bad")) "resolve" = Ok returnsNull /\
  authExempt demoImports demoAddon "resolve" = false /\
  fst (handleAction demoImports (mkProps "resolve" keyA "bad") world0)
    = Throw (newError "Invalid signature") /\
  trace (snd (handleAction demoImports (mkProps "resolve" keyA "bad") world0))
    = [EvGetActionHandler "resolve"; EvValidateSignature "bad"].
Proof.
  assert (Hact : action (mkProps "resolve" keyA "bad") <> "task") by discriminate.
  assert (Hh : getActionHandler (addon (mkProps "resolve" keyA "bad"))
                 (action (mkProps "resolve" keyA "bad")) = Ok returnsNull)
    by reflexivity.
  destruct (signature_policy demoImports (mkProps "resolve" keyA "bad") world0
              returnsNull Hact Hh) as (_ & rest & Ht & _ & _ & Hfail).
  destruct (Hfail eq_refl (newError "Invalid signature") eq_refl) as (Hrun & Hrest).
  split; [exact Hact|]. split; [exact Hh|]. split; [reflexivity|].
  split; [exact Hrun|]. rewrite Ht, Hrest. reflexivity.
Defined.

(** ** Task redirection *)

Lemma task_redirect_witness :
  handleAction demoImports (mkProps "task" keyA "") world0 =
    (Ok tt, {| trace := [EvHandleTask keyA]; store := ∅;
               inlineCache := None; responder := None |}).
Proof. exact (task_redirect demoImports (mkProps "task" keyA "") world0 eq_refl). Defined.

(** ** The dedup capability *)

Lemma requestCache_overlap_witness :
  let ctx := handlerContext (mkProps "search" keyA "good") VNull demoCache in
  let both := HRequestCacheAll [(VStr "a", VUndefined); (VStr "b", VUndefined)]
                (fun rs => HReturn VNull) in
  inlineCache world0 = None /\
  inline (clone demoCache VUndefined) (VStr "a") (store world0) = (Ok "demo:a", ∅) /\
  inline (clone demoCache VUndefined) (VStr "b") ∅ = (Ok "demo:b", ∅) /\
  runHandler demoImports demoCache ctx both world0 =
    (Ok VNull,
     {| trace := [EvCacheClone VUndefined; EvInline (VStr "a");
                  EvCacheClone VUndefined; EvInline (VStr "b")];
        store := ∅; inlineCache := Some "demo:b"; responder := None |}).
Proof.
  intros ctx both. split; [reflexivity|]. split; [reflexivity|]. split; [reflexivity|].
  exact (proj2 (proj2 (requestCache_overlap demoImports demoCache ctx
                         (VStr "a") VUndefined (VStr "b") VUndefined
                         (fun rs => HReturn VNull) world0 "demo:a" "demo:b" ∅ ∅
                         eq_refl eq_refl eq_refl))).
Defined.

(** A handler that starts two calls of the dedup capability at once: both
    lookups reach the backend and both calls succeed; only the entry of the
    second call is completed when the invocation ends, the entry handed out
    for "a" is left without [set] or [setError]. *)
Example overlapping_calls_both_served :
  let run := handleAction demoImports (mkProps "search" keyA "good") world0 in
  fst run = Ok tt /\
  List.filter isInline (trace (snd run)) = [EvInline (VStr "a"); EvInline (VStr "b")] /\
  List.filter isSend (trace (snd run)) = [EvSend "response" 200 (VNum 2)] /\
  inlineCache (snd run) = Some "demo:b" /\
  store (snd run) = {[ "demo:b" := Found (VNum 2) ]}.
Proof. vm_compute. repeat split. Qed.

(** ** Null results *)

(** A validator whose response schema has no place for [null]: the handler
    of "item" returns [null], the response transform rejects it, and the
    answer has status 500, not 200. *)
Lemma null_rejected_by_validator :
  let run := handleAction strictImports (mkProps "item" keyA "good") world0 in
  fst run = Ok tt /\
  trace (snd run) =
    [EvGetActionHandler "item"; EvValidateSignature "good";
     EvValidatorRequest keyA;
     EvCacheClone (VObj "Object" [("prefix", VStr "demo")]);
     EvHandler keyA (VObj "Object" [("user", VStr "u1")]);
     EvValidatorResponse VNull;
     EvConsoleWarn (newError "Invalid response");
     EvSend "response" 500 (VObj "Object" [("error", VStr "Invalid response")]);
     EvSetSendResponse 0] /\
  List.filter isSend (trace (snd run)) <> [EvSend "response" 200 VNull].
Proof. vm_compute. repeat split. discriminate. Qed.

Lemma null_result_witness :
  (exists st w0 w1,
     prepare demoImports (mkProps "resolve" keyA "good") world0 = (Ok st, w0) /\
     invoke demoImports (mkProps "resolve" keyA "good") st w0 = (Ok VNull, w1) /\
     answered (handleAction demoImports (mkProps "resolve" keyA "good") world0) w1
       [EvConsoleWarn (newError "Nothing found")] ∅
       500 (VObj "Object" [("error", VStr "Nothing found")])) /\
  (exists st w0 w1,
     prepare demoImports (mkProps "item" keyA "good") world0 = (Ok st, w0) /\
     invoke demoImports (mkProps "item" keyA "good") st w0 = (Ok VNull, w1) /\
     answered (handleAction demoImports (mkProps "item" keyA "good") world0)
       (after w1 [EvValidatorResponse VNull] ∅) [] ∅ 200 VNull) /\
  (exists st w0 w1,
     prepare strictImports (mkProps "item" keyA "good") world0 = (Ok st, w0) /\
     invoke strictImports (mkProps "item" keyA "good") st w0 = (Ok VNull, w1) /\
     answered (handleAction strictImports (mkProps "item" keyA "good") world0)
       (after w1 [EvValidatorResponse VNull] ∅)
       [EvConsoleWarn (newError "Invalid response")] ∅
       500 (VObj "Object" [("error", VStr "Invalid response")])).
Proof.
  split; [|split].
  - assert (Hact : action (mkProps "resolve" keyA "good") <> "task") by discriminate.
    run_of (prepare demoImports (mkProps "resolve" keyA "good") world0) Hprep.
    match type of Hprep with
    | _ = (Ok ?st, ?w0) => run_of (invoke demoImports (mkProps "resolve" keyA "good") st w0) Hinv
    end.
    destruct (proj1 (proj2 (null_result demoImports (mkProps "resolve" keyA "good")
                              _ _ _ _ Hact Hprep Hinv)) (or_introl eq_refl))
      as (_ & _ & _ & Hrun).
    eexists _, _, _. split; [exact Hprep|]. split; [exact Hinv|]. exact Hrun.
  - assert (Hact : action (mkProps "item" keyA "good") <> "task") by discriminate.
    run_of (prepare demoImports (mkProps "item" keyA "good") world0) Hprep.
    match type of Hprep with
    | _ = (Ok ?st, ?w0) =>
        run_of (invoke demoImports (mkProps "item" keyA "good") st w0) Hinv
    end.
    assert (Hr : action (mkProps "item" keyA "good") <> "resolve") by discriminate.
    assert (Hc : action (mkProps "item" keyA "good") <> "captcha") by discriminate.
    pose proof (proj2 (proj2 (null_result demoImports (mkProps "item" keyA "good") _ _ _ _
                                Hact Hprep Hinv)) Hr Hc) as Hrun.
    eexists _, _, _. split; [exact Hprep|]. split; [exact Hinv|]. exact Hrun.
  - assert (Hact : action (mkProps "item" keyA "good") <> "task") by discriminate.
    run_of (prepare strictImports (mkProps "item" keyA "good") world0) Hprep.
    match type of Hprep with
    | _ = (Ok ?st, ?w0) =>
        run_of (invoke strictImports (mkProps "item" keyA "good") st w0) Hinv
    end.
    assert (Hr : action (mkProps "item" keyA "good") <> "resolve") by discriminate.
    assert (Hc : action (mkProps "item" keyA "good") <> "captcha") by discriminate.
    pose proof (proj2 (proj2 (null_result strictImports (mkProps "item" keyA "good") _ _ _ _
                                Hact Hprep Hinv)) Hr Hc) as Hrun.
    eexists _, _, _. split; [exact Hprep|]. split; [exact Hinv|].
    exact (proj2 Hrun eq_refl eq_refl).
Defined.

(** ** Migration fallback *)

(** The entry registered for "item" has a request adapter and no response
    adapter: within one invocation the request goes through the entry and the
    response through the validator. *)
Lemma partial_entry_blends :
  (exists entry, migrations demoImports !! "item" = Some entry /\
                 mig_response entry = None) /\
  trace (snd (handleAction demoImports (mkProps "item" keyA "good") world0)) =
    [EvGetActionHandler "item"; EvValidateSignature "good";
     EvMigrationRequest "item" keyA;
     EvCacheClone (VObj "Object" [("prefix", VStr "demo")]);
     EvHandler (VObj "Object" [("migrated", keyA)]) (VObj "Object" [("user", VStr "u1")]);
     EvValidatorResponse VNull;
     EvSend "response" 200 VNull; EvSetSendResponse 0].
Proof.
  split.
  - exists {| mig_request := Some tagRequest; mig_response := None |}.
    split; reflexivity.
  - vm_compute. reflexivity.
Qed.

Lemma migration_per_direction_witness :
  migrations demoImports !! "resolve" = None /\
  migrateRequest demoImports demoCtx "resolve" keyA world0
    = (Ok (demoCtx, keyA), after world0 [EvValidatorRequest keyA] ∅) /\
  migrateResponse demoImports demoCtx "resolve" keyA VNull world0
    = (Ok VNull, after world0 [EvValidatorResponse VNull] ∅).
Proof.
  assert (Hnone : migrations demoImports !! "resolve" = None) by reflexivity.
  split; [exact Hnone|].
  exact (proj1 (migration_per_direction demoImports (mkProps "resolve" keyA "good")
                  demoCtx keyA VNull world0) Hnone).
Defined.

(** ** Scenarios *)

(** A self-test without a signature: the handler is called with [null] as
    signature data and the answer has status 200. *)
Example selftest_unsigned :
  let run := handleAction demoImports (mkProps "selftest" (VObj "Object" []) "") world0 in
  fst run = Ok tt /\
  trace (snd run) =
    [EvGetActionHandler "selftest"; EvValidatorRequest (VObj "Object" []);
     EvCacheClone (VObj "Object" [("prefix", VStr "demo")]);
     EvHandler (VObj "Object" []) VNull;
     EvValidatorResponse VNull;
     EvSend "response" 200 VNull; EvSetSendResponse 0].
Proof. vm_compute. split; reflexivity. Qed.

(** A handler that returns a task request is answered with the type
    "task". *)
Example task_shaped_output :
  trace (snd (handleAction demoImports (mkProps "captcha" keyA "good") world0)) =
    [EvGetActionHandler "captcha"; EvValidateSignature "good";
     EvValidatorRequest keyA;
     EvCacheClone (VObj "Object" [("prefix", VStr "demo")]);
     EvHandler keyA (VObj "Object" [("user", VStr "u1")]);
     EvValidatorResponse
       (VObj "Object" [("kind", VStr "taskRequest"); ("type", VStr "fetch")]);
     EvSend "task" 200
       (VObj "Object" [("kind", VStr "taskRequest"); ("type", VStr "fetch")]);
     EvSetSendResponse 0].
Proof. vm_compute. reflexivity. Qed.

(** Two identical requests under the key "A": the first computes 42 and
    records it, the second is answered 42 from the record, without a response
    migration and without a second [set]. *)
Example dedup_replays_success :
  let first := handleAction demoImports (mkProps "fetchItem" keyA "good") world0 in
  let second := handleAction demoImports (mkProps "fetchItem" keyA "good")
                  {| trace := []; store := store (snd first);
                     inlineCache := None; responder := None |} in
  store (snd first) = {[ "demo:A" := Found (VNum 42) ]} /\
  fst second = Ok tt /\
  trace (snd second) =
    [EvGetActionHandler "fetchItem"; EvValidateSignature "good";
     EvValidatorRequest keyA;
     EvCacheClone (VObj "Object" [("prefix", VStr "demo")]);
     EvHandler keyA (VObj "Object" [("user", VStr "u1")]);
     EvCacheClone VUndefined; EvInline (VStr "A");
     EvSend "response" 200 (VNum 42); EvSetSendResponse 0] /\
  store (snd second) = store (snd first).
Proof. vm_compute. repeat split. Qed.

(** A failure after the dedup capability was engaged is recorded, and the
    retry is answered with the same status and payload. *)
Example dedup_replays_failure :
  let first := handleAction demoImports (mkProps "directory" keyA "good") world0 in
  let second := handleAction demoImports (mkProps "directory" keyA "good")
                  {| trace := []; store := store (snd first);
                     inlineCache := None; responder := None |} in
  List.filter isSend (trace (snd first)) =
    [EvSend "response" 500 (VObj "Object" [("error", VStr "boom")])] /\
  List.filter isSend (trace (snd second)) =
    [EvSend "response" 500 (VObj "Object" [("error", VStr "boom")])] /\
  calls isRecording (trace (snd second)) = 0%nat /\
  calls isWarn (trace (snd second)) = 0%nat.
Proof. vm_compute. repeat split. Qed.

(** A handler that asks for the dedup capability twice fails on the second
    call; the failure is recorded in the one entry that exists. *)
Example second_requestCache_fails :
  let run := handleAction demoImports (mkProps "greedy" keyA "good") world0 in
  calls isInline (trace (snd run)) = 1%nat /\
  List.filter isSend (trace (snd run)) =
    [EvSend "response" 500
       (VObj "Object" [("error", VStr "Request cache is already set up")])] /\
  store (snd run) = {[ "demo:a" := FoundError (VStr "Request cache is already set up") ]}.
Proof. vm_compute. repeat split. Qed.

(** * Properties of [initializeAddon] *)

Section InitializationProperties.

Context {CacheHandler : Type}.
Variable ii : @InitImports CacheHandler.

(** When [validateAddon] throws, [initializeAddon] throws in turn and the
    request recorder is not set up, whatever the options say.  The error it
    throws is a new [Error] whose message names the addon and ends with the
    message of the original error; nothing else of the original survives, so
    the new error is never silent, even when the original was a
    [SilentError]. *)
Theorem initializeAddon_rejects opts addon e :
  validateAddon ii addon = Throw e ->
  snd (initializeAddon ii opts addon) = [EvValidateAddon] /\
  (exists err, fst (initializeAddon ii opts addon) = Throw err /\
               truthy (getPropOpt err "noBacktraceLog") = false) /\
  (nullish e = false ->
     fst (initializeAddon ii opts addon) =
       Throw (newError (validationMessage ii addon (getPropOpt e "message")))) /\
  (forall s, nullish e = false -> getPropOpt e "message" = VStr s ->
     fst (initializeAddon ii opts addon) =
       Throw (newError ("Validation of addon " ++ dquote ++ getId addon ++ dquote
                        ++ " failed: " ++ s)%string)).
Proof.
  intros Hv. unfold initializeAddon. rewrite Hv.
  destruct e as [| |b|n|str|cls props]; simpl;
    (split; [reflexivity|]); (split; [eexists; split; reflexivity|]);
    (split; [first [discriminate | reflexivity]|]);
    intros s Hn Hs; try discriminate Hn; try discriminate Hs.
  unfold validationMessage. rewrite Hs. reflexivity.
Qed.

(** The request recorder is set up for a path exactly when validation passed
    and that path is configured and not empty; it is set up at most once,
    and the completion of [setupRequestRecorder] is then the completion of
    [initializeAddon]. *)
Theorem recorder_set_up_iff opts addon path :
  (In (EvSetupRequestRecorder path) (snd (initializeAddon ii opts addon)) <->
     validateAddon ii addon = Ok tt /\
     requestRecorderPath opts = Some path /\ path <> "") /\
  (length (List.filter isSetupRequestRecorder (snd (initializeAddon ii opts addon))) <= 1)%nat /\
  (In (EvSetupRequestRecorder path) (snd (initializeAddon ii opts addon)) ->
     fst (initializeAddon ii opts addon) = setupRequestRecorder ii path).
Proof.
  unfold initializeAddon.
  destruct (validateAddon ii addon) as [[]|e].
  - destruct (requestRecorderPath opts) as [configured|].
    + destruct (String.eqb_spec configured "") as [->|Hne]; simpl.
      * split; [|split; [lia|]].
        -- split; [intros [H|[]]; discriminate H|].
           intros (_ & Hp & Hne). injection Hp as <-. contradiction.
        -- intros [H|[]]; discriminate H.
      * split; [|split; [lia|]].
        -- split.
           ++ intros [H|[H|[]]]; [discriminate H|]. injection H as <-. auto.
           ++ intros (_ & Hp & _). injection Hp as <-. auto.
        -- intros [H|[H|[]]]; [discriminate H|]. injection H as <-. reflexivity.
    + simpl. split; [|split; [lia|]].
      * split; [intros [H|[]]; discriminate H|]. intros (_ & Hp & _). discriminate Hp.
      * intros [H|[]]; discriminate H.
  - destruct (getProp e "message"); simpl; (split; [|split; [lia|]]);
      try (split; [intros [H|[]]; discriminate H | intros (H & _); discriminate H]);
      intros [H|[]]; discriminate H.
Qed.

End InitializationProperties.

(** * Further runs of the demo addon *)

Import DemoInit.

Lemma initializeAddon_rejects_witness :
  validateAddon rejecting demoAddon = Throw (SilentError "no actions") /\
  initializeAddon rejecting recording demoAddon =
    (Throw (newError ("Validation of addon " ++ dquote ++ "demo" ++ dquote
                      ++ " failed: no actions")%string),
     [EvValidateAddon]).
Proof.
  assert (Hv : validateAddon rejecting demoAddon = Throw (SilentError "no actions"))
    by reflexivity.
  split; [exact Hv|].
  destruct (initializeAddon_rejects rejecting recording demoAddon _ Hv)
    as (Hevs & _ & _ & Hmsg).
  specialize (Hmsg "no actions" eq_refl eq_refl).
  destruct (initializeAddon rejecting recording demoAddon) as [r evs].
  simpl in Hevs, Hmsg. rewrite Hevs, Hmsg. reflexivity.
Defined.

Lemma recorder_set_up_iff_witness :
  In (EvSetupRequestRecorder "requests.json")
     (snd (initializeAddon accepting recording demoAddon)) /\
  fst (initializeAddon accepting recording demoAddon) = Ok tt.
Proof.
  destruct (recorder_set_up_iff accepting recording demoAddon "requests.json")
    as (Hiff & _ & Hdone).
  assert (Hin : In (EvSetupRequestRecorder "requests.json")
                   (snd (initializeAddon accepting recording demoAddon))).
  { apply Hiff. split; [reflexivity|]. split; [reflexivity|]. discriminate. }
  split; [exact Hin|]. exact (Hdone Hin).
Defined.

Lemma response_shape_witness :
  exists evs,
    trace (snd (handleAction demoImports (mkProps "captcha" keyA "good") world0))
      = trace world0 ++ evs /\
    In (EvSend "task" 200
          (VObj "Object" [("kind", VStr "taskRequest"); ("type", VStr "fetch")])) evs /\
    taskShaped (VObj "Object" [("kind", VStr "taskRequest"); ("type", VStr "fetch")]).
Proof.
  destruct (response_shape demoImports (mkProps "captcha" keyA "good") world0)
    as (evs & Ht & Hshape).
  assert (Hin : In (EvSend "task" 200
                      (VObj "Object" [("kind", VStr "taskRequest"); ("type", VStr "fetch")]))
                   evs).
  { run_of (trace (snd (handleAction demoImports (mkProps "captcha" keyA "good") world0)))
      Hrun.
    rewrite Hrun in Ht. simpl in Ht. subst evs. simpl. tauto. }
  exists evs. split; [exact Ht|]. split; [exact Hin|].
  destruct (Hshape _ _ _ Hin) as (_ & Htask & _). apply Htask. reflexivity.
Defined.

Lemma handler_receives_transformed_request_witness :
  exists st w0 ctx,
    prepare demoImports (mkProps "item" keyA "good") world0 = (Ok st, w0) /\
    ctx_request ctx = VNull /\
    ctx_sig ctx = VObj "Object" [("user", VStr "u1")] /\
    invoke demoImports (mkProps "item" keyA "good") st w0 =
      runHandler demoImports (p_cache st) ctx
        (returnsNull (VObj "Object" [("migrated", keyA)]) ctx (addonIdentity demoAddon))
        (after w0 [EvHandler (VObj "Object" [("migrated", keyA)])
                             (VObj "Object" [("user", VStr "u1")])] (store w0)) /\
    m_data (p_migrationCtx st) = VObj "Object" [("wire", VNum 1)] /\
    store w0 = store world0.
Proof.
  run_of (prepare demoImports (mkProps "item" keyA "good") world0) Hprep.
  match type of Hprep with
  | _ = (Ok ?st, ?w0) =>
      destruct (handler_receives_transformed_request demoImports
                  (mkProps "item" keyA "good") world0 w0 st Hprep)
        as (handler & input' & ctx & Hh & Hm & Hreq & Hsig & Hinv & Hs);
      exists st, w0, ctx
  end.
  vm_compute in Hh. injection Hh as <-.
  vm_compute in Hm. destruct Hm as (data & Ha & _). injection Ha as _ <-.
  split; [exact Hprep|]. split; [exact Hreq|]. split; [exact Hsig|].
  split; [exact Hinv|]. split; [reflexivity|]. exact Hs.
Defined.


Lemma recorded_request_witness :
  exists st w0,
    prepare demoImports (recordingProps "item" keyA "good") world0 = (Ok st, w0) /\
    responder w0 =
      Some (newResponder
              (Some {| rec_addon := Some "demo"; rec_action := Some "item";
                       rec_input := Some (VObj "Object" [("migrated", keyA)]);
                       rec_output := None |}) tt).
Proof.
  run_of (prepare demoImports (recordingProps "item" keyA "good") world0) Hprep.
  match type of Hprep with
  | _ = (Ok ?st, ?w0) =>
      destruct (recorded_request demoImports (recordingProps "item" keyA "good")
                  world0 w0 st Hprep) as (Hr & _ & Hrec);
      exists st, w0
  end.
  split; [exact Hprep|]. rewrite Hr.
  rewrite (Hrec "requests.json" eq_refl) by discriminate. reflexivity.
Defined.

Lemma failed_lookup_leaves_capability_witness :
  let w1 : W := {| trace := [EvCacheClone VUndefined; EvInline (VStr "A")];
                   store := store worldFound; inlineCache := None;
                   responder := None |} in
  requestCache demoCache (VStr "A") VUndefined worldFound
    = (Throw (CacheFoundError (VNum 42) VNull), w1) /\
  requestCache demoCache (VStr "B") VUndefined w1 =
    (Ok tt, {| trace := trace w1 ++ [EvCacheClone VUndefined; EvInline (VStr "B")];
               store := store worldFound; inlineCache := Some "demo:B";
               responder := None |}).
Proof.
  intros w1.
  exact (failed_lookup_leaves_capability demoCache (VStr "A") VUndefined
           (VStr "B") VUndefined worldFound (CacheFoundError (VNum 42) VNull)
           (store worldFound) eq_refl eq_refl).
Defined.

Lemma failure_without_entry_witness :
  exists st w0 w1 r,
    prepare demoImports (mkProps "source" keyA "good") world0 = (Ok st, w0) /\
    attempt demoImports (mkProps "source" keyA "good") st w0
      = (Throw (newError "boom"), w1) /\
    inlineCache w1 = None /\
    handleAction demoImports (mkProps "source" keyA "good") world0 =
      (Ok tt, {| trace := trace w1 ++
                   [EvConsoleWarn (newError "boom");
                    EvSend "response" 500 (VObj "Object" [("error", VStr "boom")]);
                    EvSetSendResponse 0];
                 store := store w1; inlineCache := None;
                 responder := Some r |}).
Proof.
  assert (Hact : action (mkProps "source" keyA "good") <> "task") by discriminate.
  run_of (prepare demoImports (mkProps "source" keyA "good") world0) Hprep.
  match type of Hprep with
  | _ = (Ok ?st, ?w0) =>
      run_of (attempt demoImports (mkProps "source" keyA "good") st w0) Hatt
  end.
  destruct (failure_without_entry demoImports (mkProps "source" keyA "good")
              _ _ _ _ _ Hact Hprep Hatt eq_refl eq_refl eq_refl) as (r & Hrun).
  eexists _, _, _, r.
  split; [exact Hprep|]. split; [exact Hatt|]. split; [reflexivity|]. exact Hrun.
Defined.

Lemma only_null_is_promoted_witness :
  exists st w0 w1,
    prepare demoImports (propsOf voidAddon "resolve" keyA "good") world0 = (Ok st, w0) /\
    invoke demoImports (propsOf voidAddon "resolve" keyA "good") st w0
      = (Ok VUndefined, w1) /\
    answered (handleAction demoImports (propsOf voidAddon "resolve" keyA "good") world0)
      (after w1 [EvValidatorResponse VUndefined] ∅) [] ∅ 200 VUndefined.
Proof.
  assert (Hact : action (propsOf voidAddon "resolve" keyA "good") <> "task")
    by discriminate.
  run_of (prepare demoImports (propsOf voidAddon "resolve" keyA "good") world0) Hprep.
  match type of Hprep with
  | _ = (Ok ?st, ?w0) =>
      run_of (invoke demoImports (propsOf voidAddon "resolve" keyA "good") st w0) Hinv
  end.
  assert (Hout : VUndefined <> VNull) by discriminate.
  pose proof (only_null_is_promoted demoImports (propsOf voidAddon "resolve" keyA "good")
                _ _ _ _ _ Hact Hprep Hinv Hout) as H.
  cbv zeta in H. destruct H as [_ H].
  eexists _, _, _. split; [exact Hprep|]. split; [exact Hinv|].
  exact (H VUndefined eq_refl).
Defined.

Lemma no_entry_no_recording_witness :
  inlineCache (snd (handleAction demoImports (mkProps "source" keyA "good") world0))
    = None /\
  exists evs,
    trace (snd (handleAction demoImports (mkProps "source" keyA "good") world0))
      = trace world0 ++ evs /\
    calls isRecording evs = 0%nat.
Proof.
  assert (Hact : action (mkProps "source" keyA "good") <> "task") by discriminate.
  assert (Hnone : inlineCache (snd (handleAction demoImports
                                      (mkProps "source" keyA "good") world0)) = None)
    by (vm_compute; reflexivity).
  split; [exact Hnone|].
  exact (no_entry_no_recording demoImports (mkProps "source" keyA "good") world0
           Hact Hnone).
Defined.

Lemma unknown_action_fails_first_witness :
  handleAction demoImports (mkProps "nope" keyA "bad") world0 =
    (Throw (newError "No handler for this action"),
     {| trace := [EvGetActionHandler "nope"]; store := ∅;
        inlineCache := None; responder := None |}) /\
  handleAction demoImports (mkProps "nope" keyA "good") world0 =
    handleAction demoImports (mkProps "nope" keyA "bad") world0.
Proof.
  assert (Hact : action (mkProps "nope" keyA "bad") <> "task") by discriminate.
  destruct (unknown_action_fails_first demoImports (mkProps "nope" keyA "bad") world0
              (newError "No handler for this action") Hact eq_refl) as (Hrun & Hsig).
  split; [exact Hrun|]. exact (Hsig "good").
Defined.

Lemma signature_ignored_when_exempt_witness :
  authExempt demoImports demoAddon "selftest" = true /\
  handleAction demoImports (mkProps "selftest" keyA "bad") world0 =
    handleAction demoImports (mkProps "selftest" keyA "") world0.
Proof.
  split; [reflexivity|].
  exact (signature_ignored_when_exempt demoImports (mkProps "selftest" keyA "") "bad"
           world0 (or_intror eq_refl)).
Defined.

Lemma invocation_isolated_witness :
  let after := snd (handleAction demoImports (mkProps "fetchItem" keyA "good") world0) in
  inlineCache after = Some "demo:A" /\
  fst (handleAction demoImports (mkProps "greedy" keyA "good") after)
    = fst (handleAction demoImports (mkProps "greedy" keyA "good") (withoutLocals after)).
Proof.
  intros after. split; [vm_compute; reflexivity|].
  assert (Hact : action (mkProps "greedy" keyA "good") <> "task") by discriminate.
  exact (proj1 (invocation_isolated demoImports (mkProps "greedy" keyA "good") after Hact)).
Defined.
